(** * tcglog-parser: decoding of TCG event-log payloads

    A shallow embedding of the decoders in [efi.go] and [eventdata.go] and
    the properties of them that the specification states.  The two source
    files declare several functions under the same Go name
    ([parseEFI_2_SpecIdEvent], [readDevicePathNode], [readDevicePath],
    [EFIGUID]); they live here in the modules [Efi] and [EventData]. *)

From Stdlib Require Import String Ascii ZArith Bool Lia List.
From Stdlib Require Import Strings.Byte.
From Equations Require Import Equations.
Import ListNotations.

Local Open Scope Z_scope.

(* The unfolding equations of the loops are proved without axioms, by
   hand where Equations does not find the proof. *)
Unset Equations With Funext.
Set Warnings "-solve_obligation_error".

(* ------------------------------------------------------------------ *)
(** * Go values *)

(** The numeric value of a byte, as [uint8]. *)
Definition byteZ (b : byte) : Z := Z.of_N (Byte.to_N b).

(** [uintN w z]: conversion of [z] to a [w]-bit unsigned integer
    (wrap-around). *)
Definition uintN (w : Z) (z : Z) : Z := z mod 2 ^ w.

Definition uint16 : Z -> Z := uintN 16.

(** [math.MaxUint32]. *)
Definition MaxUint32 : Z := 2 ^ 32 - 1.

(** [encoding/binary]'s [ByteOrder]. *)
Inductive ByteOrder : Type := LittleEndian | BigEndian.

(** [binary.LittleEndian.UintNN]: [b[0] | b[1]<<8 | ...]. *)
Fixpoint leUint (bs : list byte) : Z :=
  match bs with
  | [] => 0
  | b :: rest => Z.lor (byteZ b) (Z.shiftl (leUint rest) 8)
  end.

(** [binary.BigEndian.UintNN]: [b[n-1] | b[n-2]<<8 | ...]. *)
Definition beUint (bs : list byte) : Z :=
  fold_left (fun acc b => Z.lor (Z.shiftl acc 8) (byteZ b)) bs 0.

Definition Uint (order : ByteOrder) (bs : list byte) : Z :=
  match order with
  | LittleEndian => leUint bs
  | BigEndian => beUint bs
  end.

(** Errors returned by the readers and by the decoders of [efi.go]. *)
Inductive error : Type :=
| EOF                                     (* io.EOF *)
| ErrUnexpectedEOF                        (* io.ErrUnexpectedEOF *)
| ErrNegativePosition                     (* bytes.Reader.Seek: negative position *)
| InvalidSpecIdEventError (msg : string).

(* ------------------------------------------------------------------ *)
(** * The byte stream: [bytes.Reader] *)

(** [bytes.Reader]: the slice [s] and the read index [i]. *)
Record Reader : Type := mkReader { s : list byte; i : Z }.

Definition NewReader (data : list byte) : Reader := mkReader data 0.

Definition Size (r : Reader) : Z := Z.of_nat (length (s r)).

(** [Reader.Len]: the number of unread bytes. *)
Definition Len (r : Reader) : Z :=
  if i r >=? Size r then 0 else Size r - i r.

(** The outcome of a computation over the stream: a value, a returned
    error, or a run-time panic.  The stream is kept in the first two
    cases: a failed read has moved the cursor. *)
Inductive res (A : Type) : Type :=
| Ok (a : A) (r : Reader)
| Err (e : error) (r : Reader)
| Panic (msg : string).

Arguments Ok {A} a r.
Arguments Err {A} e r.
Arguments Panic {A} msg.

Definition M (A : Type) : Type := Reader -> res A.

Definition ret {A} (a : A) : M A := fun r => Ok a r.

Definition bind {A B} (m : M A) (f : A -> M B) : M B :=
  fun r =>
    match m r with
    | Ok a r' => f a r'
    | Err e r' => Err e r'
    | Panic msg => Panic msg
    end.

Definition fail {A} (e : error) : M A := fun r => Err e r.

Declare Scope go_scope.
Delimit Scope go_scope with go.
Notation "x <- m ;; k" := (bind m (fun x => k))
  (at level 61, m at next level, right associativity) : go_scope.
Notation "m ;;; k" := (bind m (fun _ => k))
  (at level 61, right associativity) : go_scope.
Local Open Scope go_scope.

(** The result of a Go function that has no error result: it returns, or
    it panics. *)
Inductive outcome (A : Type) : Type :=
| Returns (a : A)
| Panics (msg : string).

Arguments Returns {A} a.
Arguments Panics {A} msg.

(** A Go function over the stream that has no error result. *)
Definition G (A : Type) : Type := Reader -> outcome (A * Reader).

Definition retG {A} (a : A) : G A := fun r => Returns (a, r).

(** [v, err := m; if err != nil { return nil }] followed by [k v]. *)
Definition bindNil {A B} (m : M A) (k : A -> G (option B)) : G (option B) :=
  fun r =>
    match m r with
    | Ok a r' => k a r'
    | Err _ r' => Returns (None, r')
    | Panic msg => Panics msg
    end.

Notation "x <-? m ;; k" := (bindNil m (fun x => k))
  (at level 61, m at next level, right associativity) : go_scope.

(** [v := m; if v == nil { return nil }] followed by [k v]. *)
Definition bindSome {A B} (m : G (option A)) (k : A -> G (option B))
    : G (option B) :=
  fun r =>
    match m r with
    | Returns (Some a, r') => k a r'
    | Returns (None, r') => Returns (None, r')
    | Panics msg => Panics msg
    end.

Notation "x <-! m ;; k" := (bindSome m (fun x => k))
  (at level 61, m at next level, right associativity) : go_scope.

(** The largest allocation the Go run time accepts, [maxAlloc] of
    runtime/malloc.go on 64-bit Linux. *)
Definition maxAlloc : Z := 2 ^ 48.

(** [make([]T, n)] for an [n] of an unsigned integer type and elements of
    [elemSize] bytes: runtime.makeslice panics when the length, converted
    to [int], is negative or when the size exceeds [maxAlloc].  Running
    out of memory below that limit is outside the model. *)
Definition make (elemSize n : Z) : M unit :=
  fun r =>
    if (n >=? 2 ^ 63) || (elemSize * n >? maxAlloc)
    then Panic "runtime error: makeslice: len out of range"
    else Ok tt r.

(** [io.ReadFull(stream, buf)] with [len(buf) = n] on a [bytes.Reader].
    Nothing is read for an empty buffer; at the end of the stream the
    error is [io.EOF]; a short read consumes what is left and gives
    [io.ErrUnexpectedEOF]. *)
Definition ReadFull (n : Z) : M (list byte) :=
  fun r =>
    if n <=? 0 then Ok [] r
    else if Len r =? 0 then Err EOF r
    else if Len r <? n then Err ErrUnexpectedEOF (mkReader (s r) (Size r))
    else Ok (firstn (Z.to_nat n) (skipn (Z.to_nat (i r)) (s r)))
            (mkReader (s r) (i r + n)).

(** [binary.Read(stream, order, &v)] for a [v] of a fixed-size unsigned
    integer type of [size] bytes. *)
Definition binaryRead (order : ByteOrder) (size : Z) : M Z :=
  bs <- ReadFull size ;; ret (Uint order bs).

(** [stream.Seek(offset, io.SeekCurrent)]. *)
Definition SeekCurrent (offset : Z) : M Z :=
  fun r =>
    let abs := i r + offset in
    if abs <? 0 then Err ErrNegativePosition r
    else Ok abs (mkReader (s r) abs).

(* ------------------------------------------------------------------ *)
(** * [unicode/utf16] *)

Definition surr1 : Z := 0xd800.
Definition surr2 : Z := 0xdc00.
Definition surr3 : Z := 0xe000.

Definition replacementChar : Z := 0xFFFD.

(** [utf16.DecodeRune] on a valid surrogate pair. *)
Definition DecodeRune (r1 r2 : Z) : Z :=
  Z.lor (Z.shiftl (r1 - surr1) 10) (r2 - surr2) + 0x10000.

(** [utf16.Decode]. *)
Fixpoint Decode (u : list Z) : list Z :=
  match u with
  | [] => []
  | r :: rest =>
      if (r <? surr1) || (surr3 <=? r) then r :: Decode rest
      else if (surr1 <=? r) && (r <? surr2) then
        match rest with
        | r2 :: rest' =>
            if (surr2 <=? r2) && (r2 <? surr3)
            then DecodeRune r r2 :: Decode rest'
            else replacementChar :: Decode rest
        | [] => [replacementChar]
        end
      else replacementChar :: Decode rest
  end.

(* ------------------------------------------------------------------ *)
(** * efi.go: extraction of a UTF-16 sequence of [nchars] characters *)

(** The loop of [extractUTF16Buffer], [n] iterations left, with the
    code units collected so far in [out]. *)
Fixpoint extractUTF16Loop (n : nat) (out : list Z) : M (list Z) :=
  match n with
  | O => ret out
  | S n' =>
      c <- binaryRead LittleEndian 2 ;;
      let out := out ++ [c] in
      if (c >=? surr1) && (c <? surr2) then
        c <- binaryRead LittleEndian 2 ;;
        if (c <? surr2) || (c >=? surr3) then
          (* Invalid surrogate sequence *)
          SeekCurrent (-1) ;;; extractUTF16Loop n' out
        else
          (* Valid surrogate sequence *)
          extractUTF16Loop n' (out ++ [c])
      else extractUTF16Loop n' out
  end.

Definition extractUTF16Buffer (nchars : Z) : M (list Z) :=
  extractUTF16Loop (Z.to_nat nchars) [].

(* ------------------------------------------------------------------ *)
(** * [fmt]: the verbs the decoders use *)

Definition ldigits : string := "0123456789abcdefx".

Definition digit (d : Z) : ascii :=
  match String.get (Z.to_nat d) ldigits with
  | Some a => a
  | None => "?"%char
  end.

(** The right-to-left digit loop of [fmt.fmtInteger]; [fuel] is the
    length of its buffer. *)
Fixpoint fmtDigits (fuel : nat) (base u : Z) (acc : string) : string :=
  match fuel with
  | O => acc
  | S fuel' =>
      if u >=? base
      then fmtDigits fuel' base (u / base) (String (digit (u mod base)) acc)
      else String (digit u) acc
  end.

(** Zero digits added on the left until [prec] digits are there. *)
Fixpoint padZeros (fuel : nat) (prec : nat) (str : string) : string :=
  match fuel with
  | O => str
  | S fuel' =>
      if (String.length str <? prec)%nat
      then padZeros fuel' prec (String "0"%char str)
      else str
  end.

(** [fmt.fmtInteger] of an unsigned value: [%x] with flag [0] and width
    [wid] is [fmtInteger 16 wid]; [%d] is [fmtInteger 10 0]. *)
Definition fmtInteger (base : Z) (wid : nat) (u : Z) : string :=
  padZeros wid wid (fmtDigits 68 base u "").

(** [fmt.fmtSbx] of a byte slice or array under [%x] with flag [0] and
    width [wid]: two digits for each byte, padding on the left. *)
Fixpoint hexBytes (b : list byte) : string :=
  match b with
  | [] => ""
  | c :: rest =>
      String (digit (Z.shiftr (byteZ c) 4))
        (String (digit (Z.land (byteZ c) 0xF)) (hexBytes rest))
  end.

Definition fmtSbx (wid : nat) (b : list byte) : string :=
  padZeros wid wid (hexBytes b).

(* ------------------------------------------------------------------ *)
(** * Types shared by the two source files *)

Definition AlgorithmId : Type := Z.   (* uint16 *)
Definition PCRIndex : Type := Z.
Definition EventType : Type := Z.     (* uint32 *)

(** Modelled from the spec: the type [Spec] and its constants are declared
    outside src/; section 3 gives the three kinds.  [SpecUnknown] stands
    for the value of the field before a parser sets it. *)
Inductive Spec : Type := SpecUnknown | SpecPCClient | SpecEFI_1_2 | SpecEFI_2.

Record EFISpecIdEventAlgorithmSize : Type := mkAlgorithmSize {
  AlgorithmId_ : AlgorithmId;
  DigestSize : Z
}.

Record SpecIdEventData : Type := mkSpecIdEventData {
  specIdData : list byte;
  Spec_ : Spec;
  PlatformClass : Z;
  SpecVersionMinor : Z;
  SpecVersionMajor : Z;
  SpecErrata : Z;
  uintnSize : Z;
  DigestSizes : list EFISpecIdEventAlgorithmSize;
  VendorInfo : list byte
}.

Definition setSpec (sp : Spec) (e : SpecIdEventData) : SpecIdEventData :=
  mkSpecIdEventData (specIdData e) sp (PlatformClass e) (SpecVersionMinor e)
    (SpecVersionMajor e) (SpecErrata e) (uintnSize e) (DigestSizes e)
    (VendorInfo e).

Definition setUintnSize (v : Z) (e : SpecIdEventData) : SpecIdEventData :=
  mkSpecIdEventData (specIdData e) (Spec_ e) (PlatformClass e)
    (SpecVersionMinor e) (SpecVersionMajor e) (SpecErrata e) v (DigestSizes e)
    (VendorInfo e).

Definition setDigestSizes (v : list EFISpecIdEventAlgorithmSize)
    (e : SpecIdEventData) : SpecIdEventData :=
  mkSpecIdEventData (specIdData e) (Spec_ e) (PlatformClass e)
    (SpecVersionMinor e) (SpecVersionMajor e) (SpecErrata e) (uintnSize e) v
    (VendorInfo e).

Definition setVendorInfo (v : list byte) (e : SpecIdEventData)
    : SpecIdEventData :=
  mkSpecIdEventData (specIdData e) (Spec_ e) (PlatformClass e)
    (SpecVersionMinor e) (SpecVersionMajor e) (SpecErrata e) (uintnSize e)
    (DigestSizes e) v.

Definition efiDevicePathNodeEoH : Z := 0x7f.

(** A device-path node; the [next] pointers of the source make the
    nodes of a path a list. *)
Record efiDevicePathNode : Type := mkNode {
  t : Z;
  subType : Z;
  data : list byte
}.

(** [EFIDevicePath]: the nodes from [root] on ([root == nil] is []). *)
Definition EFIDevicePath : Type := list efiDevicePathNode.

Record EFIImageLoadEventData : Type := mkImageLoad {
  imageLoadData : list byte;
  LocationInMemory : Z;
  LengthInMemory : Z;
  LinkTimeAddress : Z;
  Path : EFIDevicePath
}.

(** Modelled from the spec: [bytesRead] is declared outside src/; it is
    the number of bytes the decoder consumed from the stream (section 4.5). *)
Definition bytesRead (stream : Reader) : Z := Size stream - Len stream.

(* ------------------------------------------------------------------ *)
(** * Termination of the device-path loops *)

Ltac bool_to_Z :=
  repeat match goal with
    | H : (_ || _) = false |- _ => apply orb_false_iff in H; destruct H
    | H : (_ >=? _) = _ |- _ => rewrite Z.geb_leb in H
    | H : (_ >? _) = _ |- _ => rewrite Z.gtb_ltb in H
    | H : (_ <=? _) = true |- _ => apply Z.leb_le in H
    | H : (_ <=? _) = false |- _ => apply Z.leb_gt in H
    | H : (_ <? _) = true |- _ => apply Z.ltb_lt in H
    | H : (_ <? _) = false |- _ => apply Z.ltb_ge in H
    | H : (_ =? _) = true |- _ => apply Z.eqb_eq in H
    | H : (_ =? _) = false |- _ => apply Z.eqb_neq in H
    end.

Ltac abstract_uint H :=
  repeat match type of H with
    | context [Uint ?o ?l] =>
        let u := fresh "u" in set (u := Uint o l) in *; clearbody u
    end.

(** A node reader that returned a node has moved the cursor forward:
    the measure [Len] of the stream went down. *)
Ltac node_consumed H :=
  unfold bindNil, binaryRead, bind, ReadFull, make, retG, ret in H;
  repeat (match type of H with
          | context [if ?b then _ else _] => destruct b eqn:?; try discriminate H
          end; abstract_uint H);
  match type of H with
  | Returns (_, ?r1) = Returns (_, ?r2) =>
      assert (r2 = r1) by congruence; subst r2; clear H
  end;
  unfold Len, Size, uint16, uintN in *; cbn [s i] in *;
  repeat match goal with
    | H : context [if ?b then _ else _] |- _ => destruct b eqn:?
    | |- context [if ?b then _ else _] => destruct b eqn:?
    end;
  bool_to_Z; lia.

(* ------------------------------------------------------------------ *)
(** * efi.go *)

Module Efi.

Record EFIGUID : Type := mkEFIGUID {
  A : Z; B : Z; C : Z; D : Z; E : list byte
}.

(** [(g *EFIGUID) String]. *)
Definition EFIGUID_String (g : EFIGUID) : string :=
  ("{" ++ fmtInteger 16 8 (A g) ++ "-" ++ fmtInteger 16 4 (B g) ++ "-"
   ++ fmtInteger 16 4 (C g) ++ "-" ++ fmtInteger 16 4 (D g) ++ "-"
   ++ fmtSbx 12 (E g) ++ "}")%string.

Definition decodeEFIGUID : M EFIGUID :=
  a <- binaryRead LittleEndian 4 ;;
  b <- binaryRead LittleEndian 2 ;;
  c <- binaryRead LittleEndian 2 ;;
  d <- binaryRead BigEndian 2 ;;
  e <- ReadFull 6 ;;
  ret (mkEFIGUID a b c d e).

Section SpecIdEvent.

(** Declared outside src/: the registry of the digest sizes of the known
    algorithms, the wrapper of read errors, and the rendering of an
    [AlgorithmId] under the verb [%04x]. *)
Variable knownAlgorithms : AlgorithmId -> option Z.
Variable wrapSpecIdEventReadError : error -> error.
Variable fmtAlgorithmId : AlgorithmId -> string.

(** [if err := ...; err != nil { return wrapSpecIdEventReadError(err) }] *)
Definition wrapErr {T} (m : M T) : M T :=
  fun r =>
    match m r with
    | Err e r' => Err (wrapSpecIdEventReadError e) r'
    | other => other
    end.

(** The loop over [TCG_EfiSpecIdEvent.digestSizes], [n] entries left. *)
Fixpoint readDigestSizes (n : nat) (acc : list EFISpecIdEventAlgorithmSize)
    : M (list EFISpecIdEventAlgorithmSize) :=
  match n with
  | O => ret acc
  | S n' =>
      algorithmId <- wrapErr (binaryRead LittleEndian 2) ;;
      digestSize <- wrapErr (binaryRead LittleEndian 2) ;;
      match knownAlgorithms algorithmId with
      | Some knownSize =>
          if negb (knownSize =? digestSize) then
            fail (InvalidSpecIdEventError
                    ("digestSize for algorithmId 0x" ++ fmtAlgorithmId algorithmId
                     ++ " doesn't match expected size (got: "
                     ++ fmtInteger 10 0 digestSize ++ ", expected: "
                     ++ fmtInteger 10 0 knownSize ++ ")"))
          else readDigestSizes n' (acc ++ [mkAlgorithmSize algorithmId digestSize])
      | None => readDigestSizes n' (acc ++ [mkAlgorithmSize algorithmId digestSize])
      end
  end.

Definition parseEFI_2_SpecIdEvent (eventData : SpecIdEventData)
    : M SpecIdEventData :=
  let eventData := setSpec SpecEFI_2 eventData in
  uintnSize <- wrapErr (binaryRead LittleEndian 1) ;;
  let eventData := setUintnSize uintnSize eventData in
  numberOfAlgorithms <- wrapErr (binaryRead LittleEndian 4) ;;
  if numberOfAlgorithms <? 1 then
    fail (InvalidSpecIdEventError "numberOfAlgorithms is zero")
  else
    make 4 numberOfAlgorithms ;;;
    digestSizes <- readDigestSizes (Z.to_nat numberOfAlgorithms) [] ;;
    let eventData := setDigestSizes digestSizes eventData in
    vendorInfoSize <- wrapErr (binaryRead LittleEndian 1) ;;
    make 1 vendorInfoSize ;;;
    vendorInfo <- wrapErr (ReadFull vendorInfoSize) ;;
    ret (setVendorInfo vendorInfo eventData).

End SpecIdEvent.

Definition readDevicePathNode : G (option efiDevicePathNode) :=
  t <-? binaryRead LittleEndian 1 ;;
  subType <-? binaryRead LittleEndian 1 ;;
  length <-? binaryRead LittleEndian 2 ;;
  if length <? 4 then retG None
  else
    _ <-? make 1 (length - 4) ;;
    data <-? ReadFull (length - 4) ;;
    retG (Some (mkNode t subType data)).

Equations? readDevicePathLoop (stream : Reader) (root : list efiDevicePathNode)
    : outcome EFIDevicePath by wf (Z.to_nat (Len stream)) lt :=
  readDevicePathLoop stream root
    with Equations.Prop.Logic.inspect (readDevicePathNode stream) := {
    | exist _ (Returns (Some node, stream')) _ =>
        if t node =? efiDevicePathNodeEoH then Returns root
        else readDevicePathLoop stream' (root ++ [node]);
    | exist _ (Returns (None, _)) _ => Returns [];
    | exist _ (Panics msg) _ => Panics msg }.
Proof.
  clear readDevicePathLoop. unfold readDevicePathNode in e. node_consumed e.
Qed.
Next Obligation.
  unfold readDevicePathLoop. unfold_recursor.
  - match goal with
    | |- context [Equations.Prop.Logic.inspect ?x] =>
        destruct (Equations.Prop.Logic.inspect x) as [[[[n|] r]|m] e]
    end; cbn; try reflexivity.
    destruct (t n =? efiDevicePathNodeEoH); [reflexivity|].
    match goal with H : forall y p, _ = _ |- _ => apply H end.
  - unfold readDevicePathLoop_unfold.
    match goal with
    | |- context [Equations.Prop.Logic.inspect ?x] =>
        destruct (Equations.Prop.Logic.inspect x) as [[[[n|] r]|m] e]
    end; cbn; reflexivity.
Defined.

Definition readDevicePath (data : list byte) : outcome EFIDevicePath :=
  readDevicePathLoop (NewReader data) [].

(** [decodeEventDataEFIImageLoadImpl]: the event, the number of bytes
    read and the error. *)
Definition decodeEventDataEFIImageLoadImpl (data : list byte)
    : outcome (option EFIImageLoadEventData * Z * option error) :=
  let body : M EFIImageLoadEventData :=
    locationInMemory <- binaryRead LittleEndian 8 ;;
    lengthInMemory <- binaryRead LittleEndian 8 ;;
    linkTimeAddress <- binaryRead LittleEndian 8 ;;
    devicePathLength <- binaryRead LittleEndian 8 ;;
    make 1 devicePathLength ;;;
    devicePathBuf <- ReadFull devicePathLength ;;
    fun stream =>
      match readDevicePath devicePathBuf with
      | Returns path =>
          Ok (mkImageLoad data locationInMemory lengthInMemory linkTimeAddress
                path) stream
      | Panics msg => Panic msg
      end
  in
  match body (NewReader data) with
  | Ok d stream => Returns (Some d, bytesRead stream, None)
  | Err e _ => Returns (None, 0, Some e)
  | Panic msg => Panics msg
  end.

End Efi.

(* ------------------------------------------------------------------ *)
(** * [strings] *)

(** [strings.Index(s, substr)]: the index of the first instance, or -1. *)
Definition strings_Index (str substr : string) : Z :=
  match String.index 0 substr str with
  | Some n => Z.of_nat n
  | None => -1
  end.

Definition HasPrefix (str pre : string) : bool := String.prefix pre str.

Definition HasSuffix (str suffix : string) : bool :=
  (String.length suffix <=? String.length str)%nat
  && String.eqb
       (String.substring (String.length str - String.length suffix)
          (String.length suffix) str)
       suffix.

Definition TrimPrefix (str pre : string) : string :=
  if HasPrefix str pre
  then String.substring (String.length pre)
         (String.length str - String.length pre) str
  else str.

Definition TrimSuffix (str suffix : string) : string :=
  if HasSuffix str suffix
  then String.substring 0 (String.length str - String.length suffix) str
  else str.

(** The string ["\x00"]. *)
Definition NUL : string := String "000"%char "".

(* ------------------------------------------------------------------ *)
(** * Event types *)

(** Modelled from the spec: the [EventType] constants are declared outside
    src/; section 3 gives the values of these twelve. *)
Definition EventTypeNoAction : EventType := 0x03.
Definition EventTypeSeparator : EventType := 0x04.
Definition EventTypeAction : EventType := 0x05.
Definition EventTypeIPL : EventType := 0x0d.
Definition EventTypeEFIVariableDriverConfig : EventType := 0x80000001.
Definition EventTypeEFIVariableBoot : EventType := 0x80000002.
Definition EventTypeEFIBootServicesApplication : EventType := 0x80000003.
Definition EventTypeEFIBootServicesDriver : EventType := 0x80000004.
Definition EventTypeEFIRuntimeServicesDriver : EventType := 0x80000005.
Definition EventTypeEFIGPTEvent : EventType := 0x80000006.
Definition EventTypeEFIAction : EventType := 0x80000007.
Definition EventTypeEFIVariableAuthority : EventType := 0x800000e0.

(** Modelled from the spec: [SeparatorEventType] and its two constants
    are declared outside src/; section 3 has [kind: Normal|Error]. *)
Inductive SeparatorEventType : Type :=
| SeparatorEventTypeNormal
| SeparatorEventTypeError.

(** What eventdata.go uses and src/ does not declare: the six event types
    that section 3 names without a value, and the decoder of a UTF-16
    string of a given number of characters. *)
Class Externals : Type := {
  EventTypeEventTag : EventType;
  EventTypeSCRTMVersion : EventType;
  EventTypePlatformConfigFlags : EventType;
  EventTypeTableOfDevices : EventType;
  EventTypeNonhostInfo : EventType;
  EventTypeOmitBootDeviceEvents : EventType;
  decodeUTF16ToString : Z -> ByteOrder -> M string
}.

(* ------------------------------------------------------------------ *)
(** * eventdata.go *)

Module EventData.

(** ** The event-data structs and their methods

    [MeasuredBytes] returns a slice that is [nil] for an event that is
    not measured: [None] here. *)

Module SpecIdEventData_.
Definition RawBytes (e : SpecIdEventData) : list byte := specIdData e.
Definition MeasuredBytes (e : SpecIdEventData) : option (list byte) := None.
End SpecIdEventData_.

Module SeparatorEventData.
Record t : Type := mk { data : list byte; Type_ : SeparatorEventType }.
Definition RawBytes (e : t) : list byte := data e.
Definition MeasuredBytes (e : t) : option (list byte) :=
  match Type_ e with
  | SeparatorEventTypeNormal => Some (data e)
  | SeparatorEventTypeError => None
  end.
End SeparatorEventData.

Module AsciiStringEventData.
Record t : Type := mk { data : list byte; informational : bool }.
Definition RawBytes (e : t) : list byte := data e.
Definition MeasuredBytes (e : t) : option (list byte) :=
  if negb (informational e) then Some (data e) else None.
End AsciiStringEventData.

Module opaqueEventData.
Record t : Type := mk { data : list byte; informational : bool }.
Definition RawBytes (e : t) : list byte := data e.
Definition MeasuredBytes (e : t) : option (list byte) :=
  if negb (informational e) then Some (data e) else None.
End opaqueEventData.

Module KernelCmdlineEventData.
Record t : Type := mk { data : list byte; Cmdline : string }.
Definition RawBytes (e : t) : list byte := data e.
Definition MeasuredBytes (e : t) : option (list byte) :=
  Some (list_byte_of_string (Cmdline e)).
End KernelCmdlineEventData.

Module GrubCmdEventData.
Record t : Type := mk { data : list byte; Cmd : string }.
Definition RawBytes (e : t) : list byte := data e.
Definition MeasuredBytes (e : t) : option (list byte) :=
  Some (list_byte_of_string (Cmd e)).
End GrubCmdEventData.

Record EFIGUID : Type := mkEFIGUID {
  Data1 : Z; Data2 : Z; Data3 : Z; Data4 : list byte
}.

(** [g.Data4[lo:hi]]. *)
Definition slice (lo hi : nat) (b : list byte) : list byte :=
  firstn (hi - lo) (skipn lo b).

(** [(g *EFIGUID) String]. *)
Definition EFIGUID_String (g : EFIGUID) : string :=
  ("{" ++ fmtInteger 16 8 (Data1 g) ++ "-" ++ fmtInteger 16 4 (Data2 g) ++ "-"
   ++ fmtInteger 16 4 (Data3 g) ++ "-" ++ fmtSbx 4 (slice 0 2 (Data4 g)) ++ "-"
   ++ fmtSbx 12 (slice 2 8 (Data4 g)) ++ "}")%string.

Definition readEFIGUID (order : ByteOrder) : M EFIGUID :=
  data1 <- binaryRead order 4 ;;
  data2 <- binaryRead order 2 ;;
  data3 <- binaryRead order 2 ;;
  data4 <- ReadFull 8 ;;
  ret (mkEFIGUID data1 data2 data3 data4).

Module EFIVariableEventData.
Record t : Type := mk {
  data : list byte;
  VariableName : EFIGUID;
  UnicodeName : string;
  VariableData : list byte
}.
Definition RawBytes (e : t) : list byte := data e.
Definition MeasuredBytes (e : t) : option (list byte) := Some (data e).
End EFIVariableEventData.

Module EFIImageLoadEventData_.
Definition RawBytes (e : EFIImageLoadEventData) : list byte := imageLoadData e.
Definition MeasuredBytes (e : EFIImageLoadEventData) : option (list byte) :=
  None.
End EFIImageLoadEventData_.

(** The interface [EventData]: a value of one of the structs. *)
Inductive EventData : Type :=
| SpecId (e : SpecIdEventData)
| Separator (e : SeparatorEventData.t)
| AsciiString (e : AsciiStringEventData.t)
| Opaque (e : opaqueEventData.t)
| KernelCmdline (e : KernelCmdlineEventData.t)
| GrubCmd (e : GrubCmdEventData.t)
| EFIVariable (e : EFIVariableEventData.t)
| EFIImageLoad (e : EFIImageLoadEventData).

Definition RawBytes (e : EventData) : list byte :=
  match e with
  | SpecId e => SpecIdEventData_.RawBytes e
  | Separator e => SeparatorEventData.RawBytes e
  | AsciiString e => AsciiStringEventData.RawBytes e
  | Opaque e => opaqueEventData.RawBytes e
  | KernelCmdline e => KernelCmdlineEventData.RawBytes e
  | GrubCmd e => GrubCmdEventData.RawBytes e
  | EFIVariable e => EFIVariableEventData.RawBytes e
  | EFIImageLoad e => EFIImageLoadEventData_.RawBytes e
  end.

Definition MeasuredBytes (e : EventData) : option (list byte) :=
  match e with
  | SpecId e => SpecIdEventData_.MeasuredBytes e
  | Separator e => SeparatorEventData.MeasuredBytes e
  | AsciiString e => AsciiStringEventData.MeasuredBytes e
  | Opaque e => opaqueEventData.MeasuredBytes e
  | KernelCmdline e => KernelCmdlineEventData.MeasuredBytes e
  | GrubCmd e => GrubCmdEventData.MeasuredBytes e
  | EFIVariable e => EFIVariableEventData.MeasuredBytes e
  | EFIImageLoad e => EFIImageLoadEventData_.MeasuredBytes e
  end.

(** A function that returns an [EventData], or [nil], on a stream it owns. *)
Definition runNil {T} (f : G (option T)) (stream : Reader) : outcome (option T) :=
  match f stream with
  | Returns (v, _) => Returns v
  | Panics msg => Panics msg
  end.

(** ** Spec-id events *)

Definition readVendorInfo (order : ByteOrder) (eventData : SpecIdEventData)
    : G (option SpecIdEventData) :=
  vendorInfoSize <-? binaryRead order 1 ;;
  _ <-? make 1 vendorInfoSize ;;
  vendorInfo <-? ReadFull vendorInfoSize ;;
  retG (Some (setVendorInfo vendorInfo eventData)).

Definition parsePCClientSpecIdEvent (eventData : SpecIdEventData)
    (order : ByteOrder) : G (option SpecIdEventData) :=
  let eventData := setSpec SpecPCClient eventData in
  reserved <-? binaryRead order 1 ;;
  readVendorInfo order eventData.

Definition parseEFI_1_2_SpecIdEvent (eventData : SpecIdEventData)
    (order : ByteOrder) : G (option SpecIdEventData) :=
  let eventData := setSpec SpecEFI_1_2 eventData in
  uintnSize <-? binaryRead order 1 ;;
  readVendorInfo order (setUintnSize uintnSize eventData).

(** The loop over [TCG_EfiSpecIdEvent.digestSizes], [n] entries left;
    [None] when a read failed and the parser returns [nil]. *)
Fixpoint readDigestSizes (order : ByteOrder) (n : nat)
    (acc : list EFISpecIdEventAlgorithmSize)
    : G (option (list EFISpecIdEventAlgorithmSize)) :=
  match n with
  | O => retG (Some acc)
  | S n' =>
      algorithmId <-? binaryRead order 2 ;;
      digestSize <-? binaryRead order 2 ;;
      readDigestSizes order n' (acc ++ [mkAlgorithmSize algorithmId digestSize])
  end.

Definition parseEFI_2_SpecIdEvent (eventData : SpecIdEventData)
    (order : ByteOrder) : G (option SpecIdEventData) :=
  let eventData := setSpec SpecEFI_2 eventData in
  uintnSize <-? binaryRead order 1 ;;
  let eventData := setUintnSize uintnSize eventData in
  numberOfAlgorithms <-? binaryRead order 4 ;;
  _ <-? make 4 numberOfAlgorithms ;;
  digestSizes <-! readDigestSizes order (Z.to_nat numberOfAlgorithms) [] ;;
  readVendorInfo order (setDigestSizes digestSizes eventData).

Definition parseSpecIdEvent (data : list byte) (order : ByteOrder)
    : outcome (option EventData) :=
  let body : G (option SpecIdEventData) :=
    sigRaw <-? ReadFull 16 ;;
    let signature := string_of_list_byte sigRaw in
    platformClass <-? binaryRead order 4 ;;
    specVersionMinor <-? binaryRead order 1 ;;
    specVersionMajor <-? binaryRead order 1 ;;
    specErrata <-? binaryRead order 1 ;;
    let eventData :=
      mkSpecIdEventData data SpecUnknown platformClass specVersionMinor
        specVersionMajor specErrata 0 [] [] in
    if String.eqb signature ("Spec ID Event00" ++ NUL) then
      parsePCClientSpecIdEvent eventData order
    else if String.eqb signature ("Spec ID Event02" ++ NUL) then
      parseEFI_1_2_SpecIdEvent eventData order
    else if String.eqb signature ("Spec ID Event03" ++ NUL) then
      parseEFI_2_SpecIdEvent eventData order
    else retG None
  in
  match runNil body (NewReader data) with
  | Returns v => Returns (option_map SpecId v)
  | Panics msg => Panics msg
  end.

(** ** Separator, no-action, IPL and action events *)

Definition validNormalSeparatorValues : list Z := [0; MaxUint32].

Definition makeEventDataSeparator (data : list byte) (order : ByteOrder)
    : option EventData :=
  if negb (Z.of_nat (length data) =? 4) then None
  else
    let v := Uint order data in
    let t :=
      if existsb (fun w => v =? w) validNormalSeparatorValues
      then SeparatorEventTypeNormal
      else SeparatorEventTypeError in
    Some (Separator (SeparatorEventData.mk data t)).

Definition makeEventDataNoAction (pcrIndex : PCRIndex) (data : list byte)
    (order : ByteOrder) : outcome (option EventData) :=
  if pcrIndex =? 0 then parseSpecIdEvent data order
  else Returns None.

Definition kernelCmdlinePrefix : string := "kernel_cmdline: ".
Definition grubCmdPrefix : string := "grub_cmd: ".

Definition makeEventDataIPL (pcrIndex : PCRIndex) (data : list byte)
    : option EventData :=
  if pcrIndex =? 8 then
    let str := string_of_list_byte data in
    if strings_Index str kernelCmdlinePrefix =? 0 then
      let str := TrimPrefix str kernelCmdlinePrefix in
      let str := TrimSuffix str NUL in
      Some (KernelCmdline (KernelCmdlineEventData.mk data str))
    else if strings_Index str grubCmdPrefix =? 0 then
      let str := TrimPrefix str grubCmdPrefix in
      let str := TrimSuffix str NUL in
      Some (GrubCmd (GrubCmdEventData.mk data str))
    else None
  else if pcrIndex =? 9 then
    Some (AsciiString (AsciiStringEventData.mk data true))
  else None.

Definition makeEventDataAction (data : list byte) : option EventData :=
  Some (AsciiString (AsciiStringEventData.mk data false)).

(** ** Image-load events and device paths *)

Definition readDevicePathNode (order : ByteOrder)
    : G (option efiDevicePathNode) :=
  t <-? binaryRead order 1 ;;
  subType <-? binaryRead order 1 ;;
  length <-? binaryRead order 2 ;;
  let length := uint16 (length - 4) in
  if length >? 0 then
    _ <-? make 1 length ;;
    pathData <-? ReadFull length ;;
    retG (Some (mkNode t subType pathData))
  else retG (Some (mkNode t subType [])).

Equations? readDevicePathLoop (order : ByteOrder) (stream : Reader)
    (rootNode : list efiDevicePathNode)
    : outcome (option EFIDevicePath) by wf (Z.to_nat (Len stream)) lt :=
  readDevicePathLoop order stream rootNode
    with Equations.Prop.Logic.inspect (readDevicePathNode order stream) := {
    | exist _ (Returns (Some node, stream')) _ =>
        if t node =? efiDevicePathNodeEoH then Returns (Some rootNode)
        else readDevicePathLoop order stream' (rootNode ++ [node]);
    | exist _ (Returns (None, _)) _ => Returns None;
    | exist _ (Panics msg) _ => Panics msg }.
Proof.
  clear readDevicePathLoop. unfold readDevicePathNode in e. node_consumed e.
Qed.
Next Obligation.
  unfold readDevicePathLoop. unfold_recursor.
  - match goal with
    | |- context [Equations.Prop.Logic.inspect ?x] =>
        destruct (Equations.Prop.Logic.inspect x) as [[[[n|] r]|m] e]
    end; cbn; try reflexivity.
    destruct (t n =? efiDevicePathNodeEoH); [reflexivity|].
    match goal with H : forall y p, _ = _ |- _ => apply H end.
  - unfold readDevicePathLoop_unfold.
    match goal with
    | |- context [Equations.Prop.Logic.inspect ?x] =>
        destruct (Equations.Prop.Logic.inspect x) as [[[[n|] r]|m] e]
    end; cbn; reflexivity.
Defined.

Definition readDevicePath (data : list byte) (order : ByteOrder)
    : outcome (option EFIDevicePath) :=
  readDevicePathLoop order (NewReader data) [].

Definition makeEventDataImageLoad (data : list byte) (order : ByteOrder)
    : outcome (option EventData) :=
  let body : G (option EventData) :=
    locationInMemory <-? binaryRead order 8 ;;
    lengthInMemory <-? binaryRead order 8 ;;
    linkTimeAddress <-? binaryRead order 8 ;;
    devicePathLength <-? binaryRead order 8 ;;
    _ <-? make 1 devicePathLength ;;
    devicePathBuf <-? ReadFull devicePathLength ;;
    path <-! (fun stream =>
                match readDevicePath devicePathBuf order with
                | Returns path => Returns (path, stream)
                | Panics msg => Panics msg
                end) ;;
    retG (Some (EFIImageLoad
                  (mkImageLoad data locationInMemory lengthInMemory
                     linkTimeAddress path)))
  in
  runNil body (NewReader data).

Section WithExternals.

Context {X : Externals}.

(** ** UEFI variable events *)

Definition makeEventDataEFIVariable (data : list byte) (order : ByteOrder)
    : outcome (option EventData) :=
  let body : G (option EventData) :=
    guid <-? readEFIGUID order ;;
    unicodeNameLength <-? binaryRead order 8 ;;
    variableDataLength <-? binaryRead order 8 ;;
    unicodeName <-? decodeUTF16ToString unicodeNameLength order ;;
    _ <-? make 1 variableDataLength ;;
    variableData <-? ReadFull variableDataLength ;;
    retG (Some (EFIVariable
                  (EFIVariableEventData.mk data guid unicodeName variableData)))
  in
  runNil body (NewReader data).

(** ** The dispatch *)

Definition makeEventDataImpl (pcrIndex : PCRIndex) (eventType : EventType)
    (data : list byte) (order : ByteOrder) : outcome (option EventData) :=
  if eventType =? EventTypeNoAction then
    makeEventDataNoAction pcrIndex data order
  else if eventType =? EventTypeSeparator then
    Returns (makeEventDataSeparator data order)
  else if (eventType =? EventTypeAction) || (eventType =? EventTypeEFIAction) then
    Returns (makeEventDataAction data)
  else if eventType =? EventTypeIPL then
    Returns (makeEventDataIPL pcrIndex data)
  else if (eventType =? EventTypeEFIVariableDriverConfig)
          || (eventType =? EventTypeEFIVariableBoot)
          || (eventType =? EventTypeEFIVariableAuthority) then
    makeEventDataEFIVariable data order
  else if (eventType =? EventTypeEFIBootServicesApplication)
          || (eventType =? EventTypeEFIBootServicesDriver)
          || (eventType =? EventTypeEFIRuntimeServicesDriver) then
    makeEventDataImageLoad data order
  else Returns None.

Definition makeOpaqueEventData (eventType : EventType) (data : list byte)
    : option EventData :=
  if (eventType =? EventTypeEventTag) || (eventType =? EventTypeSCRTMVersion)
     || (eventType =? EventTypePlatformConfigFlags)
     || (eventType =? EventTypeTableOfDevices)
     || (eventType =? EventTypeNonhostInfo)
     || (eventType =? EventTypeOmitBootDeviceEvents)
     || (eventType =? EventTypeEFIGPTEvent)
  then Some (Opaque (opaqueEventData.mk data false))
  else Some (Opaque (opaqueEventData.mk data true)).

Definition makeEventData (pcrIndex : PCRIndex) (eventType : EventType)
    (data : list byte) (order : ByteOrder) : outcome (option EventData) :=
  match makeEventDataImpl pcrIndex eventType data order with
  | Returns (Some event) => Returns (Some event)
  | Returns None => Returns (makeOpaqueEventData eventType data)
  | Panics msg => Panics msg
  end.

End WithExternals.

End EventData.

(* ------------------------------------------------------------------ *)
(** * Definitions for the statements *)

(** [At r l]: the unread part of the stream [r] is [l]. *)
Definition At (r : Reader) (l : list byte) : Prop :=
  0 <= i r /\ skipn (Z.to_nat (i r)) (s r) = l.

Definition advance (r : Reader) (n : Z) : Reader := mkReader (s r) (i r + n).

(** ** Encoding of integers and of device-path nodes, to describe inputs *)

Definition byteOfZ (z : Z) : byte :=
  match Byte.of_N (Z.to_N (z mod 256)) with
  | Some b => b
  | None => x00
  end.

Fixpoint encodeLE (k : nat) (v : Z) : list byte :=
  match k with
  | O => []
  | S k' => byteOfZ v :: encodeLE k' (v / 256)
  end.

(** The [k] bytes of [v] in the byte order [order]. *)
Definition encodeUint (order : ByteOrder) (k : nat) (v : Z) : list byte :=
  match order with
  | LittleEndian => encodeLE k v
  | BigEndian => rev (encodeLE k v)
  end.

(** The header and the data of a device-path node as they are in the
    stream. *)
Record rawNode : Type := mkRawNode {
  rawType : byte;
  rawSubType : byte;
  rawData : list byte
}.

(** The stream form of a node: type, sub-type, the length of the whole
    node in two bytes, and the data. *)
Definition encodeNode (order : ByteOrder) (n : rawNode) : list byte :=
  [rawType n; rawSubType n]
  ++ encodeUint order 2 (4 + Z.of_nat (length (rawData n)))
  ++ rawData n.

(** The node that the decoders build from [n]. *)
Definition decodedNode (n : rawNode) : efiDevicePathNode :=
  mkNode (byteZ (rawType n)) (byteZ (rawSubType n)) (rawData n).

(** A node that is not the End-of-Hardware node and whose length fits
    the 16-bit length field. *)
Definition pathNode (n : rawNode) : Prop :=
  byteZ (rawType n) <> efiDevicePathNodeEoH
  /\ 4 + Z.of_nat (length (rawData n)) < 65536.

(** The stream form of a [UEFI_IMAGE_LOAD_EVENT] with the device path
    [path]. *)
Definition encodeImageLoad (order : ByteOrder)
    (locationInMemory lengthInMemory linkTimeAddress : Z) (path : list byte)
    : list byte :=
  encodeUint order 8 locationInMemory ++ encodeUint order 8 lengthInMemory
  ++ encodeUint order 8 linkTimeAddress
  ++ encodeUint order 8 (Z.of_nat (length path)) ++ path.

(** The stream form of an entry of the table of digest sizes. *)
Definition encodeAlgorithmSize (e : EFISpecIdEventAlgorithmSize) : list byte :=
  encodeUint LittleEndian 2 (AlgorithmId_ e)
  ++ encodeUint LittleEndian 2 (DigestSize e).

(** An entry whose two fields fit their 16 bits. *)
Definition wellSized (e : EFISpecIdEventAlgorithmSize) : Prop :=
  0 <= AlgorithmId_ e < 65536 /\ 0 <= DigestSize e < 65536.

(** An entry that names an unknown algorithm, or a known one with the
    size that the registry [known] has for it. *)
Definition agrees (known : AlgorithmId -> option Z)
    (e : EFISpecIdEventAlgorithmSize) : Prop :=
  forall size, known (AlgorithmId_ e) = Some size -> size = DigestSize e.

(** ** Inputs of the examples *)

(** A spec-id event with the signature ["Spec ID Event03\x00"], platform
    class 0, version 2.0, errata 0, [uintnSize] 2, followed by [tail]. *)
Definition specIdEvent03 (tail : list byte) : list byte :=
  list_byte_of_string ("Spec ID Event03" ++ NUL)
  ++ [x00; x00; x00; x00; x00; x02; x00; x02] ++ tail.

(** [numberOfAlgorithms] 0 and no vendor information. *)
Definition specIdNoAlgorithms : list byte :=
  specIdEvent03 [x00; x00; x00; x00; x00].

(** One algorithm, SHA-256 (0x000b), declared with a digest of 20 bytes;
    no vendor information. *)
Definition specIdSha256Size20 : list byte :=
  specIdEvent03 [x01; x00; x00; x00; x0b; x00; x14; x00; x00].

(** An image-load event, all addresses 0, whose device path has the
    length 0xFFFFFFFFFFFFFFFF. *)
Definition imageLoadHugePath : list byte := repeat x00 24 ++ repeat xff 8.

(** An image-load event, all addresses 0, whose device path of 4 bytes is
    one PCI node and no End-of-Hardware node. *)
Definition imageLoadUnterminated : list byte :=
  repeat x00 24 ++ [x04; x00; x00; x00; x00; x00; x00; x00]
  ++ [x01; x01; x04; x00].

(** The same event with its End-of-Hardware node. *)
Definition imageLoadTerminated : list byte :=
  repeat x00 24 ++ [x08; x00; x00; x00; x00; x00; x00; x00]
  ++ [x01; x01; x04; x00; x7f; xff; x04; x00].

(** A device-path node whose length field is 0, followed by 65532 bytes. *)
Definition nodeLengthZero : list byte :=
  [x01; x01; x00; x00] ++ repeat x00 (Z.to_nat 65532).

(** Modelled from the spec: the registry [knownAlgorithms] is declared
    outside src/; section 3 gives the identifiers, and the sizes are the
    digest lengths of the algorithms it names. *)
Definition knownAlgorithmsTCG (a : AlgorithmId) : option Z :=
  if a =? 0x0004 then Some 20        (* SHA-1 *)
  else if a =? 0x000B then Some 32   (* SHA-256 *)
  else if a =? 0x000C then Some 48   (* SHA-384 *)
  else if a =? 0x000D then Some 64   (* SHA-512 *)
  else if a =? 0x0012 then Some 32   (* SM3-256 *)
  else None.

(** [strings.Builder.WriteRune]: the UTF-8 form of a rune. *)
Definition utf8 (r : Z) : list byte :=
  if r <? 0x80 then [byteOfZ r]
  else if r <? 0x800 then
    [byteOfZ (0xC0 + r / 64); byteOfZ (0x80 + r mod 64)]
  else if r <? 0x10000 then
    [byteOfZ (0xE0 + r / 4096); byteOfZ (0x80 + (r / 64) mod 64);
     byteOfZ (0x80 + r mod 64)]
  else
    [byteOfZ (0xF0 + r / 262144); byteOfZ (0x80 + (r / 4096) mod 64);
     byteOfZ (0x80 + (r / 64) mod 64); byteOfZ (0x80 + r mod 64)].

(** Modelled from the spec: [decodeUTF16ToString] is declared outside
    src/; by section 4.1 the characters are extracted as
    [extractUTF16Buffer] does and decoded. *)
Definition decodeUTF16ToStringSpec (nchars : Z) (order : ByteOrder) : M string :=
  u <- extractUTF16Buffer nchars ;;
  ret (string_of_list_byte (concat (map utf8 (Decode u)))).

(** The externals with which the examples are evaluated: the six event
    types with the values of the TCG PC Client specification. *)
Definition TCG : Externals := {|
  EventTypeEventTag := 0x06;
  EventTypeSCRTMVersion := 0x08;
  EventTypePlatformConfigFlags := 0x0a;
  EventTypeTableOfDevices := 0x0b;
  EventTypeNonhostInfo := 0x11;
  EventTypeOmitBootDeviceEvents := 0x12;
  decodeUTF16ToString := decodeUTF16ToStringSpec
|}.

(** All the values of a byte. *)
Definition all_bytes : list byte :=
  map (fun n => match Byte.of_nat n with Some b => b | None => x00 end)
      (seq 0 256).

(* ------------------------------------------------------------------ *)
(** * [unicode/utf8]: the bytes of a rune *)

Definition RuneError : Z := 0xFFFD.
Definition MaxRune : Z := 0x10FFFF.

(** The three bytes of a rune up to 0xFFFF. *)
Definition encodeRune3 (r : Z) : list byte :=
  [byteOfZ (Z.lor 0xE0 (Z.shiftr r 12));
   byteOfZ (Z.lor 0x80 (Z.land (Z.shiftr r 6) 0x3F));
   byteOfZ (Z.lor 0x80 (Z.land r 0x3F))].

(** [utf8.EncodeRune] of a rune that is not negative, which is what
    [bytes.Buffer.WriteRune] appends: a surrogate or a value above
    [MaxRune] is written as [RuneError]. *)
Definition EncodeRune (r : Z) : list byte :=
  if r <=? 0x7F then [byteOfZ r]
  else if r <=? 0x7FF then
    [byteOfZ (Z.lor 0xC0 (Z.shiftr r 6)); byteOfZ (Z.lor 0x80 (Z.land r 0x3F))]
  else if (r >? MaxRune) || ((0xD800 <=? r) && (r <=? 0xDFFF)) then
    encodeRune3 RuneError
  else if r <=? 0xFFFF then encodeRune3 r
  else
    [byteOfZ (Z.lor 0xF0 (Z.shiftr r 18));
     byteOfZ (Z.lor 0x80 (Z.land (Z.shiftr r 12) 0x3F));
     byteOfZ (Z.lor 0x80 (Z.land (Z.shiftr r 6) 0x3F));
     byteOfZ (Z.lor 0x80 (Z.land r 0x3F))].

(** [for _, r := range runes { buf.WriteRune(r) }] followed by
    [buf.String()]. *)
Definition runesToString (runes : list Z) : string :=
  string_of_list_byte (concat (map EncodeRune runes)).

(** [binary.Read(stream, order, &v)] for a slice [v] of [n] values of
    type [uint16]: [2 * n] bytes are read, two for each value. *)
Fixpoint uint16s (order : ByteOrder) (bs : list byte) : list Z :=
  match bs with
  | b0 :: b1 :: rest => Uint order [b0; b1] :: uint16s order rest
  | _ => []
  end.

Definition binaryReadUint16s (order : ByteOrder) (n : Z) : M (list Z) :=
  bs <- ReadFull (2 * n) ;; ret (uint16s order bs).

(** A computation that reads from a stream [sub] of its own; the stream
    of the caller is left where it is. *)
Definition onStream {A} (sub : Reader) (m : M A) : M A :=
  fun stream =>
    match m sub with
    | Ok a _ => Ok a stream
    | Err e _ => Err e stream
    | Panic msg => Panic msg
    end.

(** The double-quote character. *)
Definition quote : string := String (ascii_of_nat 34) EmptyString.

(* ------------------------------------------------------------------ *)
(** * efi.go: the decoders of the other events *)

Module EfiEvents.

(** [decodeEFIGUIDFromArray]; [data] is the array of 16 bytes. *)
Definition decodeEFIGUIDFromArray (data : list byte) : res Efi.EFIGUID :=
  Efi.decodeEFIGUID (NewReader data).

Section SpecIdEvent.

Variable wrapSpecIdEventReadError : error -> error.

Definition parseEFI_1_2_SpecIdEvent (eventData : SpecIdEventData)
    : M SpecIdEventData :=
  let eventData := setSpec SpecEFI_1_2 eventData in
  uintnSize <- Efi.wrapErr wrapSpecIdEventReadError (binaryRead LittleEndian 1) ;;
  let eventData := setUintnSize uintnSize eventData in
  vendorInfoSize <-
    Efi.wrapErr wrapSpecIdEventReadError (binaryRead LittleEndian 1) ;;
  make 1 vendorInfoSize ;;;
  vendorInfo <- Efi.wrapErr wrapSpecIdEventReadError (ReadFull vendorInfoSize) ;;
  ret (setVendorInfo vendorInfo eventData).

End SpecIdEvent.

(** ** Startup-locality and reference-manifest events *)

Record StartupLocalityEventData : Type := mkStartupLocality {
  startupLocalityData : list byte;
  Locality : Z
}.

Definition StartupLocalityEventData_String (e : StartupLocalityEventData)
    : string :=
  ("EfiStartupLocalityEvent{ StartupLocality: "
   ++ fmtInteger 10 0 (Locality e) ++ " }")%string.

Definition StartupLocalityEventData_Bytes (e : StartupLocalityEventData)
    : list byte :=
  startupLocalityData e.

Definition decodeStartupLocalityEvent (data : list byte)
    : M StartupLocalityEventData :=
  locality <- binaryRead LittleEndian 1 ;;
  ret (mkStartupLocality data locality).

Record BIMReferenceManifestEventData : Type := mkBIMReferenceManifest {
  bimData : list byte;
  VendorId : Z;
  Guid : Efi.EFIGUID
}.

Definition BIMReferenceManifestEventData_String
    (e : BIMReferenceManifestEventData) : string :=
  ("Sp800_155_PlatformId_Event{ VendorId: " ++ fmtInteger 10 0 (VendorId e)
   ++ ", ReferenceManifestGuid: " ++ Efi.EFIGUID_String (Guid e) ++ " }")%string.

Definition BIMReferenceManifestEventData_Bytes
    (e : BIMReferenceManifestEventData) : list byte :=
  bimData e.

Definition decodeBIMReferenceManifestEvent (data : list byte)
    : M BIMReferenceManifestEventData :=
  vendorId <- binaryRead LittleEndian 4 ;;
  guid <- Efi.decodeEFIGUID ;;
  ret (mkBIMReferenceManifest data vendorId guid).

(** ** UEFI variable events *)

Record EFIVariableEventData : Type := mkEFIVariable {
  variableData_ : list byte;
  VariableName : Efi.EFIGUID;
  UnicodeName : string;
  VariableData : list byte
}.

Definition EFIVariableEventData_String (e : EFIVariableEventData) : string :=
  ("UEFI_VARIABLE_DATA{ VariableName: " ++ Efi.EFIGUID_String (VariableName e)
   ++ ", UnicodeName: " ++ quote ++ UnicodeName e ++ quote ++ " }")%string.

Definition EFIVariableEventData_Bytes (e : EFIVariableEventData) : list byte :=
  variableData_ e.

(** [decodeEventDataEFIVariableImpl]: the event, the number of bytes read
    and the error. *)
Definition decodeEventDataEFIVariableImpl (data : list byte)
    (eventType : EventType)
    : outcome (option EFIVariableEventData * Z * option error) :=
  let body : M EFIVariableEventData :=
    guid <- Efi.decodeEFIGUID ;;
    unicodeNameLength <- binaryRead LittleEndian 8 ;;
    variableDataLength <- binaryRead LittleEndian 8 ;;
    utf16Name <- extractUTF16Buffer unicodeNameLength ;;
    let unicodeName := runesToString (Decode utf16Name) in
    make 1 variableDataLength ;;;
    variableData <- ReadFull variableDataLength ;;
    ret (mkEFIVariable data guid unicodeName variableData)
  in
  match body (NewReader data) with
  | Ok d stream => Returns (Some d, bytesRead stream, None)
  | Err e _ => Returns (None, 0, Some e)
  | Panic msg => Panics msg
  end.

(** ** GPT events *)

Record EFIGPTPartitionEntry : Type := mkPartitionEntry {
  TypeGUID : Efi.EFIGUID;
  UniqueGUID : Efi.EFIGUID;
  Attrs : Z;
  Name : string
}.

Definition EFIGPTPartitionEntry_String (p : EFIGPTPartitionEntry) : string :=
  ("PartitionTypeGUID: " ++ Efi.EFIGUID_String (TypeGUID p)
   ++ ", UniquePartitionGUID: " ++ Efi.EFIGUID_String (UniqueGUID p)
   ++ ", Name: " ++ quote ++ Name p ++ quote)%string.

Record EFIGPTEventData : Type := mkGPT {
  gptData : list byte;
  DiskGUID : Efi.EFIGUID;
  Partitions : list EFIGPTPartitionEntry
}.

Definition EFIGPTEventData_Bytes (e : EFIGPTEventData) : list byte :=
  gptData e.

(** The size of an [EFIGPTPartitionEntry] in memory: two GUIDs of 16
    bytes, the attributes and the header of the string. *)
Definition sizeofPartitionEntry : Z := 56.

(** The body of the loop of [decodeEventDataEFIGPTImpl] from
    [entryStream := bytes.NewReader(entryData)] on.  [entryStream.Len()]
    is not negative, so that the division by 2 is [Z.div]. *)
Definition decodePartitionEntry : M EFIGPTPartitionEntry :=
  typeGUID <- Efi.decodeEFIGUID ;;
  uniqueGUID <- Efi.decodeEFIGUID ;;
  SeekCurrent 16 ;;;
  attrs <- binaryRead LittleEndian 8 ;;
  fun entryStream =>
    (make 2 (Len entryStream / 2) ;;;
     nameUtf16 <- binaryReadUint16s LittleEndian (Len entryStream / 2) ;;
     ret (mkPartitionEntry typeGUID uniqueGUID attrs
            (runesToString (Decode nameUtf16)))) entryStream.

(** The loop over the partitions, [n] entries left. *)
Fixpoint readPartitions (partEntrySize : Z) (n : nat)
    (partitions : list EFIGPTPartitionEntry) : M (list EFIGPTPartitionEntry) :=
  match n with
  | O => ret partitions
  | S n' =>
      make 1 partEntrySize ;;;
      entryData <- ReadFull partEntrySize ;;
      entry <- onStream (NewReader entryData) decodePartitionEntry ;;
      readPartitions partEntrySize n' (partitions ++ [entry])
  end.

(** [decodeEventDataEFIGPTImpl]: the event, the number of bytes read and
    the error.  The field [data] of the event is not set. *)
Definition decodeEventDataEFIGPTImpl (data : list byte)
    : outcome (option EFIGPTEventData * Z * option error) :=
  let body : M EFIGPTEventData :=
    SeekCurrent 56 ;;;
    diskGUID <- Efi.decodeEFIGUID ;;
    SeekCurrent 12 ;;;
    partEntrySize <- binaryRead LittleEndian 4 ;;
    SeekCurrent 4 ;;;
    numberOfParts <- binaryRead LittleEndian 8 ;;
    make sizeofPartitionEntry numberOfParts ;;;
    partitions <- readPartitions partEntrySize (Z.to_nat numberOfParts) [] ;;
    ret (mkGPT [] diskGUID partitions)
  in
  match body (NewReader data) with
  | Ok d stream => Returns (Some d, bytesRead stream, None)
  | Err e _ => Returns (None, 0, Some e)
  | Panic msg => Panics msg
  end.

End EfiEvents.

(* ------------------------------------------------------------------ *)
(** * Definitions for the statements (continued) *)

(** A Unicode scalar value: a code point that is not a surrogate. *)
Definition scalar (r : Z) : Prop :=
  0 <= r < surr1 \/ surr3 <= r < 0x110000.

(** The UTF-16 form of a scalar value, as [utf16.Encode] gives it. *)
Definition encodeUTF16 (r : Z) : list Z :=
  if r <? 0x10000 then [r]
  else [surr1 + (r - 0x10000) / 1024; surr2 + (r - 0x10000) mod 1024].

(** The stream form of a sequence of UTF-16 code units, little-endian. *)
Definition unitsLE (u : list Z) : list byte :=
  concat (map (encodeUint LittleEndian 2) u).

(** The stream form of a sequence of scalar values. *)
Definition utf16LE (rs : list Z) : list byte :=
  unitsLE (concat (map encodeUTF16 rs)).

(** The GUID that [decodeEFIGUID] reads from the 16 bytes [b]. *)
Definition guidOf (b : list byte) : Efi.EFIGUID :=
  Efi.mkEFIGUID (leUint (firstn 4 b)) (leUint (firstn 2 (skipn 4 b)))
    (leUint (firstn 2 (skipn 6 b))) (beUint (firstn 2 (skipn 8 b)))
    (firstn 6 (skipn 10 b)).

(** The [len] bytes of [data] from the offset [off] on. *)
Definition field (off len : nat) (data : list byte) : list byte :=
  firstn len (skipn off data).

(** The error is one of the two that a read at the end of the stream
    gives. *)
Definition endOfStream (e : error) : Prop :=
  e = EOF \/ e = ErrUnexpectedEOF.

(** An End-of-Hardware node, which ends a device path, with a length
    that fits the 16-bit length field. *)
Definition endNode (n : rawNode) : Prop :=
  byteZ (rawType n) = efiDevicePathNodeEoH
  /\ 4 + Z.of_nat (length (rawData n)) < 65536.

(** The table of [n] digest sizes that starts at the offset [off] of
    [data]: four bytes for each entry. *)
Fixpoint digestSizesAt (order : ByteOrder) (data : list byte) (off n : nat)
    : list EFISpecIdEventAlgorithmSize :=
  match n with
  | O => []
  | S n' =>
      mkAlgorithmSize (Uint order (field off 2 data))
        (Uint order (field (off + 2) 2 data))
      :: digestSizesAt order data (off + 4) n'
  end.

(** The vendor information whose size is the byte at the offset [off] of
    [data]. *)
Definition vendorInfoAt (order : ByteOrder) (data : list byte) (off : nat)
    : list byte :=
  field (off + 1) (Z.to_nat (Uint order (field off 1 data))) data.

(** A spec-id event with the fixed fields of [data]: the platform class
    at the offset 16, the version and the errata at 20, 21 and 22. *)
Definition specIdFields (order : ByteOrder) (data : list byte) (spec : Spec)
    (uintnSize : Z) (digestSizes : list EFISpecIdEventAlgorithmSize)
    (vendorInfo : list byte) : SpecIdEventData :=
  mkSpecIdEventData data spec (Uint order (field 16 4 data))
    (Uint order (field 20 1 data)) (Uint order (field 21 1 data))
    (Uint order (field 22 1 data)) uintnSize digestSizes vendorInfo.

(** The spec-id event that [data] describes, for each of the three
    signatures. *)
Definition specIdDescribed (order : ByteOrder) (data : list byte)
    (e : SpecIdEventData) : Prop :=
  (field 0 16 data = list_byte_of_string ("Spec ID Event00" ++ NUL)
   /\ e = specIdFields order data SpecPCClient 0 []
            (vendorInfoAt order data 24))
  \/ (field 0 16 data = list_byte_of_string ("Spec ID Event02" ++ NUL)
      /\ e = specIdFields order data SpecEFI_1_2 (Uint order (field 23 1 data))
               [] (vendorInfoAt order data 24))
  \/ (field 0 16 data = list_byte_of_string ("Spec ID Event03" ++ NUL)
      /\ e = specIdFields order data SpecEFI_2 (Uint order (field 23 1 data))
               (digestSizesAt order data 28
                  (Z.to_nat (Uint order (field 24 4 data))))
               (vendorInfoAt order data
                  (28 + 4 * Z.to_nat (Uint order (field 24 4 data))))).

(** The partition entry that the bytes [entryData] of an entry of the
    partition table describe: two GUIDs, sixteen bytes that are skipped,
    the attributes, and the name in UTF-16 up to the last whole code
    unit. *)
Definition partitionEntryOf (entryData : list byte)
    : EfiEvents.EFIGPTPartitionEntry :=
  EfiEvents.mkPartitionEntry (guidOf (field 0 16 entryData))
    (guidOf (field 16 16 entryData)) (leUint (field 48 8 entryData))
    (runesToString
       (Decode
          (uint16s LittleEndian
             (field 56
                (Z.to_nat (2 * ((Z.of_nat (length entryData) - 56) / 2)))
                entryData)))).

(** The [n] partition entries of [size] bytes each from the offset [off]
    of [data] on. *)
Fixpoint partitionsAt (data : list byte) (off size n : nat)
    : list EfiEvents.EFIGPTPartitionEntry :=
  match n with
  | O => []
  | S n' =>
      partitionEntryOf (field off size data)
      :: partitionsAt data (off + size) size n'
  end.

(* ------------------------------------------------------------------ *)
(** * efi.go: the renderings of device paths *)

Module EfiPaths.

Definition efiDevicePathNodeHardware : Z := 0x01.
Definition efiDevicePathNodeACPI : Z := 0x02.
Definition efiDevicePathNodeMsg : Z := 0x03.
Definition efiDevicePathNodeMedia : Z := 0x04.
Definition efiDevicePathNodeBBS : Z := 0x05.

Definition efiHardwareDevicePathNodePCI : Z := 0x01.
Definition efiACPIDevicePathNodeNormal : Z := 0x01.
Definition efiMsgDevicePathNodeLU : Z := 0x11.
Definition efiMsgDevicePathNodeSATA : Z := 0x12.
Definition efiMediaDevicePathNodeHardDrive : Z := 0x01.
Definition efiMediaDevicePathNodeFilePath : Z := 0x04.
Definition efiMediaDevicePathNodeFvFile : Z := 0x06.
Definition efiMediaDevicePathNodeFv : Z := 0x07.
Definition efiMediaDevicePathNodeRelOffsetRange : Z := 0x08.

(** [(t efiDevicePathNodeType) String]. *)
Definition efiDevicePathNodeType_String (t : Z) : string :=
  if t =? efiDevicePathNodeHardware then "HardwarePath"
  else if t =? efiDevicePathNodeACPI then "AcpiPath"
  else if t =? efiDevicePathNodeMsg then "Msg"
  else if t =? efiDevicePathNodeMedia then "MediaPath"
  else if t =? efiDevicePathNodeBBS then "BbsPath"
  else ("Path[" ++ fmtInteger 16 2 t ++ "]")%string.

(** A rendering that reads the data of a node from a stream of its own
    and gives the empty string when a read fails.  None of these
    renderings allocates from a length of the data. *)
Definition orEmpty (m : M string) (data : list byte) : string :=
  match m (NewReader data) with
  | Ok str _ => str
  | Err _ _ => ""
  | Panic _ => ""
  end.

Definition firmwareDevicePathNodeToString (n : efiDevicePathNode) : string :=
  orEmpty
    (name <- Efi.decodeEFIGUID ;;
     if subType n =? efiMediaDevicePathNodeFvFile then
       ret ("FvFile" ++ "(" ++ Efi.EFIGUID_String name ++ ")")%string
     else if subType n =? efiMediaDevicePathNodeFv then
       ret ("Fv" ++ "(" ++ Efi.EFIGUID_String name ++ ")")%string
     else ret ""%string)
    (data n).

Definition acpiDevicePathNodeToString (n : efiDevicePathNode) : string :=
  if negb (subType n =? efiACPIDevicePathNodeNormal) then ""
  else
    orEmpty
      (hid <- binaryRead LittleEndian 4 ;;
       uid <- binaryRead LittleEndian 4 ;;
       if Z.land hid 0xffff =? 0x41d0 then
         if Z.shiftr hid 16 =? 0x0a03 then
           ret ("PciRoot(0x" ++ fmtInteger 16 0 uid ++ ")")%string
         else if Z.shiftr hid 16 =? 0x0a08 then
           ret ("PcieRoot(0x" ++ fmtInteger 16 0 uid ++ ")")%string
         else if Z.shiftr hid 16 =? 0x0604 then
           ret ("Floppy(0x" ++ fmtInteger 16 0 uid ++ ")")%string
         else
           ret ("Acpi(PNP" ++ fmtInteger 16 4 (Z.shiftr hid 16) ++ ",0x"
                ++ fmtInteger 16 0 uid ++ ")")%string
       else
         ret ("Acpi(0x" ++ fmtInteger 16 8 hid ++ ",0x" ++ fmtInteger 16 0 uid
              ++ ")")%string)
      (data n).

Definition pciDevicePathNodeToString (n : efiDevicePathNode) : string :=
  orEmpty
    (function <- binaryRead LittleEndian 1 ;;
     device <- binaryRead LittleEndian 1 ;;
     ret ("Pci(0x" ++ fmtInteger 16 0 device ++ ",0x" ++ fmtInteger 16 0 function
          ++ ")")%string)
    (data n).

Definition luDevicePathNodeToString (n : efiDevicePathNode) : string :=
  orEmpty
    (lun <- binaryRead LittleEndian 1 ;;
     ret ("Unit(0x" ++ fmtInteger 16 0 lun ++ ")")%string)
    (data n).

Definition hardDriveDevicePathNodeToString (n : efiDevicePathNode) : string :=
  orEmpty
    (partNumber <- binaryRead LittleEndian 4 ;;
     partStart <- binaryRead LittleEndian 8 ;;
     partSize <- binaryRead LittleEndian 8 ;;
     sig <- ReadFull 16 ;;
     partFormat <- binaryRead LittleEndian 1 ;;
     sigType <- binaryRead LittleEndian 1 ;;
     let tail :=
       ("0x" ++ fmtInteger 16 16 partStart ++ ", 0x" ++ fmtInteger 16 16 partSize
        ++ ")")%string in
     if sigType =? 0x01 then
       ret ("HD(" ++ fmtInteger 10 0 partNumber ++ ",MBR,0x"
            ++ fmtInteger 16 8 (leUint (firstn 4 sig)) ++ "," ++ tail)%string
     else if sigType =? 0x02 then
       fun stream =>
         match EfiEvents.decodeEFIGUIDFromArray sig with
         | Ok guid _ =>
             Ok ("HD(" ++ fmtInteger 10 0 partNumber ++ ",GPT,"
                 ++ Efi.EFIGUID_String guid ++ "," ++ tail)%string stream
         | Err e _ => Err e stream
         | Panic msg => Panic msg
         end
     else
       ret ("HD(" ++ fmtInteger 10 0 partNumber ++ ","
            ++ fmtInteger 10 0 sigType ++ ",0," ++ tail)%string)
    (data n).

Definition sataDevicePathNodeToString (n : efiDevicePathNode) : string :=
  orEmpty
    (hbaPortNumber <- binaryRead LittleEndian 2 ;;
     portMultiplierPortNumber <- binaryRead LittleEndian 2 ;;
     lun <- binaryRead LittleEndian 2 ;;
     ret ("Sata(0x" ++ fmtInteger 16 0 hbaPortNumber ++ ",0x"
          ++ fmtInteger 16 0 portMultiplierPortNumber ++ ",0x"
          ++ fmtInteger 16 0 lun ++ ")")%string)
    (data n).

(** The slice [u16] has [len(n.data)/2] values; the result of
    [binary.Read] is not looked at, and a slice that was not read stays
    all zero. *)
Definition filePathDevicePathNodeToString (n : efiDevicePathNode) : string :=
  let count := Z.of_nat (length (data n)) / 2 in
  let u16 :=
    match binaryReadUint16s LittleEndian count (NewReader (data n)) with
    | Ok u _ => u
    | _ => repeat 0 (Z.to_nat count)
    end in
  runesToString (Decode u16).

Definition relOffsetRangePathNodeToString (n : efiDevicePathNode) : string :=
  orEmpty
    (SeekCurrent 4 ;;;
     start <- binaryRead LittleEndian 8 ;;
     end_ <- binaryRead LittleEndian 8 ;;
     ret ("Offset(0x" ++ fmtInteger 16 0 start ++ ",0x" ++ fmtInteger 16 0 end_
          ++ ")")%string)
    (data n).

(** [(n *efiDevicePathNode) toString]. *)
Definition toString (n : efiDevicePathNode) : string :=
  if (t n =? efiDevicePathNodeMedia)
     && ((subType n =? efiMediaDevicePathNodeFvFile)
         || (subType n =? efiMediaDevicePathNodeFv)) then
    firmwareDevicePathNodeToString n
  else if (t n =? efiDevicePathNodeMedia)
          && (subType n =? efiMediaDevicePathNodeHardDrive) then
    hardDriveDevicePathNodeToString n
  else if (t n =? efiDevicePathNodeMedia)
          && (subType n =? efiMediaDevicePathNodeFilePath) then
    filePathDevicePathNodeToString n
  else if t n =? efiDevicePathNodeACPI then acpiDevicePathNodeToString n
  else if (t n =? efiDevicePathNodeHardware)
          && (subType n =? efiHardwareDevicePathNodePCI) then
    pciDevicePathNodeToString n
  else if (t n =? efiDevicePathNodeMsg) && (subType n =? efiMsgDevicePathNodeLU)
  then luDevicePathNodeToString n
  else if (t n =? efiDevicePathNodeMsg)
          && (subType n =? efiMsgDevicePathNodeSATA) then
    sataDevicePathNodeToString n
  else if (t n =? efiDevicePathNodeMedia)
          && (subType n =? efiMediaDevicePathNodeRelOffsetRange) then
    relOffsetRangePathNodeToString n
  else "".

(** The bytes of the data under [%02x], one after the other. *)
Fixpoint hexData (b : list byte) : string :=
  match b with
  | [] => ""
  | c :: rest => (fmtInteger 16 2 (byteZ c) ++ hexData rest)%string
  end.

(** The rendering of a node of any type: type, sub-type and the data in
    hexadecimal. *)
Definition genericString (n : efiDevicePathNode) : string :=
  let hasData := 0 <? Z.of_nat (length (data n)) in
  (efiDevicePathNodeType_String (t n) ++ "(" ++ fmtInteger 10 0 (subType n)
   ++ (if hasData then ", 0x" ++ hexData (data n) else "") ++ ")")%string.

(** [(n *efiDevicePathNode) String]. *)
Definition efiDevicePathNode_String (n : efiDevicePathNode) : string :=
  if negb (String.eqb (toString n) "") then toString n else genericString n.

(** The loop of [(p *EFIDevicePath) String]: every node but the root is
    written after a ["/"]. *)
Fixpoint writeNodes (isRoot : bool) (nodes : list efiDevicePathNode)
    (builder : string) : string :=
  match nodes with
  | [] => builder
  | node :: rest =>
      let builder := if isRoot then builder else (builder ++ "/")%string in
      writeNodes false rest (builder ++ efiDevicePathNode_String node)%string
  end.

(** [(p *EFIDevicePath) String]. *)
Definition EFIDevicePath_String (p : EFIDevicePath) : string :=
  writeNodes true p "".

End EfiPaths.


(* ================================================================== *)
(** * Properties *)

(** ** Bytes and integers *)

Lemma byteZ_range (b : byte) : 0 <= byteZ b < 256.
Proof.
  unfold byteZ. pose proof (Byte.to_N_bounded b). lia.
Qed.

(** Below a shifted value, [lor] adds. *)
Lemma lor_shiftl_8 (a x : Z) :
  0 <= a < 256 -> 0 <= x -> Z.lor a (Z.shiftl x 8) = a + 256 * x.
Proof.
  intros Ha Hx.
  assert (Hland : Z.land a (Z.shiftl x 8) = 0).
  { apply Z.bits_inj'. intros n Hn.
    rewrite Z.land_spec, Z.bits_0.
    destruct (Z.ltb_spec n 8).
    - rewrite Z.shiftl_spec_low by lia. apply andb_false_r.
    - replace (Z.testbit a n) with false; [reflexivity|].
      symmetry. destruct (Z.eq_dec a 0) as [->|]; [apply Z.bits_0|].
      apply Z.bits_above_log2; [lia|].
      apply Z.log2_lt_pow2; [lia|].
      apply Z.lt_le_trans with (2 ^ 8); [lia | apply Z.pow_le_mono_r; lia]. }
  rewrite <- Z.lxor_lor, <- Z.add_nocarry_lxor by exact Hland.
  rewrite Z.shiftl_mul_pow2 by lia. lia.
Qed.

Lemma leUint_cons (b : byte) (bs : list byte) :
  0 <= leUint bs -> leUint (b :: bs) = byteZ b + 256 * leUint bs.
Proof.
  intros H. cbn [leUint]. apply lor_shiftl_8; [apply byteZ_range | exact H].
Qed.

Lemma leUint_nonneg (bs : list byte) : 0 <= leUint bs.
Proof.
  induction bs as [|b bs IH]; [reflexivity|].
  rewrite leUint_cons by exact IH. pose proof (byteZ_range b). lia.
Qed.

(** ** The stream *)

(** A read of [n > 0] bytes that are there gives them and moves the
    cursor by [n]. *)
Lemma ReadFull_ok (n : Z) (r : Reader) (bs : list byte) :
  0 < n -> 0 <= i r ->
  firstn (Z.to_nat n) (skipn (Z.to_nat (i r)) (s r)) = bs ->
  Z.of_nat (length bs) = n ->
  ReadFull n r = Ok bs (mkReader (s r) (i r + n)).
Proof.
  intros Hn Hi Hbs Hlen. unfold ReadFull.
  assert (Hsz : i r + n <= Size r).
  { subst bs. rewrite length_firstn, length_skipn in Hlen. unfold Size. lia. }
  destruct (Z.leb_spec n 0); [lia|].
  unfold Len. destruct (Z.geb_spec (i r) (Size r)); [lia|].
  destruct (Z.eqb_spec (Size r - i r) 0); [lia|].
  destruct (Z.ltb_spec (Size r - i r) n); [lia|].
  now rewrite Hbs.
Qed.



Lemma At_NewReader (data : list byte) : At (NewReader data) data.
Proof. split; [cbn; lia | reflexivity]. Qed.

Lemma At_advance (r : Reader) (bs post : list byte) :
  At r (bs ++ post) -> At (advance r (Z.of_nat (length bs))) post.
Proof.
  intros [Hi Hs]. split; cbn [advance i s]; [lia|].
  replace (Z.to_nat (i r + Z.of_nat (length bs)))
    with (length bs + Z.to_nat (i r))%nat by lia.
  rewrite <- skipn_skipn, Hs, skipn_app, Nat.sub_diag, skipn_all. reflexivity.
Qed.

Lemma ReadFull_At (r : Reader) (bs post : list byte) :
  At r (bs ++ post) -> bs <> [] ->
  ReadFull (Z.of_nat (length bs)) r = Ok bs (advance r (Z.of_nat (length bs))).
Proof.
  intros [Hi Hs] Hne. apply ReadFull_ok; try lia.
  - destruct bs; [congruence | cbn [length]; lia].
  - rewrite Hs, Nat2Z.id, firstn_app, Nat.sub_diag, firstn_all. cbn [firstn].
    apply app_nil_r.
Qed.

Lemma ReadFull_At_nil (r : Reader) (n : Z) :
  At r [] -> 0 < n -> ReadFull n r = Err EOF r.
Proof.
  intros [Hi Hs] Hn. unfold ReadFull.
  destruct (Z.leb_spec n 0); [lia|].
  assert (Hlen : Len r = 0).
  { apply (f_equal (@length byte)) in Hs. rewrite length_skipn in Hs.
    cbn [length] in Hs. unfold Len, Size.
    destruct (Z.geb_spec (i r) (Z.of_nat (length (s r)))); lia. }
  now rewrite Hlen.
Qed.

Lemma binaryRead_At_nil (order : ByteOrder) (r : Reader) (n : Z) :
  At r [] -> 0 < n -> binaryRead order n r = Err EOF r.
Proof.
  intros HAt Hn. unfold binaryRead, bind. now rewrite (ReadFull_At_nil _ _ HAt Hn).
Qed.

(** Reading [n] bytes that are there: the value, and what is left. *)
Lemma ReadFull_step (n : Z) (r : Reader) (bs post : list byte) :
  At r (bs ++ post) -> bs <> [] -> n = Z.of_nat (length bs) ->
  ReadFull n r = Ok bs (advance r n) /\ At (advance r n) post.
Proof.
  intros HAt Hne ->. split; [now apply ReadFull_At with post | now apply At_advance].
Qed.

Lemma binaryRead_step (order : ByteOrder) (n : Z) (r : Reader)
    (bs post : list byte) :
  At r (bs ++ post) -> bs <> [] -> n = Z.of_nat (length bs) ->
  binaryRead order n r = Ok (Uint order bs) (advance r n)
  /\ At (advance r n) post.
Proof.
  intros HAt Hne Hn. destruct (ReadFull_step n r bs post HAt Hne Hn) as [HR HA].
  split; [|exact HA]. unfold binaryRead, bind. now rewrite HR.
Qed.

Lemma ReadFull_any (r : Reader) (bs post : list byte) :
  At r (bs ++ post) ->
  exists r', ReadFull (Z.of_nat (length bs)) r = Ok bs r' /\ At r' post.
Proof.
  intros HAt. destruct bs as [|b bs].
  - exists r. split; [reflexivity | exact HAt].
  - destruct (ReadFull_step (Z.of_nat (length (b :: bs))) r (b :: bs) post HAt)
      as [HR HA]; [discriminate | reflexivity |].
    eexists. split; [exact HR | exact HA].
Qed.

Lemma make_ok (elemSize n : Z) (r : Reader) :
  0 <= n -> elemSize * n <= maxAlloc -> n < 2 ^ 63 -> make elemSize n r = Ok tt r.
Proof.
  intros H0 Hmax H63. unfold make.
  replace ((n >=? 2 ^ 63) || (elemSize * n >? maxAlloc)) with false; [reflexivity|].
  symmetry. apply orb_false_iff. rewrite Z.geb_leb, Z.gtb_ltb.
  split; [apply Z.leb_gt | apply Z.ltb_ge]; lia.
Qed.

Lemma nonempty_of_length (A : Type) (l : list A) (k : nat) :
  length l = S k -> l <> [].
Proof. now destruct l. Qed.

Lemma Uint_single (order : ByteOrder) (b : byte) : Uint order [b] = byteZ b.
Proof.
  destruct order; cbn [Uint leUint beUint fold_left].
  - rewrite Z.shiftl_0_l. apply Z.lor_0_r.
  - rewrite Z.shiftl_0_l. apply Z.lor_0_l.
Qed.

(** ** Encoding of integers *)

Lemma byteZ_byteOfZ (z : Z) : byteZ (byteOfZ z) = z mod 256.
Proof.
  unfold byteOfZ, byteZ.
  pose proof (Z.mod_pos_bound z 256 eq_refl) as Hm.
  destruct (Byte.of_N (Z.to_N (z mod 256))) as [b|] eqn:E.
  - apply Byte.to_of_N in E. rewrite E. lia.
  - apply Byte.of_N_None_iff in E. lia.
Qed.

Lemma length_encodeLE (k : nat) (v : Z) : length (encodeLE k v) = k.
Proof.
  revert v. induction k as [|k IH]; intros v; [reflexivity|].
  cbn. now rewrite IH.
Qed.

Lemma length_encodeUint (order : ByteOrder) (k : nat) (v : Z) :
  length (encodeUint order k v) = k.
Proof.
  destruct order; cbn [encodeUint]; [|rewrite length_rev]; apply length_encodeLE.
Qed.

Lemma leUint_encodeLE (k : nat) (v : Z) :
  0 <= v < 256 ^ Z.of_nat k -> leUint (encodeLE k v) = v.
Proof.
  revert v. induction k as [|k IH]; intros v Hv.
  - cbn in *. lia.
  - cbn [encodeLE]. rewrite leUint_cons by apply leUint_nonneg.
    rewrite byteZ_byteOfZ, IH.
    + pose proof (Z.div_mod v 256). lia.
    + rewrite Nat2Z.inj_succ, Z.pow_succ_r in Hv by lia.
      split; [apply Z.div_pos; lia | apply Z.div_lt_upper_bound; lia].
Qed.

Lemma beUint_rev (bs : list byte) : beUint (rev bs) = leUint bs.
Proof.
  unfold beUint. induction bs as [|b bs IH]; [reflexivity|].
  cbn [rev leUint]. rewrite fold_left_app. cbn [fold_left].
  rewrite IH. apply Z.lor_comm.
Qed.

Lemma Uint_encodeUint (order : ByteOrder) (k : nat) (v : Z) :
  0 <= v < 256 ^ Z.of_nat k -> Uint order (encodeUint order k v) = v.
Proof.
  intros Hv. destruct order; cbn [Uint encodeUint].
  - now apply leUint_encodeLE.
  - rewrite beUint_rev. now apply leUint_encodeLE.
Qed.

(** ** Device-path nodes *)

(** The node reader of eventdata.go on the stream form of a node. *)
Lemma EventData_readDevicePathNode_encoded (order : ByteOrder) (r : Reader)
    (n : rawNode) (post : list byte) :
  At r (encodeNode order n ++ post) ->
  4 + Z.of_nat (length (rawData n)) < 65536 ->
  exists r',
    EventData.readDevicePathNode order r = Returns (Some (decodedNode n), r')
    /\ At r' post.
Proof.
  intros HAt Hlen. unfold encodeNode in HAt.
  rewrite <- !app_assoc in HAt. cbn [app] in HAt.
  destruct (binaryRead_step order 1 r [rawType n] _ HAt) as [R1 A1];
    [discriminate | reflexivity |].
  destruct (binaryRead_step order 1 _ [rawSubType n] _ A1) as [R2 A2];
    [discriminate | reflexivity |].
  destruct (binaryRead_step order 2 _ (encodeUint order 2 _) _ A2) as [R3 A3];
    [apply nonempty_of_length with 1%nat; apply length_encodeUint
    | now rewrite length_encodeUint |].
  unfold EventData.readDevicePathNode, bindNil.
  rewrite R1, R2, R3, !Uint_single.
  rewrite Uint_encodeUint by (change (256 ^ Z.of_nat 2) with 65536; lia).
  replace (uint16 (4 + Z.of_nat (length (rawData n)) - 4))
    with (Z.of_nat (length (rawData n)))
    by (unfold uint16, uintN; rewrite Z.mod_small; lia).
  destruct (rawData n) as [|d ds] eqn:Edata.
  - cbn [length Z.of_nat Z.gtb Z.compare]. unfold retG, decodedNode.
    rewrite Edata. eexists. split; [reflexivity | exact A3].
  - set (data := d :: ds) in *.
    destruct (ReadFull_step (Z.of_nat (length data)) _ data post A3) as [R4 A4];
      [discriminate | reflexivity |].
    replace (Z.of_nat (length data) >? 0) with true
      by (symmetry; apply Z.gtb_lt; cbn [length data]; lia).
    unfold make.
    replace ((Z.of_nat (length data) >=? 2 ^ 63)
             || (1 * Z.of_nat (length data) >? maxAlloc)) with false.
    + rewrite R4. unfold retG, decodedNode. rewrite Edata.
      eexists. split; [reflexivity | exact A4].
    + symmetry. apply orb_false_iff. rewrite Z.geb_leb, Z.gtb_ltb.
      unfold maxAlloc. split; [apply Z.leb_gt | apply Z.ltb_ge]; lia.
Qed.

(** The node reader of efi.go on the little-endian stream form of a node. *)
Lemma Efi_readDevicePathNode_encoded (r : Reader) (n : rawNode)
    (post : list byte) :
  At r (encodeNode LittleEndian n ++ post) ->
  4 + Z.of_nat (length (rawData n)) < 65536 ->
  exists r',
    Efi.readDevicePathNode r = Returns (Some (decodedNode n), r') /\ At r' post.
Proof.
  intros HAt Hlen. unfold encodeNode in HAt.
  rewrite <- !app_assoc in HAt. cbn [app] in HAt.
  destruct (binaryRead_step LittleEndian 1 r [rawType n] _ HAt) as [R1 A1];
    [discriminate | reflexivity |].
  destruct (binaryRead_step LittleEndian 1 _ [rawSubType n] _ A1) as [R2 A2];
    [discriminate | reflexivity |].
  destruct (binaryRead_step LittleEndian 2 _ (encodeUint LittleEndian 2 _) _ A2)
    as [R3 A3];
    [apply nonempty_of_length with 1%nat; apply length_encodeUint
    | now rewrite length_encodeUint |].
  unfold Efi.readDevicePathNode, bindNil.
  rewrite R1, R2, R3, !Uint_single.
  rewrite Uint_encodeUint by (change (256 ^ Z.of_nat 2) with 65536; lia).
  destruct (Z.ltb_spec (4 + Z.of_nat (length (rawData n))) 4); [lia|].
  replace (4 + Z.of_nat (length (rawData n)) - 4)
    with (Z.of_nat (length (rawData n))) by lia.
  unfold make.
  replace ((Z.of_nat (length (rawData n)) >=? 2 ^ 63)
           || (1 * Z.of_nat (length (rawData n)) >? maxAlloc)) with false.
  2:{ symmetry. apply orb_false_iff. rewrite Z.geb_leb, Z.gtb_ltb.
      unfold maxAlloc. split; [apply Z.leb_gt | apply Z.ltb_ge]; lia. }
  destruct (rawData n) as [|d ds] eqn:Edata.
  - cbn [length Z.of_nat]. change (ReadFull 0) with (fun r0 : Reader => Ok (@nil byte) r0).
    unfold retG, decodedNode. rewrite Edata.
    eexists. split; [reflexivity | exact A3].
  - set (data := d :: ds) in *.
    destruct (ReadFull_step (Z.of_nat (length data)) _ data post A3) as [R4 A4];
      [discriminate | reflexivity |].
    rewrite R4. unfold retG, decodedNode. rewrite Edata.
    eexists. split; [reflexivity | exact A4].
Qed.

(** A length field below 4.  The reader of eventdata.go subtracts 4 in
    16 bits and reads that many bytes of data; the reader of efi.go
    returns [nil]. *)
Lemma EventData_readDevicePathNode_wraps (order : ByteOrder) (r : Reader)
    (ty st : byte) (len : Z) (rest post : list byte) :
  0 <= len < 4 ->
  Z.of_nat (length rest) = len + 65532 ->
  At r ([ty; st] ++ encodeUint order 2 len ++ rest ++ post) ->
  exists r',
    EventData.readDevicePathNode order r
    = Returns (Some (mkNode (byteZ ty) (byteZ st) rest), r')
    /\ At r' post.
Proof.
  intros Hlen Hrest HAt. cbn [app] in HAt.
  destruct (binaryRead_step order 1 r [ty] _ HAt) as [R1 A1];
    [discriminate | reflexivity |].
  destruct (binaryRead_step order 1 _ [st] _ A1) as [R2 A2];
    [discriminate | reflexivity |].
  destruct (binaryRead_step order 2 _ (encodeUint order 2 len) _ A2) as [R3 A3];
    [apply nonempty_of_length with 1%nat; apply length_encodeUint
    | now rewrite length_encodeUint |].
  assert (Hne : rest <> []) by (intros ->; cbn in Hrest; lia).
  destruct (ReadFull_step (len + 65532) _ rest post A3 Hne) as [R4 A4];
    [now rewrite Hrest|].
  unfold EventData.readDevicePathNode, bindNil.
  rewrite R1, R2, R3, !Uint_single.
  rewrite Uint_encodeUint by (change (256 ^ Z.of_nat 2) with 65536; lia).
  replace (uint16 (len - 4)) with (len + 65532).
  2:{ unfold uint16, uintN. change (2 ^ 16) with 65536.
      rewrite <- (Z.mod_add (len - 4) 1 65536) by lia.
      rewrite Z.mod_small; lia. }
  replace (len + 65532 >? 0) with true by (symmetry; apply Z.gtb_lt; lia).
  rewrite make_ok by (unfold maxAlloc; lia).
  rewrite R4. eexists. split; [reflexivity | exact A4].
Qed.

Lemma Efi_readDevicePathNode_rejects (r : Reader) (ty st : byte) (len : Z)
    (post : list byte) :
  0 <= len < 4 ->
  At r ([ty; st] ++ encodeUint LittleEndian 2 len ++ post) ->
  exists r', Efi.readDevicePathNode r = Returns (None, r').
Proof.
  intros Hlen HAt. cbn [app] in HAt.
  destruct (binaryRead_step LittleEndian 1 r [ty] _ HAt) as [R1 A1];
    [discriminate | reflexivity |].
  destruct (binaryRead_step LittleEndian 1 _ [st] _ A1) as [R2 A2];
    [discriminate | reflexivity |].
  destruct (binaryRead_step LittleEndian 2 _ (encodeUint LittleEndian 2 len) _ A2)
    as [R3 A3];
    [apply nonempty_of_length with 1%nat; apply length_encodeUint
    | now rewrite length_encodeUint |].
  unfold Efi.readDevicePathNode, bindNil.
  rewrite R1, R2, R3.
  rewrite Uint_encodeUint by (change (256 ^ Z.of_nat 2) with 65536; lia).
  destruct (Z.ltb_spec len 4); [|lia]. eexists. reflexivity.
Qed.

(** At the end of the stream both node readers return [nil]. *)
Lemma EventData_readDevicePathNode_end (order : ByteOrder) (r : Reader) :
  At r [] -> EventData.readDevicePathNode order r = Returns (None, r).
Proof.
  intros HAt. unfold EventData.readDevicePathNode, bindNil.
  now rewrite (binaryRead_At_nil order r 1 HAt).
Qed.

Lemma Efi_readDevicePathNode_end (r : Reader) :
  At r [] -> Efi.readDevicePathNode r = Returns (None, r).
Proof.
  intros HAt. unfold Efi.readDevicePathNode, bindNil.
  now rewrite (binaryRead_At_nil LittleEndian r 1 HAt).
Qed.

(** One round of each device-path loop. *)
Lemma EventData_readDevicePathLoop_unfold (order : ByteOrder) (stream : Reader)
    (rootNode : list efiDevicePathNode) :
  EventData.readDevicePathLoop order stream rootNode =
  match EventData.readDevicePathNode order stream with
  | Returns (Some node, stream') =>
      if t node =? efiDevicePathNodeEoH then Returns (Some rootNode)
      else EventData.readDevicePathLoop order stream' (rootNode ++ [node])
  | Returns (None, _) => Returns None
  | Panics msg => Panics msg
  end.
Proof.
  rewrite EventData.readDevicePathLoop_equation_1.
  destruct (Logic.inspect (EventData.readDevicePathNode order stream)) as [y e].
  destruct y as [[[n|] r]|m]; cbn; rewrite e; reflexivity.
Qed.

Lemma Efi_readDevicePathLoop_unfold (stream : Reader)
    (root : list efiDevicePathNode) :
  Efi.readDevicePathLoop stream root =
  match Efi.readDevicePathNode stream with
  | Returns (Some node, stream') =>
      if t node =? efiDevicePathNodeEoH then Returns root
      else Efi.readDevicePathLoop stream' (root ++ [node])
  | Returns (None, _) => Returns []
  | Panics msg => Panics msg
  end.
Proof.
  rewrite Efi.readDevicePathLoop_equation_1.
  destruct (Logic.inspect (Efi.readDevicePathNode stream)) as [y e].
  destruct y as [[[n|] r]|m]; cbn; rewrite e; reflexivity.
Qed.

(** A chain of nodes without the End-of-Hardware node, and nothing
    after it: the loop of eventdata.go returns [nil], that of efi.go the
    empty path. *)
Lemma EventData_readDevicePathLoop_unterminated (order : ByteOrder)
    (nodes : list rawNode) :
  Forall pathNode nodes ->
  forall (stream : Reader) (rootNode : list efiDevicePathNode),
    At stream (concat (map (encodeNode order) nodes)) ->
    EventData.readDevicePathLoop order stream rootNode = Returns None.
Proof.
  induction 1 as [|n nodes [Ht Hlen] _ IH]; intros stream rootNode HAt;
    rewrite EventData_readDevicePathLoop_unfold.
  - now rewrite (EventData_readDevicePathNode_end order stream HAt).
  - cbn [map concat] in HAt.
    destruct (EventData_readDevicePathNode_encoded order stream n _ HAt Hlen)
      as [r' [-> HAt']].
    cbn [decodedNode t]. destruct (Z.eqb_spec (byteZ (rawType n)) efiDevicePathNodeEoH);
      [contradiction|].
    now apply IH.
Qed.

Lemma Efi_readDevicePathLoop_unterminated (nodes : list rawNode) :
  Forall pathNode nodes ->
  forall (stream : Reader) (root : list efiDevicePathNode),
    At stream (concat (map (encodeNode LittleEndian) nodes)) ->
    Efi.readDevicePathLoop stream root = Returns [].
Proof.
  induction 1 as [|n nodes [Ht Hlen] _ IH]; intros stream root HAt;
    rewrite Efi_readDevicePathLoop_unfold.
  - now rewrite (Efi_readDevicePathNode_end stream HAt).
  - cbn [map concat] in HAt.
    destruct (Efi_readDevicePathNode_encoded stream n _ HAt Hlen)
      as [r' [-> HAt']].
    cbn [decodedNode t]. destruct (Z.eqb_spec (byteZ (rawType n)) efiDevicePathNodeEoH);
      [contradiction|].
    now apply IH.
Qed.

(** ** Image-load events *)

(** The four fixed fields of an image-load event and its device path, as
    both decoders read them. *)
Lemma read_image_load_fields (order : ByteOrder) (loc len link : Z)
    (path trailing : list byte) :
  Z.of_nat (length path) <= maxAlloc ->
  let data := encodeImageLoad order loc len link path ++ trailing in
  exists r1 r2 r3 r4 r5,
    binaryRead order 8 (NewReader data)
    = Ok (Uint order (encodeUint order 8 loc)) r1
    /\ binaryRead order 8 r1 = Ok (Uint order (encodeUint order 8 len)) r2
    /\ binaryRead order 8 r2 = Ok (Uint order (encodeUint order 8 link)) r3
    /\ binaryRead order 8 r3 = Ok (Z.of_nat (length path)) r4
    /\ make 1 (Z.of_nat (length path)) r4 = Ok tt r4
    /\ ReadFull (Z.of_nat (length path)) r4 = Ok path r5.
Proof.
  intros Hmax data.
  assert (H8 : forall v, encodeUint order 8 v <> [])
    by (intros v; apply nonempty_of_length with 7%nat; apply length_encodeUint).
  assert (L8 : forall v, 8 = Z.of_nat (length (encodeUint order 8 v)))
    by (intros v; now rewrite length_encodeUint).
  pose proof (At_NewReader data) as A0. subst data. unfold encodeImageLoad in A0.
  rewrite <- !app_assoc in A0.
  destruct (binaryRead_step order 8 _ _ _ A0 (H8 _) (L8 _)) as [R1 A1].
  destruct (binaryRead_step order 8 _ _ _ A1 (H8 _) (L8 _)) as [R2 A2].
  destruct (binaryRead_step order 8 _ _ _ A2 (H8 _) (L8 _)) as [R3 A3].
  destruct (binaryRead_step order 8 _ _ _ A3 (H8 _) (L8 _)) as [R4 A4].
  rewrite Uint_encodeUint in R4
    by (change (256 ^ Z.of_nat 8) with (2 ^ 64); unfold maxAlloc in Hmax; lia).
  destruct (ReadFull_any _ _ _ A4) as [r5 [R5 _]].
  do 5 eexists. unfold encodeImageLoad. rewrite <- !app_assoc.
  repeat split; try eassumption.
  apply make_ok; unfold maxAlloc in *; lia.
Qed.

(** ** The spec-id parser of efi.go *)

Section EfiSpecId.

Variable knownAlgorithms : AlgorithmId -> option Z.
Variable wrapSpecIdEventReadError : error -> error.
Variable fmtAlgorithmId : AlgorithmId -> string.

Let wrapErr {T : Type} := @Efi.wrapErr wrapSpecIdEventReadError T.
Let readDigestSizes :=
  Efi.readDigestSizes knownAlgorithms wrapSpecIdEventReadError fmtAlgorithmId.
Let parseEFI_2_SpecIdEvent :=
  Efi.parseEFI_2_SpecIdEvent knownAlgorithms wrapSpecIdEventReadError
    fmtAlgorithmId.

Lemma wrapErr_binaryRead_step (n : Z) (r : Reader) (bs post : list byte) :
  At r (bs ++ post) -> bs <> [] -> n = Z.of_nat (length bs) ->
  wrapErr (binaryRead LittleEndian n) r = Ok (leUint bs) (advance r n)
  /\ At (advance r n) post.
Proof.
  intros HAt Hne Hn.
  destruct (binaryRead_step LittleEndian n r bs post HAt Hne Hn) as [HR HA].
  split; [|exact HA]. unfold wrapErr, Efi.wrapErr. now rewrite HR.
Qed.

(** An entry of the table as the loop reads it. *)
Lemma read_entry (e : EFISpecIdEventAlgorithmSize) (r : Reader)
    (post : list byte) :
  wellSized e -> At r (encodeAlgorithmSize e ++ post) ->
  exists r1 r2,
    wrapErr (binaryRead LittleEndian 2) r = Ok (AlgorithmId_ e) r1
    /\ wrapErr (binaryRead LittleEndian 2) r1 = Ok (DigestSize e) r2
    /\ At r2 post.
Proof.
  intros [Ha Hs] HAt. unfold encodeAlgorithmSize in HAt.
  rewrite <- app_assoc in HAt.
  destruct (wrapErr_binaryRead_step 2 r _ _ HAt) as [R1 A1];
    [apply nonempty_of_length with 1%nat; apply length_encodeUint
    | now rewrite length_encodeUint |].
  destruct (wrapErr_binaryRead_step 2 _ _ _ A1) as [R2 A2];
    [apply nonempty_of_length with 1%nat; apply length_encodeUint
    | now rewrite length_encodeUint |].
  rewrite (leUint_encodeLE 2) in R1, R2 by (change (256 ^ Z.of_nat 2) with 65536; lia).
  eauto.
Qed.

(** Entries that agree with the registry are collected, unknown
    algorithms with the size they declare. *)
Lemma Efi_readDigestSizes_accepts (es : list EFISpecIdEventAlgorithmSize) :
  Forall (fun e => wellSized e /\ agrees knownAlgorithms e) es ->
  forall (acc : list EFISpecIdEventAlgorithmSize) (r : Reader) (post : list byte),
    At r (concat (map encodeAlgorithmSize es) ++ post) ->
    exists r', readDigestSizes (length es) acc r = Ok (acc ++ es) r' /\ At r' post.
Proof.
  induction 1 as [|e es [Hsz Hag] _ IH]; intros acc r post HAt.
  - exists r. cbn. rewrite app_nil_r. now split.
  - cbn [map concat] in HAt. rewrite <- app_assoc in HAt.
    destruct (read_entry e r _ Hsz HAt) as (r1 & r2 & R1 & R2 & A2).
    destruct (IH (acc ++ [e]) r2 post A2) as [r' [HR HA]].
    exists r'. split; [|exact HA].
    cbn [length]. unfold readDigestSizes. cbn [Efi.readDigestSizes].
    fold (@wrapErr Z). unfold bind at 1. rewrite R1. unfold bind at 1. rewrite R2.
    fold readDigestSizes. rewrite <- app_assoc in HR. cbn [app] in HR.
    assert (Ee : mkAlgorithmSize (AlgorithmId_ e) (DigestSize e) = e)
      by now destruct e.
    rewrite Ee.
    destruct (knownAlgorithms (AlgorithmId_ e)) as [size|] eqn:Ek; [|exact HR].
    rewrite (Hag size Ek), Z.eqb_refl. exact HR.
Qed.

(** The first entry of a known algorithm whose size is not the one of the
    registry ends the loop with [InvalidSpecIdEventError]. *)
Lemma Efi_readDigestSizes_rejects (es : list EFISpecIdEventAlgorithmSize)
    (e : EFISpecIdEventAlgorithmSize) (size : Z) :
  Forall (fun e => wellSized e /\ agrees knownAlgorithms e) es ->
  wellSized e ->
  knownAlgorithms (AlgorithmId_ e) = Some size -> size <> DigestSize e ->
  forall (n : nat) (acc : list EFISpecIdEventAlgorithmSize) (r : Reader)
         (post : list byte),
    (length es < n)%nat ->
    At r (concat (map encodeAlgorithmSize (es ++ [e])) ++ post) ->
    exists msg r', readDigestSizes n acc r = Err (InvalidSpecIdEventError msg) r'.
Proof.
  intros Hes Hsz Hknown Hsize.
  induction Hes as [|e0 es [Hsz0 Hag0] _ IH]; intros n acc r post Hn HAt;
    (destruct n as [|n]; [cbn in Hn; lia|]);
    cbn [app map concat] in HAt; rewrite <- app_assoc in HAt.
  - destruct (read_entry e r _ Hsz HAt) as (r1 & r2 & R1 & R2 & A2).
    unfold readDigestSizes. cbn [Efi.readDigestSizes].
    fold (@wrapErr Z). unfold bind at 1. rewrite R1. unfold bind at 1. rewrite R2.
    rewrite Hknown. destruct (Z.eqb_spec size (DigestSize e)); [contradiction|].
    cbn [negb]. unfold fail. eauto.
  - destruct (read_entry e0 r _ Hsz0 HAt) as (r1 & r2 & R1 & R2 & A2).
    destruct (IH n (acc ++ [mkAlgorithmSize (AlgorithmId_ e0) (DigestSize e0)])
                r2 post) as (msg & r' & HR); [cbn in Hn; lia | exact A2 |].
    exists msg, r'.
    unfold readDigestSizes. cbn [Efi.readDigestSizes].
    fold (@wrapErr Z). unfold bind at 1. rewrite R1. unfold bind at 1. rewrite R2.
    fold readDigestSizes.
    destruct (knownAlgorithms (AlgorithmId_ e0)) as [size0|] eqn:Ek; [|exact HR].
    rewrite (Hag0 size0 Ek), Z.eqb_refl. exact HR.
Qed.

(** The head of the payload after the fixed fields: [uintnSize] and
    [numberOfAlgorithms]. *)
Lemma read_algorithm_count (r : Reader) (u : byte) (n : Z) (post : list byte) :
  0 <= n < 2 ^ 32 ->
  At r ([u] ++ encodeUint LittleEndian 4 n ++ post) ->
  exists r1 r2,
    wrapErr (binaryRead LittleEndian 1) r = Ok (byteZ u) r1
    /\ wrapErr (binaryRead LittleEndian 4) r1 = Ok n r2
    /\ At r2 post.
Proof.
  intros Hn HAt.
  destruct (wrapErr_binaryRead_step 1 r [u] _ HAt) as [R1 A1];
    [discriminate | reflexivity |].
  destruct (wrapErr_binaryRead_step 4 _ _ _ A1) as [R2 A2];
    [apply nonempty_of_length with 3%nat; apply length_encodeUint
    | now rewrite length_encodeUint |].
  rewrite (leUint_encodeLE 4) in R2 by (change (256 ^ Z.of_nat 4) with (2 ^ 32); lia).
  change (leUint [u]) with (Uint LittleEndian [u]) in R1.
  rewrite Uint_single in R1. eauto.
Qed.

(** The parser of efi.go refuses [numberOfAlgorithms = 0]. *)
Lemma Efi_parseEFI_2_SpecIdEvent_zero (eventData : SpecIdEventData)
    (r : Reader) (u : byte) (post : list byte) :
  At r ([u] ++ encodeUint LittleEndian 4 0 ++ post) ->
  exists r',
    parseEFI_2_SpecIdEvent eventData r
    = Err (InvalidSpecIdEventError "numberOfAlgorithms is zero") r'.
Proof.
  intros HAt.
  destruct (read_algorithm_count r u 0 post) as (r1 & r2 & R1 & R2 & _);
    [lia | exact HAt |].
  unfold parseEFI_2_SpecIdEvent, Efi.parseEFI_2_SpecIdEvent.
  fold (@wrapErr Z). unfold bind at 1. rewrite R1. unfold bind at 1. rewrite R2.
  cbn. eauto.
Qed.

(** The parser of efi.go refuses a table with an entry of a known
    algorithm whose size is not the one of the registry. *)
Lemma Efi_parseEFI_2_SpecIdEvent_wrong_size (eventData : SpecIdEventData)
    (r : Reader) (u : byte) (n : Z) (es : list EFISpecIdEventAlgorithmSize)
    (e : EFISpecIdEventAlgorithmSize) (size : Z) (post : list byte) :
  Z.of_nat (length es) < n < 2 ^ 32 ->
  Forall (fun e => wellSized e /\ agrees knownAlgorithms e) es ->
  wellSized e ->
  knownAlgorithms (AlgorithmId_ e) = Some size -> size <> DigestSize e ->
  At r ([u] ++ encodeUint LittleEndian 4 n
        ++ concat (map encodeAlgorithmSize (es ++ [e])) ++ post) ->
  exists msg r',
    parseEFI_2_SpecIdEvent eventData r = Err (InvalidSpecIdEventError msg) r'.
Proof.
  intros Hn Hes Hsz Hknown Hsize HAt.
  destruct (read_algorithm_count r u n
              (concat (map encodeAlgorithmSize (es ++ [e])) ++ post))
    as (r1 & r2 & R1 & R2 & A2); [lia | exact HAt |].
  destruct (Efi_readDigestSizes_rejects es e size Hes Hsz Hknown Hsize
              (Z.to_nat n) [] r2 post) as (msg & r' & HR); [lia | exact A2 |].
  exists msg, r'.
  unfold parseEFI_2_SpecIdEvent, Efi.parseEFI_2_SpecIdEvent.
  fold (@wrapErr Z). unfold bind at 1. rewrite R1. unfold bind at 1. rewrite R2.
  destruct (Z.ltb_spec n 1); [lia|].
  unfold bind at 1. rewrite make_ok by (unfold maxAlloc; lia).
  unfold bind at 1. fold readDigestSizes. now rewrite HR.
Qed.

End EfiSpecId.

(** ** Integers of four bytes *)

Lemma lor_shiftl_8_l (a x : Z) :
  0 <= a < 256 -> 0 <= x -> Z.lor (Z.shiftl x 8) a = 256 * x + a.
Proof.
  intros. rewrite Z.lor_comm, lor_shiftl_8; lia.
Qed.

Lemma leUint_4 (a b c d : byte) :
  leUint [a; b; c; d] =
  byteZ a + 256 * byteZ b + 65536 * byteZ c + 16777216 * byteZ d.
Proof.
  rewrite !leUint_cons by apply leUint_nonneg. cbn [leUint]. lia.
Qed.

Lemma beUint_4 (a b c d : byte) :
  beUint [a; b; c; d] =
  16777216 * byteZ a + 65536 * byteZ b + 256 * byteZ c + byteZ d.
Proof.
  pose proof (byteZ_range a). pose proof (byteZ_range b).
  pose proof (byteZ_range c). pose proof (byteZ_range d).
  unfold beUint. cbn [fold_left].
  rewrite (lor_shiftl_8_l (byteZ a)) by lia.
  rewrite (lor_shiftl_8_l (byteZ b)) by lia.
  rewrite (lor_shiftl_8_l (byteZ c)) by lia.
  rewrite (lor_shiftl_8_l (byteZ d)) by lia.
  lia.
Qed.

(** The two values that make a separator normal read the same in both
    byte orders. *)
Lemma Uint_4_extremes (order : ByteOrder) (a b c d : byte) :
  (Uint order [a; b; c; d] = 0 <-> leUint [a; b; c; d] = 0)
  /\ (Uint order [a; b; c; d] = MaxUint32 <-> leUint [a; b; c; d] = MaxUint32).
Proof.
  pose proof (byteZ_range a). pose proof (byteZ_range b).
  pose proof (byteZ_range c). pose proof (byteZ_range d).
  destruct order; cbn [Uint]; [tauto|].
  rewrite beUint_4, leUint_4. change MaxUint32 with 4294967295. lia.
Qed.

(** ** Strings *)

Lemma string_of_list_byte_app (a b : list byte) :
  string_of_list_byte (a ++ b)
  = (string_of_list_byte a ++ string_of_list_byte b)%string.
Proof.
  induction a as [|x a IH]; [reflexivity|].
  cbn. f_equal. exact IH.
Qed.

Lemma list_byte_of_string_app (a b : string) :
  list_byte_of_string (a ++ b)
  = list_byte_of_string a ++ list_byte_of_string b.
Proof.
  induction a as [|x a IH]; [reflexivity|].
  cbn. f_equal. exact IH.
Qed.

Lemma string_length_app (a b : string) :
  String.length (a ++ b) = (String.length a + String.length b)%nat.
Proof.
  induction a as [|x a IH]; [reflexivity|]. cbn. now rewrite IH.
Qed.

Lemma substring_0_length (a : string) :
  String.substring 0 (String.length a) a = a.
Proof.
  induction a as [|x a IH]; [reflexivity|]. cbn. now rewrite IH.
Qed.

Lemma substring_0_app (a b : string) :
  String.substring 0 (String.length a) (a ++ b) = a.
Proof.
  induction a as [|x a IH].
  - cbn. now destruct b.
  - cbn. now rewrite IH.
Qed.

Lemma substring_skip_app (a b : string) (m : nat) :
  String.substring (String.length a) m (a ++ b) = String.substring 0 m b.
Proof.
  induction a as [|x a IH]; [reflexivity|]. cbn. exact IH.
Qed.

(** A string splits at every position up to its length. *)
Lemma substring_split (str : string) (n : nat) :
  (n <= String.length str)%nat ->
  str = (String.substring 0 n str
         ++ String.substring n (String.length str - n) str)%string.
Proof.
  revert n. induction str as [|x str IH]; intros n Hn.
  - cbn in Hn. assert (n = 0%nat) by lia. subst n. reflexivity.
  - destruct n as [|n].
    + cbn [String.substring String.length Nat.sub append].
      now rewrite substring_0_length.
    + cbn [String.substring String.length Nat.sub append].
      f_equal. apply IH. cbn in Hn. lia.
Qed.

Lemma prefix_app (p r : string) : String.prefix p (p ++ r) = true.
Proof.
  induction p as [|x p IH]; [now destruct r|].
  cbn. destruct (ascii_dec x x); [exact IH | congruence].
Qed.

Lemma prefix_elim (p str : string) :
  String.prefix p str = true -> exists r, str = (p ++ r)%string.
Proof.
  revert str. induction p as [|x p IH]; intros str H.
  - now exists str.
  - destruct str as [|y str]; [discriminate H|].
    cbn in H. destruct (ascii_dec x y) as [->|]; [|discriminate H].
    destruct (IH _ H) as [r ->]. now exists r.
Qed.

(** [strings.Index(str, p) == 0] says that [p] is a prefix of [str]. *)
Lemma strings_Index_0 (str p : string) :
  (strings_Index str p =? 0) = String.prefix p str.
Proof.
  unfold strings_Index. destruct str as [|y str].
  - destruct p; reflexivity.
  - cbn [String.index]. destruct (String.prefix p (String y str)); [reflexivity|].
    destruct (String.index 0 p str); reflexivity.
Qed.

Lemma TrimPrefix_app (p r : string) : TrimPrefix (p ++ r) p = r.
Proof.
  unfold TrimPrefix, HasPrefix. rewrite prefix_app, string_length_app.
  replace (String.length p + String.length r - String.length p)%nat
    with (String.length r) by lia.
  now rewrite substring_skip_app, substring_0_length.
Qed.

Lemma TrimSuffix_app (a suffix : string) : TrimSuffix (a ++ suffix) suffix = a.
Proof.
  unfold TrimSuffix, HasSuffix. rewrite string_length_app.
  replace (String.length a + String.length suffix - String.length suffix)%nat
    with (String.length a) by lia.
  rewrite substring_skip_app, substring_0_length, String.eqb_refl.
  replace (String.length suffix <=? String.length a + String.length suffix)%nat
    with true by (symmetry; apply Nat.leb_le; lia).
  cbn [andb]. apply substring_0_app.
Qed.

Lemma HasSuffix_elim (str suffix : string) :
  HasSuffix str suffix = true -> exists a, str = (a ++ suffix)%string.
Proof.
  unfold HasSuffix. intros H. apply andb_true_iff in H as [Hlen Heq].
  apply Nat.leb_le in Hlen. apply String.eqb_eq in Heq.
  set (k := (String.length str - String.length suffix)%nat) in *.
  exists (String.substring 0 k str).
  rewrite (substring_split str k) at 1 by lia.
  f_equal. replace (String.length str - k)%nat with (String.length suffix) by lia.
  exact Heq.
Qed.

(** ** Hexadecimal digits *)

Lemma all_bytes_complete (b : byte) : In b all_bytes.
Proof.
  assert (H : nth (Byte.to_nat b) all_bytes x00 = b) by (destruct b; reflexivity).
  rewrite <- H. apply nth_In.
  pose proof (Byte.to_nat_bounded b).
  change (length all_bytes) with 256%nat. lia.
Qed.

(** A 16-bit value read big-endian and printed with [%04x] shows the
    digits of its two bytes in the order of the stream. *)
Lemma fmt_beUint16 (b8 b9 : byte) :
  fmtInteger 16 4 (beUint [b8; b9]) = fmtSbx 4 [b8; b9].
Proof.
  assert (H : forallb (fun x => forallb (fun y =>
                String.eqb (fmtInteger 16 4 (beUint [x; y])) (fmtSbx 4 [x; y]))
                all_bytes) all_bytes = true) by (vm_compute; reflexivity).
  rewrite forallb_forall in H. specialize (H b8 (all_bytes_complete b8)).
  rewrite forallb_forall in H. specialize (H b9 (all_bytes_complete b9)).
  now apply String.eqb_eq.
Qed.

(* ================================================================== *)
(** * The claims *)

Section Claims.

Context {X : Externals}.

Import EventData.

(** ** C1: surrogates in [extractUTF16Buffer] *)





(** ** C2 and C3: the spec-id event *)

(** C2, at the input that the code accepts.  A spec-id event with the
    signature ["Spec ID Event03\x00"] whose [numberOfAlgorithms] is 0:
    the parser of eventdata.go returns the event, with an empty list of
    digest sizes, and so does [makeEventData] for the first event of
    PCR 0. *)
Theorem C2_spec_id_zero_algorithms_accepted :
  forall order : ByteOrder,
    parseSpecIdEvent specIdNoAlgorithms order
    = Returns (Some (SpecId (mkSpecIdEventData specIdNoAlgorithms SpecEFI_2
                               0 0 2 0 2 [] [])))
    /\ makeEventData 0 EventTypeNoAction specIdNoAlgorithms order
       = parseSpecIdEvent specIdNoAlgorithms order.
Proof.
  intros order. split; [destruct order; vm_compute; reflexivity|].
  unfold makeEventData, makeEventDataImpl.
  change (EventTypeNoAction =? EventTypeNoAction) with true. cbv iota.
  unfold makeEventDataNoAction. change (0 =? 0) with true. cbv iota.
  destruct order; vm_compute; reflexivity.
Qed.

(** C3, at the input that the code accepts.  A spec-id event that
    declares SHA-256, whose size in the registry is 32, with a digest
    size of 20: the parser of eventdata.go returns the event with the
    declared size. *)
Theorem C3_spec_id_wrong_size_accepted :
  knownAlgorithmsTCG 0x000B = Some 32
  /\ parseSpecIdEvent specIdSha256Size20 LittleEndian
     = Returns (Some (SpecId (mkSpecIdEventData specIdSha256Size20 SpecEFI_2
                                0 0 2 0 2 [mkAlgorithmSize 0x000B 20] []))).
Proof.
  split; vm_compute; reflexivity.
Qed.

(** ** C4: [makeEventData] *)

Lemma makeEventDataImpl_image_load (pcrIndex : PCRIndex) (eventType : EventType)
    (data : list byte) (order : ByteOrder) :
  In eventType [EventTypeEFIBootServicesApplication;
                EventTypeEFIBootServicesDriver;
                EventTypeEFIRuntimeServicesDriver] ->
  makeEventDataImpl pcrIndex eventType data order
  = makeEventDataImageLoad data order.
Proof.
  intros [<-|[<-|[<-|[]]]]; reflexivity.
Qed.

(** One more step of a decoder that returned an event: the read that
    the hypothesis [H] is about to match on did not fail. *)
Ltac decoder_step H :=
  match type of H with
  | context [match binaryRead ?o ?n ?r with _ => _ end] =>
      destruct (binaryRead o n r) eqn:?
  | context [match ReadFull ?n ?r with _ => _ end] =>
      destruct (ReadFull n r) eqn:?
  | context [match make ?k ?n ?r with _ => _ end] =>
      destruct (make k n r) eqn:?
  | context [match readEFIGUID ?o ?r with _ => _ end] =>
      destruct (readEFIGUID o r) eqn:?
  | context [match decodeUTF16ToString ?n ?o ?r with _ => _ end] =>
      destruct (decodeUTF16ToString n o r) eqn:?
  | context [match readDevicePath ?b ?o with _ => _ end] =>
      destruct (readDevicePath b o) as [[?|]|] eqn:?
  end; cbv beta iota in H; try discriminate H.

Ltac decoder_steps H :=
  unfold runNil, bindNil, bindSome, retG in H; repeat decoder_step H.

Lemma readVendorInfo_data (order : ByteOrder) (e e' : SpecIdEventData)
    (r r' : Reader) :
  readVendorInfo order e r = Returns (Some e', r') ->
  specIdData e' = specIdData e.
Proof.
  intros H. unfold readVendorInfo in H. decoder_steps H.
  inversion H. reflexivity.
Qed.

Lemma parseSpecIdEvent_RawBytes (data : list byte) (order : ByteOrder)
    (e : EventData) :
  parseSpecIdEvent data order = Returns (Some e) -> RawBytes e = data.
Proof.
  unfold parseSpecIdEvent. intros H.
  destruct (runNil _ _) as [[e0|]|] eqn:Hrun; try discriminate H.
  inversion H. subst e. clear H. cbn [RawBytes SpecIdEventData_.RawBytes].
  unfold runNil, bindNil in Hrun.
  repeat match type of Hrun with
    | context [match binaryRead ?o ?n ?r with _ => _ end] =>
        destruct (binaryRead o n r) eqn:?; try discriminate Hrun
    | context [match ReadFull ?n ?r with _ => _ end] =>
        destruct (ReadFull n r) eqn:?; try discriminate Hrun
    | context [if ?b then _ else _] => destruct b eqn:?
    end;
    match type of Hrun with
    | match ?f ?r with _ => _ end = _ =>
        destruct (f r) as [[v r']|] eqn:Hp; try discriminate Hrun;
        inversion Hrun; subst v; clear Hrun
    end.
  - unfold parsePCClientSpecIdEvent, bindNil in Hp.
    decoder_step Hp. now apply readVendorInfo_data in Hp.
  - unfold parseEFI_1_2_SpecIdEvent, bindNil in Hp.
    decoder_step Hp. now apply readVendorInfo_data in Hp.
  - unfold parseEFI_2_SpecIdEvent, bindNil, bindSome in Hp.
    do 3 decoder_step Hp.
    destruct (readDigestSizes _ _ _ _) as [[[ds|] rd]|]; try discriminate Hp.
    now apply readVendorInfo_data in Hp.
  - discriminate Hp.
Qed.

Lemma makeEventDataImageLoad_RawBytes (data : list byte) (order : ByteOrder)
    (e : EventData) :
  makeEventDataImageLoad data order = Returns (Some e) -> RawBytes e = data.
Proof.
  unfold makeEventDataImageLoad. intros H. decoder_steps H.
  inversion H. reflexivity.
Qed.

Lemma makeEventDataEFIVariable_RawBytes (data : list byte) (order : ByteOrder)
    (e : EventData) :
  makeEventDataEFIVariable data order = Returns (Some e) -> RawBytes e = data.
Proof.
  unfold makeEventDataEFIVariable. intros H. decoder_steps H.
  inversion H. reflexivity.
Qed.

Lemma makeEventDataImpl_RawBytes (pcrIndex : PCRIndex) (eventType : EventType)
    (data : list byte) (order : ByteOrder) (e : EventData) :
  makeEventDataImpl pcrIndex eventType data order = Returns (Some e) ->
  RawBytes e = data.
Proof.
  unfold makeEventDataImpl, makeEventDataNoAction, makeEventDataSeparator,
    makeEventDataAction, makeEventDataIPL.
  intros H.
  repeat match type of H with
    | context [if ?b then _ else _] => destruct b eqn:?; try discriminate H
    end;
    try (inversion H; reflexivity).
  - now apply parseSpecIdEvent_RawBytes with order.
  - now apply makeEventDataEFIVariable_RawBytes with order.
  - now apply makeEventDataImageLoad_RawBytes with order.
Qed.

(** Where [makeEventData] returns, it returns an event whose raw bytes
    are the event data, and this event is the opaque one of
    [makeOpaqueEventData] when the decoder of the event type returned
    [nil]; and it returns unless the decoder of the event type panics. *)
Lemma makeEventData_returns (pcrIndex : PCRIndex) (eventType : EventType)
    (data : list byte) (order : ByteOrder) :
  (exists msg,
     makeEventDataImpl pcrIndex eventType data order = Panics msg
     /\ makeEventData pcrIndex eventType data order = Panics msg)
  \/
  (exists e,
     makeEventData pcrIndex eventType data order = Returns (Some e)
     /\ RawBytes e = data
     /\ (makeEventDataImpl pcrIndex eventType data order = Returns None ->
         Some e = makeOpaqueEventData eventType data
         /\ exists informational, e = Opaque (opaqueEventData.mk data informational))).
Proof.
  unfold makeEventData.
  destruct (makeEventDataImpl pcrIndex eventType data order) as [[e|]|msg] eqn:Himpl.
  - right. exists e. split; [reflexivity|]. split; [|discriminate].
    now apply makeEventDataImpl_RawBytes in Himpl.
  - right. unfold makeOpaqueEventData.
    match goal with |- context [if ?b then _ else _] => destruct b end;
      eexists; (split; [reflexivity|]); (split; [reflexivity|]);
      intros _; (split; [reflexivity|]); eexists; reflexivity.
  - left. exists msg. now split.
Qed.


(** C4, at the input on which the code fails.  An image-load event whose
    device-path length is 0xFFFFFFFFFFFFFFFF: [makeEventData] does not
    return, the allocation of the buffer of the device path panics. *)
Theorem C4_makeEventData_panics :
  forall (pcrIndex : PCRIndex) (order : ByteOrder),
    makeEventData pcrIndex EventTypeEFIBootServicesApplication
      imageLoadHugePath order
    = Panics "runtime error: makeslice: len out of range".
Proof.
  intros pcrIndex order. unfold makeEventData.
  rewrite makeEventDataImpl_image_load by (cbn [In]; tauto).
  destruct order; vm_compute; reflexivity.
Qed.


(** ** C5: separator events of four bytes *)

(** C5.  A separator event with a payload of four bytes: when the
    little-endian value of the payload is 0 or 0xFFFFFFFF the event is a
    [SeparatorEventData] of type normal, whose measured bytes are the
    payload; for any other value it is one of type error, which has no
    measured bytes. *)
Theorem C5_separator_four_bytes :
  forall (pcrIndex : PCRIndex) (data : list byte) (order : ByteOrder),
    length data = 4%nat ->
    (leUint data = 0 \/ leUint data = 0xFFFFFFFF ->
     makeEventData pcrIndex EventTypeSeparator data order
     = Returns (Some (Separator
                        (SeparatorEventData.mk data SeparatorEventTypeNormal)))
     /\ MeasuredBytes
          (Separator (SeparatorEventData.mk data SeparatorEventTypeNormal))
        = Some data)
    /\
    (leUint data <> 0 /\ leUint data <> 0xFFFFFFFF ->
     makeEventData pcrIndex EventTypeSeparator data order
     = Returns (Some (Separator
                        (SeparatorEventData.mk data SeparatorEventTypeError)))
     /\ MeasuredBytes
          (Separator (SeparatorEventData.mk data SeparatorEventTypeError))
        = None).
Proof.
  intros pcrIndex data order Hlen.
  destruct data as [|a [|b [|c [|d [|]]]]]; try discriminate Hlen.
  destruct (Uint_4_extremes order a b c d) as [H0 Hmax].
  change 0xFFFFFFFF with MaxUint32.
  unfold makeEventData, makeEventDataImpl, makeEventDataSeparator.
  change (EventTypeSeparator =? EventTypeNoAction) with false.
  change (EventTypeSeparator =? EventTypeSeparator) with true.
  change (negb (Z.of_nat (length [a; b; c; d]) =? 4)) with false.
  cbv iota. cbn [validNormalSeparatorValues existsb].
  split.
  - intros Hv. split; [|reflexivity].
    replace ((Uint order [a; b; c; d] =? 0)
             || ((Uint order [a; b; c; d] =? MaxUint32) || false)) with true;
      [reflexivity|].
    symmetry. apply orb_true_iff. destruct Hv as [Hv|Hv].
    + left. apply Z.eqb_eq. now apply H0.
    + right. rewrite orb_false_r. apply Z.eqb_eq. now apply Hmax.
  - intros [Hn0 Hnmax]. split; [|reflexivity].
    replace ((Uint order [a; b; c; d] =? 0)
             || ((Uint order [a; b; c; d] =? MaxUint32) || false)) with false;
      [reflexivity|].
    symmetry. apply orb_false_iff. rewrite orb_false_r.
    split; apply Z.eqb_neq; intros E; [apply Hn0 | apply Hnmax]; tauto.
Qed.

(** ** C6: IPL events *)

Lemma makeEventDataImpl_IPL (pcrIndex : PCRIndex) (data : list byte)
    (order : ByteOrder) :
  makeEventDataImpl pcrIndex EventTypeIPL data order
  = Returns (makeEventDataIPL pcrIndex data).
Proof. reflexivity. Qed.

Lemma bytes_of_prefixed (p : string) (data : list byte) :
  String.prefix p (string_of_list_byte data) = true ->
  exists rest, data = list_byte_of_string p ++ rest.
Proof.
  intros H. destruct (prefix_elim _ _ H) as [r Hr].
  exists (list_byte_of_string r).
  rewrite <- list_byte_of_string_app, <- Hr.
  now rewrite list_byte_of_string_of_list_byte.
Qed.

Lemma string_of_prefixed (p : string) (cmd : list byte) :
  string_of_list_byte (list_byte_of_string p ++ cmd)
  = (p ++ string_of_list_byte cmd)%string.
Proof.
  now rewrite string_of_list_byte_app, string_of_list_byte_of_string.
Qed.

(** What [makeEventDataIPL] keeps of a command line [cmd] that follows
    the prefix: [cmd] without one NUL at its end. *)
Lemma TrimSuffix_NUL_bytes (cmd : list byte) :
  TrimSuffix (string_of_list_byte (cmd ++ [x00])) NUL = string_of_list_byte cmd.
Proof.
  rewrite string_of_list_byte_app. apply TrimSuffix_app.
Qed.

Lemma TrimSuffix_no_NUL (cmd : list byte) :
  (forall cmd', cmd <> cmd' ++ [x00]) ->
  TrimSuffix (string_of_list_byte cmd) NUL = string_of_list_byte cmd.
Proof.
  intros Hno. unfold TrimSuffix.
  destruct (HasSuffix (string_of_list_byte cmd) NUL) eqn:E; [|reflexivity].
  exfalso. destruct (HasSuffix_elim _ _ E) as [a Ha].
  apply (Hno (list_byte_of_string a)).
  rewrite <- (list_byte_of_string_of_list_byte cmd), Ha.
  now rewrite list_byte_of_string_app.
Qed.

(** C6.  IPL events.  On PCR 8, data that begins with
    ["kernel_cmdline: "] gives a [KernelCmdlineEventData], and data that
    begins with ["grub_cmd: "] a [GrubCmdEventData]; the measured bytes
    are the data without the prefix and without one NUL byte at the end
    (without the prefix only, when the data does not end in NUL).  Data
    with neither prefix is returned as opaque data.  On PCR 9 every IPL
    event is an informational [AsciiStringEventData], without measured
    bytes. *)
Theorem C6_IPL_events :
  forall (data : list byte) (order : ByteOrder),
    (forall cmd : list byte,
       data = list_byte_of_string kernelCmdlinePrefix ++ cmd ++ [x00]
       \/ (data = list_byte_of_string kernelCmdlinePrefix ++ cmd
           /\ forall cmd', cmd <> cmd' ++ [x00]) ->
       makeEventData 8 EventTypeIPL data order
       = Returns (Some (KernelCmdline
                          (KernelCmdlineEventData.mk data
                             (string_of_list_byte cmd))))
       /\ MeasuredBytes
            (KernelCmdline
               (KernelCmdlineEventData.mk data (string_of_list_byte cmd)))
          = Some cmd)
    /\
    (forall cmd : list byte,
       data = list_byte_of_string grubCmdPrefix ++ cmd ++ [x00]
       \/ (data = list_byte_of_string grubCmdPrefix ++ cmd
           /\ forall cmd', cmd <> cmd' ++ [x00]) ->
       makeEventData 8 EventTypeIPL data order
       = Returns (Some (GrubCmd
                          (GrubCmdEventData.mk data (string_of_list_byte cmd))))
       /\ MeasuredBytes
            (GrubCmd (GrubCmdEventData.mk data (string_of_list_byte cmd)))
          = Some cmd)
    /\
    ((forall rest, data <> list_byte_of_string kernelCmdlinePrefix ++ rest) ->
     (forall rest, data <> list_byte_of_string grubCmdPrefix ++ rest) ->
     exists informational : bool,
       makeEventData 8 EventTypeIPL data order
       = Returns (Some (Opaque (opaqueEventData.mk data informational))))
    /\
    (makeEventData 9 EventTypeIPL data order
     = Returns (Some (AsciiString (AsciiStringEventData.mk data true)))
     /\ MeasuredBytes (AsciiString (AsciiStringEventData.mk data true)) = None).
Proof.
  intros data order.
  unfold makeEventData. rewrite !makeEventDataImpl_IPL.
  split; [|split; [|split]].
  - intros cmd Hdata.
    split; [|cbv [MeasuredBytes KernelCmdlineEventData.MeasuredBytes
                   KernelCmdlineEventData.Cmdline];
              now rewrite list_byte_of_string_of_list_byte].
    unfold makeEventDataIPL. change (8 =? 8) with true. cbv iota.
    rewrite strings_Index_0.
    assert (Hstr : TrimSuffix (TrimPrefix (string_of_list_byte data)
                                 kernelCmdlinePrefix) NUL
                   = string_of_list_byte cmd
                   /\ String.prefix kernelCmdlinePrefix (string_of_list_byte data)
                      = true).
    { destruct Hdata as [->|[-> Hno]]; rewrite string_of_prefixed, TrimPrefix_app,
        prefix_app; (split; [|reflexivity]).
      - apply TrimSuffix_NUL_bytes.
      - now apply TrimSuffix_no_NUL. }
    destruct Hstr as [-> ->]. reflexivity.
  - intros cmd Hdata.
    split; [|cbv [MeasuredBytes GrubCmdEventData.MeasuredBytes
                   GrubCmdEventData.Cmd];
              now rewrite list_byte_of_string_of_list_byte].
    unfold makeEventDataIPL. change (8 =? 8) with true. cbv iota.
    rewrite !strings_Index_0.
    assert (Hstr : TrimSuffix (TrimPrefix (string_of_list_byte data)
                                 grubCmdPrefix) NUL
                   = string_of_list_byte cmd
                   /\ String.prefix grubCmdPrefix (string_of_list_byte data)
                      = true
                   /\ String.prefix kernelCmdlinePrefix (string_of_list_byte data)
                      = false).
    { destruct Hdata as [->|[-> Hno]]; rewrite string_of_prefixed, TrimPrefix_app,
        prefix_app; (split; [|split; reflexivity]).
      - apply TrimSuffix_NUL_bytes.
      - now apply TrimSuffix_no_NUL. }
    destruct Hstr as [-> [-> ->]]. reflexivity.
  - intros Hk Hg.
    unfold makeEventDataIPL. change (8 =? 8) with true. cbv iota.
    rewrite !strings_Index_0.
    destruct (String.prefix kernelCmdlinePrefix (string_of_list_byte data)) eqn:Ek.
    { destruct (bytes_of_prefixed _ _ Ek) as [rest Hrest]. now elim (Hk rest). }
    destruct (String.prefix grubCmdPrefix (string_of_list_byte data)) eqn:Eg.
    { destruct (bytes_of_prefixed _ _ Eg) as [rest Hrest]. now elim (Hg rest). }
    unfold makeOpaqueEventData.
    match goal with |- context [if ?b then _ else _] => destruct b end;
      eexists; reflexivity.
  - split; reflexivity.
Qed.

(** ** C7: image-load events without the End-of-Hardware node *)

(** An image-load event whose device path is a chain of nodes none of
    which is the End-of-Hardware node.  The decoder of eventdata.go
    fails on the path and [makeEventData] keeps the event as opaque data
    whose raw bytes are the event data.  The decoder of efi.go does not
    fail: it returns the image-load event with an empty device path. *)
Lemma image_load_unterminated_path :
  forall (pcrIndex : PCRIndex) (eventType : EventType) (order : ByteOrder)
         (loc len link : Z) (nodes : list rawNode) (trailing : list byte),
    In eventType [EventTypeEFIBootServicesApplication;
                  EventTypeEFIBootServicesDriver;
                  EventTypeEFIRuntimeServicesDriver] ->
    Forall pathNode nodes ->
    Z.of_nat (length (concat (map (encodeNode order) nodes))) <= maxAlloc ->
    let data :=
      encodeImageLoad order loc len link (concat (map (encodeNode order) nodes))
      ++ trailing in
    (exists informational : bool,
       makeEventData pcrIndex eventType data order
       = Returns (Some (Opaque (opaqueEventData.mk data informational)))
       /\ RawBytes (Opaque (opaqueEventData.mk data informational)) = data)
    /\
    (order = LittleEndian ->
     exists (d : EFIImageLoadEventData) (n : Z),
       Efi.decodeEventDataEFIImageLoadImpl data = Returns (Some d, n, None)
       /\ imageLoadData d = data /\ Path d = []).
Proof.
  intros pcrIndex eventType order loc len link nodes trailing Hty Hnodes Hmax data.
  destruct (read_image_load_fields order loc len link _ trailing Hmax)
    as (r1 & r2 & r3 & r4 & r5 & R1 & R2 & R3 & R4 & Rm & R5).
  fold data in R1. split.
  - assert (Himpl : makeEventDataImpl pcrIndex eventType data order = Returns None).
    { rewrite makeEventDataImpl_image_load by exact Hty.
      unfold makeEventDataImageLoad, runNil, bindNil, bindSome.
      rewrite R1, R2, R3, R4, Rm, R5.
      unfold EventData.readDevicePath.
      now rewrite (EventData_readDevicePathLoop_unterminated order nodes Hnodes
                     _ _ (At_NewReader _)). }
    unfold makeEventData. rewrite Himpl. unfold makeOpaqueEventData.
    match goal with |- context [if ?b then _ else _] => destruct b end;
      eexists; split; reflexivity.
  - intros ->. unfold Efi.decodeEventDataEFIImageLoadImpl, bind.
    rewrite R1, R2, R3, R4, Rm, R5. unfold Efi.readDevicePath.
    rewrite (Efi_readDevicePathLoop_unterminated nodes Hnodes _ _ (At_NewReader _)).
    do 2 eexists. split; [reflexivity | split; reflexivity].
Qed.

(** ** C8: a device-path node with a length below 4 *)

(** C8, at the input that the code accepts.  A node whose length field
    is 0, on a stream that holds 65532 more bytes: the reader of
    eventdata.go returns a node with these 65532 bytes as its data,
    where the reader of efi.go returns [nil]. *)
Theorem C8_node_length_zero_accepted :
  (exists stream',
     EventData.readDevicePathNode LittleEndian (NewReader nodeLengthZero)
     = Returns (Some (mkNode 1 1 (repeat x00 (Z.to_nat 65532))), stream'))
  /\ length (repeat x00 (Z.to_nat 65532)) = Z.to_nat 65532
  /\ (exists stream',
        Efi.readDevicePathNode (NewReader nodeLengthZero)
        = Returns (None, stream')).
Proof.
  pose proof (At_NewReader nodeLengthZero) as HAt.
  split; [|split].
  - destruct (EventData_readDevicePathNode_wraps LittleEndian
                (NewReader nodeLengthZero) x01 x01 0
                (repeat x00 (Z.to_nat 65532)) []) as [r' [Hr _]].
    + lia.
    + rewrite repeat_length. lia.
    + rewrite app_nil_r. exact HAt.
    + exists r'. exact Hr.
  - apply repeat_length.
  - apply (Efi_readDevicePathNode_rejects (NewReader nodeLengthZero) x01 x01 0
             (repeat x00 (Z.to_nat 65532))); [lia | exact HAt].
Qed.

(** ** C9: the two renderings of a GUID *)

(** C9.  On every 16-byte input both decoders succeed.  The decoder of
    efi.go reads the fourth component [D] big-endian from the bytes 8
    and 9 and keeps six bytes in [E]; the decoder of eventdata.go, reading
    little-endian, keeps the last eight bytes as they are in [Data4].
    The strings that the two [String] methods give are equal. *)
Theorem C9_EFIGUID_String_agree :
  forall b0 b1 b2 b3 b4 b5 b6 b7 b8 b9 b10 b11 b12 b13 b14 b15 : byte,
    let input :=
      [b0; b1; b2; b3; b4; b5; b6; b7; b8; b9; b10; b11; b12; b13; b14; b15] in
    exists (g : Efi.EFIGUID) (h : EventData.EFIGUID),
      Efi.decodeEFIGUID (NewReader input) = Ok g (mkReader input 16)
      /\ EventData.readEFIGUID LittleEndian (NewReader input)
         = Ok h (mkReader input 16)
      /\ Efi.D g = beUint [b8; b9]
      /\ Efi.E g = [b10; b11; b12; b13; b14; b15]
      /\ EventData.Data4 h = [b8; b9; b10; b11; b12; b13; b14; b15]
      /\ Efi.EFIGUID_String g = EventData.EFIGUID_String h.
Proof.
  intros. subst input.
  eexists. eexists.
  split; [cbv -[Uint]; reflexivity|].
  split; [cbv -[Uint]; reflexivity|].
  split; [reflexivity|]. split; [reflexivity|]. split; [reflexivity|].
  unfold Efi.EFIGUID_String, EventData.EFIGUID_String.
  cbn [Efi.A Efi.B Efi.C Efi.D Efi.E EventData.Data1 EventData.Data2
       EventData.Data3 EventData.Data4].
  change (Uint BigEndian [b8; b9]) with (beUint [b8; b9]).
  rewrite fmt_beUint16. reflexivity.
Qed.

(** ** C10: separator events of another length *)

(** C10.  A separator event whose payload is not four bytes long, the
    separator type not being one of the event types that are kept as
    measured opaque data: the separator decoder returns nothing, and the
    event is returned, without a failure, as opaque informational data
    with the payload as its raw bytes and without measured bytes. *)
Theorem C10_separator_other_length :
  forall (pcrIndex : PCRIndex) (data : list byte) (order : ByteOrder),
    length data <> 4%nat ->
    ~ In EventTypeSeparator
        [EventTypeEventTag; EventTypeSCRTMVersion; EventTypePlatformConfigFlags;
         EventTypeTableOfDevices; EventTypeNonhostInfo;
         EventTypeOmitBootDeviceEvents] ->
    makeEventDataSeparator data order = None
    /\ makeEventData pcrIndex EventTypeSeparator data order
       = Returns (Some (Opaque (opaqueEventData.mk data true)))
    /\ RawBytes (Opaque (opaqueEventData.mk data true)) = data
    /\ MeasuredBytes (Opaque (opaqueEventData.mk data true)) = None.
Proof.
  intros pcrIndex data order Hlen Hnot.
  assert (Hsep : makeEventDataSeparator data order = None).
  { unfold makeEventDataSeparator.
    destruct (Z.eqb_spec (Z.of_nat (length data)) 4); [lia | reflexivity]. }
  split; [exact Hsep|]. split; [|split; reflexivity].
  unfold makeEventData, makeEventDataImpl.
  change (EventTypeSeparator =? EventTypeNoAction) with false.
  change (EventTypeSeparator =? EventTypeSeparator) with true.
  cbv iota. rewrite Hsep. unfold makeOpaqueEventData.
  change (EventTypeSeparator =? EventTypeEFIGPTEvent) with false.
  rewrite orb_false_r.
  repeat match goal with
    | |- context [EventTypeSeparator =? ?c] =>
        destruct (Z.eqb_spec EventTypeSeparator c) as [E|_];
        [exfalso; apply Hnot; rewrite E; cbn [In]; tauto|]
    end.
  reflexivity.
Qed.

End Claims.

(* ================================================================== *)
(** * The theorems at concrete events *)



Lemma C5_separator_four_bytes_witness :
  length [x00; x00; x00; x00] = 4%nat
  /\ EventData.makeEventData (X := TCG) 0 EventTypeSeparator
       [x00; x00; x00; x00] LittleEndian
     = Returns (Some (EventData.Separator
                        (EventData.SeparatorEventData.mk [x00; x00; x00; x00]
                           SeparatorEventTypeNormal)))
  /\ EventData.makeEventData (X := TCG) 0 EventTypeSeparator
       [x01; x00; x00; x00] LittleEndian
     = Returns (Some (EventData.Separator
                        (EventData.SeparatorEventData.mk [x01; x00; x00; x00]
                           SeparatorEventTypeError))).
Proof.
  split; [reflexivity|]. split.
  - apply (C5_separator_four_bytes (X := TCG) 0 [x00; x00; x00; x00]
             LittleEndian eq_refl).
    left. reflexivity.
  - apply (C5_separator_four_bytes (X := TCG) 0 [x01; x00; x00; x00]
             LittleEndian eq_refl).
    split; discriminate.
Defined.

(** C7, at an event on which the decoder of efi.go diverges.  The
    image-load event whose device path of four bytes is one PCI node
    without an End-of-Hardware node.  [readDevicePath] of eventdata.go
    returns [nil] for the path, its decoder fails and [makeEventData]
    keeps the event as opaque data with its raw bytes.
    [readDevicePath] of efi.go returns an empty path for the same
    bytes, and its decoder returns the event as an image-load event,
    with that empty path and a [nil] error: nothing is reported and the
    event is not kept as opaque data. *)
Theorem C7_unterminated_path_accepted :
  EventData.readDevicePath [x01; x01; x04; x00] LittleEndian = Returns None
  /\ EventData.makeEventDataImageLoad imageLoadUnterminated LittleEndian
     = Returns None
  /\ EventData.makeEventData (X := TCG) 0 EventTypeEFIBootServicesApplication
       imageLoadUnterminated LittleEndian
     = Returns (Some (EventData.Opaque
                        (EventData.opaqueEventData.mk imageLoadUnterminated
                           true)))
  /\ Efi.readDevicePath [x01; x01; x04; x00] = Returns []
  /\ Efi.decodeEventDataEFIImageLoadImpl imageLoadUnterminated
     = Returns (Some (mkImageLoad imageLoadUnterminated 0 0 0 []), 36, None).
Proof. repeat split; vm_compute; reflexivity. Qed.

Lemma C10_separator_other_length_witness :
  length [x00] <> 4%nat
  /\ ~ In EventTypeSeparator
         [@EventTypeEventTag TCG; @EventTypeSCRTMVersion TCG;
          @EventTypePlatformConfigFlags TCG; @EventTypeTableOfDevices TCG;
          @EventTypeNonhostInfo TCG; @EventTypeOmitBootDeviceEvents TCG]
  /\ EventData.makeEventData (X := TCG) 0 EventTypeSeparator [x00] LittleEndian
     = Returns (Some (EventData.Opaque (EventData.opaqueEventData.mk [x00] true))).
Proof.
  assert (Hlen : length [x00] <> 4%nat) by discriminate.
  assert (Hnot : ~ In EventTypeSeparator
                     [@EventTypeEventTag TCG; @EventTypeSCRTMVersion TCG;
                      @EventTypePlatformConfigFlags TCG;
                      @EventTypeTableOfDevices TCG; @EventTypeNonhostInfo TCG;
                      @EventTypeOmitBootDeviceEvents TCG]).
  { cbn [In]. intros [H|[H|[H|[H|[H|[H|[]]]]]]]; discriminate H. }
  split; [exact Hlen|]. split; [exact Hnot|].
  apply (C10_separator_other_length (X := TCG) 0 [x00] LittleEndian Hlen Hnot).
Defined.

(** ** Examples *)

Example fmt_examples :
  fmtInteger 16 8 0x8be4df61 = "8be4df61"%string
  /\ fmtInteger 16 4 5 = "0005"%string
  /\ fmtInteger 10 0 32 = "32"%string
  /\ fmtSbx 12 [x00; x01; xab; xff; x10; x0f] = "0001abff100f"%string.
Proof. repeat split. Qed.

(** The GUID of the EFI global variables in both renderings. *)
Example EFIGUID_String_example :
  option_map Efi.EFIGUID_String
    (match Efi.decodeEFIGUID
             (NewReader [x61; xdf; xe4; x8b; xca; x93; xd2; x11;
                         xaa; x0d; x00; xe0; x98; x03; x2b; x8c]) with
     | Ok g _ => Some g
     | _ => None
     end)
  = Some "{8be4df61-93ca-11d2-aa0d-00e098032b8c}"%string.
Proof. vm_compute. reflexivity. Qed.

(** Three characters of which the second is a surrogate pair take eight
    bytes. *)
Example extractUTF16Buffer_pair :
  extractUTF16Buffer 3 (NewReader [x41; x00; x3d; xd8; x00; xde; x42; x00])
  = Ok [0x41; 0xd83d; 0xde00; 0x42]
       (mkReader [x41; x00; x3d; xd8; x00; xde; x42; x00] 8).
Proof. reflexivity. Qed.

(** The image-load event with its End-of-Hardware node is decoded, by
    both decoders, with the path of its one node. *)
Example image_load_terminated :
  EventData.makeEventData (X := TCG) 0 EventTypeEFIBootServicesApplication
    imageLoadTerminated LittleEndian
  = Returns (Some (EventData.EFIImageLoad
                     (mkImageLoad imageLoadTerminated 0 0 0 [mkNode 1 1 []])))
  /\ Efi.decodeEventDataEFIImageLoadImpl imageLoadTerminated
     = Returns (Some (mkImageLoad imageLoadTerminated 0 0 0 [mkNode 1 1 []]),
                40, None).
Proof. split; vm_compute; reflexivity. Qed.

(** The spec-id events of C2 and C3 in the parser of efi.go, from the
    field [uintnSize] on: both are refused. *)
Example Efi_parseEFI_2_SpecIdEvent_examples :
  Efi.parseEFI_2_SpecIdEvent knownAlgorithmsTCG (fun e => e) (fmtInteger 16 4)
    (mkSpecIdEventData specIdNoAlgorithms SpecUnknown 0 0 2 0 0 [] [])
    (mkReader specIdNoAlgorithms 23)
  = Err (InvalidSpecIdEventError "numberOfAlgorithms is zero")
        (mkReader specIdNoAlgorithms 28)
  /\ Efi.parseEFI_2_SpecIdEvent knownAlgorithmsTCG (fun e => e) (fmtInteger 16 4)
       (mkSpecIdEventData specIdSha256Size20 SpecUnknown 0 0 2 0 0 [] [])
       (mkReader specIdSha256Size20 23)
     = Err (InvalidSpecIdEventError
              "digestSize for algorithmId 0x000b doesn't match expected size (got: 20, expected: 32)")
           (mkReader specIdSha256Size20 32).
Proof. split; vm_compute; reflexivity. Qed.

(** IPL events of GRUB on PCR 8 and PCR 9. *)
Example IPL_examples :
  option_map EventData.MeasuredBytes
    (match EventData.makeEventData (X := TCG) 8 EventTypeIPL
             (list_byte_of_string "kernel_cmdline: root=/dev/sda1" ++ [x00])
             LittleEndian with
     | Returns v => v
     | Panics _ => None
     end)
  = Some (Some (list_byte_of_string "root=/dev/sda1"))
  /\ option_map EventData.MeasuredBytes
       (match EventData.makeEventData (X := TCG) 8 EventTypeIPL
                (list_byte_of_string "grub_cmd: boot" ++ [x00]) LittleEndian with
        | Returns v => v
        | Panics _ => None
        end)
     = Some (Some (list_byte_of_string "boot"))
  /\ EventData.makeEventData (X := TCG) 8 EventTypeIPL
       (list_byte_of_string "(hd0,gpt2)/vmlinuz") LittleEndian
     = Returns (Some (EventData.Opaque
                        (EventData.opaqueEventData.mk
                           (list_byte_of_string "(hd0,gpt2)/vmlinuz") true)))
  /\ EventData.makeEventData (X := TCG) 9 EventTypeIPL
       (list_byte_of_string "(hd0,gpt2)/vmlinuz") LittleEndian
     = Returns (Some (EventData.AsciiString
                        (EventData.AsciiStringEventData.mk
                           (list_byte_of_string "(hd0,gpt2)/vmlinuz") true))).
Proof. repeat split; vm_compute; reflexivity. Qed.

(** The spec-id event of a SHA-256 log is read by both parsers with the
    same table of digest sizes. *)
Example spec_id_sha256 :
  EventData.parseSpecIdEvent
    (specIdEvent03 [x01; x00; x00; x00; x0b; x00; x20; x00; x00]) LittleEndian
  = Returns (Some (EventData.SpecId
                     (mkSpecIdEventData
                        (specIdEvent03 [x01; x00; x00; x00; x0b; x00; x20; x00; x00])
                        SpecEFI_2 0 0 2 0 2 [mkAlgorithmSize 0x000B 32] [])))
  /\ Efi.parseEFI_2_SpecIdEvent knownAlgorithmsTCG (fun e => e) (fmtInteger 16 4)
       (mkSpecIdEventData
          (specIdEvent03 [x01; x00; x00; x00; x0b; x00; x20; x00; x00])
          SpecUnknown 0 0 2 0 0 [] [])
       (mkReader (specIdEvent03 [x01; x00; x00; x00; x0b; x00; x20; x00; x00]) 23)
     = Ok (mkSpecIdEventData
             (specIdEvent03 [x01; x00; x00; x00; x0b; x00; x20; x00; x00])
             SpecEFI_2 0 0 2 0 2 [mkAlgorithmSize 0x000B 32] [])
          (mkReader (specIdEvent03 [x01; x00; x00; x00; x0b; x00; x20; x00; x00]) 33).
Proof. split; vm_compute; reflexivity. Qed.

(* ================================================================== *)
(** * Further properties of the decoders *)

(** ** The stream: what a read does in general *)

Lemma Len_nonneg (r : Reader) : 0 <= Len r.
Proof.
  unfold Len. destruct (Z.geb_spec (i r) (Size r)); lia.
Qed.

Lemma Len_At (r : Reader) (l : list byte) :
  At r l -> Len r = Z.of_nat (length l).
Proof.
  intros [Hi Hs]. apply (f_equal (@length byte)) in Hs.
  rewrite length_skipn in Hs. unfold Len, Size.
  destruct (Z.geb_spec (i r) (Z.of_nat (length (s r)))); lia.
Qed.

Lemma length_field (off len : nat) (data : list byte) :
  (off + len <= length data)%nat -> length (field off len data) = len.
Proof.
  intros H. unfold field. rewrite length_firstn, length_skipn. lia.
Qed.

(** A read of [n > 0] bytes gives the next [n] bytes and moves the cursor
    by [n] when they are there, and fails at the end of the stream when
    they are not. *)
Lemma ReadFull_cases (n : Z) (r : Reader) :
  0 < n -> 0 <= i r ->
  (i r + n <= Size r
   /\ ReadFull n r
      = Ok (field (Z.to_nat (i r)) (Z.to_nat n) (s r)) (advance r n))
  \/ (Size r < i r + n
      /\ exists e r', ReadFull n r = Err e r' /\ endOfStream e).
Proof.
  intros Hn Hi. unfold ReadFull, Len, endOfStream.
  destruct (Z.leb_spec n 0); [lia|].
  destruct (Z.geb_spec (i r) (Size r)).
  - right. split; [lia|]. cbn. eauto.
  - destruct (Z.eqb_spec (Size r - i r) 0); [lia|].
    destruct (Z.ltb_spec (Size r - i r) n).
    + right. split; [lia|]. eauto.
    + left. split; [lia | reflexivity].
Qed.

Lemma binaryRead_cases (order : ByteOrder) (n : Z) (r : Reader) :
  0 < n -> 0 <= i r ->
  (i r + n <= Size r
   /\ binaryRead order n r
      = Ok (Uint order (field (Z.to_nat (i r)) (Z.to_nat n) (s r)))
           (advance r n))
  \/ (Size r < i r + n
      /\ exists e r', binaryRead order n r = Err e r' /\ endOfStream e).
Proof.
  intros Hn Hi. unfold binaryRead, bind.
  destruct (ReadFull_cases n r Hn Hi) as [[Hsz ->]|[Hsz (e & r' & -> & He)]];
    [left | right]; (split; [exact Hsz|]); eauto.
Qed.

(** A read of any length, for a length that was itself read from the
    stream. *)
Lemma ReadFull_cases_any (n : Z) (r : Reader) :
  0 <= n -> 0 <= i r -> i r <= Size r ->
  (i r + n <= Size r
   /\ exists bs, ReadFull n r = Ok bs (advance r n)
                 /\ Z.of_nat (length bs) = n
                 /\ bs = field (Z.to_nat (i r)) (Z.to_nat n) (s r))
  \/ (Size r < i r + n
      /\ exists e r', ReadFull n r = Err e r' /\ endOfStream e).
Proof.
  intros Hn Hi Hsz. destruct (Z.eq_dec n 0) as [->|Hne].
  - left. split; [lia|]. exists []. unfold ReadFull. cbn [Z.leb Z.compare].
    unfold advance. rewrite Z.add_0_r. destruct r. cbn. repeat split.
  - destruct (ReadFull_cases n r) as [[H ->]|[H He]]; [lia | exact Hi | |].
    + left. split; [exact H|]. eexists. split; [reflexivity|].
      split; [|reflexivity]. rewrite length_field; unfold Size in *; lia.
    + right. now split.
Qed.

Lemma SeekCurrent_forward (k : Z) (r : Reader) :
  0 <= k -> 0 <= i r -> SeekCurrent k r = Ok (i r + k) (advance r k).
Proof.
  intros Hk Hi. unfold SeekCurrent. destruct (Z.ltb_spec (i r + k) 0); [lia|].
  reflexivity.
Qed.

(** ** Integers read from the stream *)

Lemma leUint_bound (bs : list byte) : leUint bs < 256 ^ Z.of_nat (length bs).
Proof.
  induction bs as [|b bs IH]; [cbn; lia|].
  rewrite leUint_cons by apply leUint_nonneg.
  cbn [length]. rewrite Nat2Z.inj_succ, Z.pow_succ_r by lia.
  pose proof (byteZ_range b). lia.
Qed.

Lemma Uint_range (order : ByteOrder) (bs : list byte) :
  0 <= Uint order bs < 256 ^ Z.of_nat (length bs).
Proof.
  destruct order; cbn [Uint].
  - split; [apply leUint_nonneg | apply leUint_bound].
  - rewrite <- (rev_involutive bs) at 1 2. rewrite beUint_rev.
    split; [apply leUint_nonneg|].
    rewrite <- (length_rev bs). apply leUint_bound.
Qed.

Lemma Uint_field_range (order : ByteOrder) (off len : nat) (data : list byte) :
  0 <= Uint order (field off len data) < 256 ^ Z.of_nat len.
Proof.
  pose proof (Uint_range order (field off len data)) as [H0 H1].
  split; [exact H0|].
  apply Z.lt_le_trans with (1 := H1).
  apply Z.pow_le_mono_r; [lia|].
  unfold field. rewrite length_firstn. lia.
Qed.


(** ** UTF-16 *)

(** Below a shifted value, [lor] adds. *)
Lemma lor_shiftl_low (k a x : Z) :
  0 <= k -> 0 <= a < 2 ^ k -> 0 <= x -> Z.lor (Z.shiftl x k) a = 2 ^ k * x + a.
Proof.
  intros Hk Ha Hx.
  assert (Hland : Z.land (Z.shiftl x k) a = 0).
  { apply Z.bits_inj'. intros n Hn.
    rewrite Z.land_spec, Z.bits_0.
    destruct (Z.ltb_spec n k).
    - rewrite Z.shiftl_spec_low by lia. reflexivity.
    - replace (Z.testbit a n) with false; [apply andb_false_r|].
      symmetry. destruct (Z.eq_dec a 0) as [->|]; [apply Z.bits_0|].
      apply Z.bits_above_log2; [lia|].
      apply Z.log2_lt_pow2; [lia|].
      apply Z.lt_le_trans with (2 ^ k); [lia | apply Z.pow_le_mono_r; lia]. }
  rewrite <- Z.lxor_lor, <- Z.add_nocarry_lxor by exact Hland.
  rewrite Z.shiftl_mul_pow2 by lia. lia.
Qed.

Lemma unitsLE_app (u v : list Z) : unitsLE (u ++ v) = unitsLE u ++ unitsLE v.
Proof.
  unfold unitsLE. now rewrite map_app, concat_app.
Qed.

Lemma length_unitsLE (u : list Z) :
  Z.of_nat (length (unitsLE u)) = 2 * Z.of_nat (length u).
Proof.
  induction u as [|c u IH]; [reflexivity|].
  change (unitsLE (c :: u)) with (encodeUint LittleEndian 2 c ++ unitsLE u).
  rewrite length_app, length_encodeUint. cbn [length]. lia.
Qed.

(** The two halves of a scalar value above the basic plane. *)
Lemma surrogate_halves (r : Z) :
  0x10000 <= r < 0x110000 ->
  0 <= (r - 0x10000) / 1024 < 1024 /\ 0 <= (r - 0x10000) mod 1024 < 1024.
Proof.
  intros Hr. split.
  - split; [apply Z.div_pos; lia | apply Z.div_lt_upper_bound; lia].
  - apply Z.mod_pos_bound. lia.
Qed.

(** [utf16.Decode] gives back the scalar values of a sequence that
    [utf16.Encode] made. *)
Lemma Decode_encodeUTF16 (r : Z) (u : list Z) :
  scalar r -> Decode (encodeUTF16 r ++ u) = r :: Decode u.
Proof.
  unfold scalar, encodeUTF16, surr1, surr3. intros Hr.
  destruct (Z.ltb_spec r 0x10000).
  - cbn [app Decode]. unfold surr1, surr3.
    replace ((r <? 55296) || (57344 <=? r)) with true; [reflexivity|].
    symmetry. apply orb_true_iff.
    destruct Hr as [Hr|Hr]; [left; apply Z.ltb_lt | right; apply Z.leb_le]; lia.
  - destruct (surrogate_halves r) as [Hh Hl]; [lia|].
    set (h := (r - 0x10000) / 1024) in *. set (l := (r - 0x10000) mod 1024) in *.
    cbn [app Decode]. unfold surr1, surr2, surr3.
    replace ((55296 + h <? 55296) || (57344 <=? 55296 + h)) with false.
    2:{ symmetry. apply orb_false_iff.
        split; [apply Z.ltb_ge | apply Z.leb_gt]; lia. }
    replace ((55296 <=? 55296 + h) && (55296 + h <? 56320)) with true.
    2:{ symmetry. apply andb_true_iff.
        split; [apply Z.leb_le | apply Z.ltb_lt]; lia. }
    replace ((56320 <=? 56320 + l) && (56320 + l <? 57344)) with true.
    2:{ symmetry. apply andb_true_iff.
        split; [apply Z.leb_le | apply Z.ltb_lt]; lia. }
    f_equal. unfold DecodeRune, surr1, surr2.
    replace (55296 + h - 55296) with h by lia.
    replace (56320 + l - 56320) with l by lia.
    rewrite (lor_shiftl_low 10) by lia.
    pose proof (Z.div_mod (r - 0x10000) 1024). subst h l. lia.
Qed.

Lemma Decode_encoded (rs : list Z) :
  Forall scalar rs -> Decode (concat (map encodeUTF16 rs)) = rs.
Proof.
  induction 1 as [|r rs Hr _ IH]; [reflexivity|].
  cbn [map concat]. rewrite Decode_encodeUTF16 by exact Hr. now rewrite IH.
Qed.

Lemma advance_advance (r : Reader) (a b : Z) :
  advance (advance r a) b = advance r (a + b).
Proof.
  unfold advance. cbn [s i]. f_equal. lia.
Qed.

Lemma advance_0 (r : Reader) : advance r 0 = r.
Proof.
  unfold advance. rewrite Z.add_0_r. now destruct r.
Qed.

(** One code unit at the cursor. *)
Lemma read_unit (c : Z) (r : Reader) (post : list byte) :
  0 <= c < 65536 ->
  At r (encodeUint LittleEndian 2 c ++ post) ->
  binaryRead LittleEndian 2 r = Ok c (advance r 2) /\ At (advance r 2) post.
Proof.
  intros Hc HAt.
  destruct (binaryRead_step LittleEndian 2 r _ _ HAt) as [HR HA];
    [apply nonempty_of_length with 1%nat; apply length_encodeUint
    | now rewrite length_encodeUint |].
  rewrite Uint_encodeUint in HR by (change (256 ^ Z.of_nat 2) with 65536; lia).
  now split.
Qed.

(** The loop of [extractUTF16Buffer] on the UTF-16 form of scalar
    values: it collects their code units and stops behind them. *)
Lemma extractUTF16Loop_scalars (rs : list Z) :
  Forall scalar rs ->
  forall (out : list Z) (r : Reader) (post : list byte),
    At r (utf16LE rs ++ post) ->
    extractUTF16Loop (length rs) out r
    = Ok (out ++ concat (map encodeUTF16 rs))
         (advance r (Z.of_nat (length (utf16LE rs))))
    /\ At (advance r (Z.of_nat (length (utf16LE rs)))) post.
Proof.
  induction 1 as [|c rs Hc _ IH]; intros out r post HAt.
  - cbn. rewrite app_nil_r, advance_0. split; [reflexivity | exact HAt].
  - unfold utf16LE in HAt |- *. cbn [map concat] in HAt |- *.
    rewrite unitsLE_app in HAt |- *. fold (utf16LE rs) in HAt |- *.
    rewrite <- app_assoc in HAt. rewrite length_app, Nat2Z.inj_add.
    set (n := Z.of_nat (length (utf16LE rs))) in *.
    cbn [length extractUTF16Loop].
    unfold scalar, surr1, surr3 in Hc.
    destruct (Z.ltb_spec c 0x10000) as [Hlt|Hge].
    + assert (Ec : encodeUTF16 c = [c])
        by (unfold encodeUTF16; destruct (Z.ltb_spec c 0x10000); [reflexivity | lia]).
      rewrite Ec in HAt |- *.
      change (unitsLE [c]) with (encodeUint LittleEndian 2 c ++ []) in HAt |- *.
      rewrite app_nil_r in HAt |- *. rewrite length_encodeUint.
      destruct (read_unit c r _ ltac:(lia) HAt) as [R1 A1].
      unfold bind at 1. rewrite R1.
      replace ((c >=? surr1) && (c <? surr2)) with false.
      2:{ symmetry. unfold surr1, surr2. rewrite Z.geb_leb.
          apply andb_false_iff.
          destruct Hc as [Hc|Hc]; [left; apply Z.leb_gt | right; apply Z.ltb_ge]; lia. }
      destruct (IH (out ++ [c]) _ _ A1) as [HR HA].
      rewrite advance_advance in HR, HA. rewrite <- app_assoc in HR.
      split; [exact HR | exact HA].
    + destruct (surrogate_halves c) as [Hh Hl]; [lia|].
      assert (Ec : encodeUTF16 c
                   = [55296 + (c - 0x10000) / 1024; 56320 + (c - 0x10000) mod 1024])
        by (unfold encodeUTF16; destruct (Z.ltb_spec c 0x10000); [lia | reflexivity]).
      rewrite Ec in HAt |- *. clear Ec.
      set (h := (c - 0x10000) / 1024) in *. set (l := (c - 0x10000) mod 1024) in *.
      change (unitsLE [55296 + h; 56320 + l])
        with (encodeUint LittleEndian 2 (55296 + h)
              ++ encodeUint LittleEndian 2 (56320 + l) ++ []) in HAt |- *.
      rewrite app_nil_r in HAt |- *. rewrite <- app_assoc in HAt.
      rewrite length_app, !length_encodeUint.
      destruct (read_unit (55296 + h) r _ ltac:(lia) HAt) as [R1 A1].
      destruct (read_unit (56320 + l) _ _ ltac:(lia) A1) as [R2 A2].
      unfold bind at 1. rewrite R1.
      replace ((55296 + h >=? surr1) && (55296 + h <? surr2)) with true.
      2:{ symmetry. unfold surr1, surr2. rewrite Z.geb_leb.
          apply andb_true_iff. split; [apply Z.leb_le | apply Z.ltb_lt]; lia. }
      unfold bind at 1. rewrite R2.
      replace ((56320 + l <? surr2) || (56320 + l >=? surr3)) with false.
      2:{ symmetry. unfold surr2, surr3. rewrite Z.geb_leb.
          apply orb_false_iff. split; [apply Z.ltb_ge | apply Z.leb_gt]; lia. }
      destruct (IH (out ++ [55296 + h; 56320 + l]) _ _ A2) as [HR HA].
      replace (advance r (Z.of_nat (2 + 2) + n))
        with (advance (advance (advance r 2) 2) n)
        by (rewrite !advance_advance; f_equal; lia).
      replace ((out ++ [55296 + h]) ++ [56320 + l])
        with (out ++ [55296 + h; 56320 + l])
        by (rewrite <- app_assoc; reflexivity).
      rewrite (app_assoc out [55296 + h; 56320 + l]).
      split; [exact HR | exact HA].
Qed.

(** X1.  Extraction of well-formed UTF-16.  On a stream that holds the
    little-endian UTF-16 form of the scalar values [rs], followed by
    anything, [extractUTF16Buffer] asked for [length rs] characters
    returns exactly the code units of [rs], leaves the cursor on the
    first byte after them, and [utf16.Decode] of the result gives [rs]
    back. *)
Theorem extractUTF16Buffer_well_formed :
  forall (rs : list Z) (r : Reader) (post : list byte),
    Forall scalar rs ->
    At r (utf16LE rs ++ post) ->
    extractUTF16Buffer (Z.of_nat (length rs)) r
    = Ok (concat (map encodeUTF16 rs))
         (advance r (Z.of_nat (length (utf16LE rs))))
    /\ At (advance r (Z.of_nat (length (utf16LE rs)))) post
    /\ Decode (concat (map encodeUTF16 rs)) = rs.
Proof.
  intros rs r post Hrs HAt. unfold extractUTF16Buffer. rewrite Nat2Z.id.
  destruct (extractUTF16Loop_scalars rs Hrs [] r post HAt) as [HR HA].
  split; [exact HR|]. split; [exact HA|]. now apply Decode_encoded.
Qed.

Lemma Size_advance (r : Reader) (n : Z) : Size (advance r n) = Size r.
Proof. reflexivity. Qed.

Lemma Size_mkReader (r : Reader) (k : Z) : Size (mkReader (s r) k) = Size r.
Proof. reflexivity. Qed.

(** The loop of [extractUTF16Buffer] in general: every round moves the
    cursor forward by two, three or four bytes and adds one or two code
    units; the only failure is the end of the stream. *)
Lemma extractUTF16Loop_outcomes (n : nat) :
  forall (out : list Z) (r : Reader),
    0 <= i r <= Size r ->
    match extractUTF16Loop n out r with
    | Ok out' r' =>
        s r' = s r
        /\ i r + 2 * Z.of_nat n <= i r' <= i r + 4 * Z.of_nat n
        /\ i r' <= Size r
        /\ exists u, out' = out ++ u /\ (n <= length u <= 2 * n)%nat
    | Err e _ => endOfStream e
    | Panic _ => False
    end.
Proof.
  induction n as [|n IH]; intros out r Hi.
  - cbn. repeat split; try lia. exists []. now rewrite app_nil_r.
  - cbn [extractUTF16Loop]. unfold bind at 1.
    destruct (binaryRead_cases LittleEndian 2 r)
      as [[Hsz ->]|[Hsz (e & r' & -> & He)]]; [lia | lia | | exact He].
    set (c := Uint LittleEndian _).
    destruct ((c >=? surr1) && (c <? surr2)).
    + unfold bind at 1.
      destruct (binaryRead_cases LittleEndian 2 (advance r 2))
        as [[Hsz2 ->]|[Hsz2 (e & r' & -> & He)]];
        [lia | cbn [advance i]; lia | | exact He].
      rewrite Size_advance in Hsz2. cbn [advance i] in Hsz2.
      set (c2 := Uint LittleEndian _).
      destruct ((c2 <? surr2) || (c2 >=? surr3)).
      * unfold bind at 1, SeekCurrent. cbn [advance i s].
        destruct (Z.ltb_spec (i r + 2 + 2 + -1) 0); [lia|].
        specialize (IH (out ++ [c]) (mkReader (s r) (i r + 2 + 2 + -1))).
        rewrite Size_mkReader in IH. cbn [s i] in IH.
        destruct (extractUTF16Loop n _ _) as [out' r'|e r'|msg];
          [|apply IH; lia|apply IH; lia].
        destruct IH as (Hs & Hpos & Hend & u & Hu & Hlen); [lia|].
        repeat split; try lia; try exact Hs.
        exists (c :: u). rewrite Hu, <- app_assoc. split; [reflexivity|].
        cbn [length]. lia.
      * specialize (IH ((out ++ [c]) ++ [c2]) (advance (advance r 2) 2)).
        rewrite !Size_advance in IH. cbn [advance s i] in IH.
        destruct (extractUTF16Loop n _ _) as [out' r'|e r'|msg];
          [|apply IH; lia|apply IH; lia].
        destruct IH as (Hs & Hpos & Hend & u & Hu & Hlen); [lia|].
        repeat split; try lia; try exact Hs.
        exists (c :: c2 :: u). rewrite Hu, <- !app_assoc. split; [reflexivity|].
        cbn [length]. lia.
    + specialize (IH (out ++ [c]) (advance r 2)).
      rewrite Size_advance in IH. cbn [advance s i] in IH.
      destruct (extractUTF16Loop n _ _) as [out' r'|e r'|msg];
        [|apply IH; lia|apply IH; lia].
      destruct IH as (Hs & Hpos & Hend & u & Hu & Hlen); [lia|].
      repeat split; try lia; try exact Hs.
      exists (c :: u). rewrite Hu, <- app_assoc. split; [reflexivity|].
      cbn [length]. lia.
Qed.

(** X2.  The outcomes of [extractUTF16Buffer].  Asked for [nchars]
    characters from a stream, it either returns between [nchars] and
    [2 * nchars] code units, having moved the cursor forward by at least
    [2 * nchars] and at most [4 * nchars] bytes and never past the end
    of the data, or it fails with [io.EOF] or [io.ErrUnexpectedEOF]: the
    seek back by one byte never fails, and nothing panics. *)
Theorem extractUTF16Buffer_outcomes :
  forall (nchars : Z) (r : Reader),
    0 <= nchars ->
    0 <= i r <= Size r ->
    match extractUTF16Buffer nchars r with
    | Ok out r' =>
        s r' = s r
        /\ i r + 2 * nchars <= i r' <= i r + 4 * nchars
        /\ i r' <= Size r
        /\ nchars <= Z.of_nat (length out) <= 2 * nchars
    | Err e _ => e = EOF \/ e = ErrUnexpectedEOF
    | Panic _ => False
    end.
Proof.
  intros nchars r Hn Hi. unfold extractUTF16Buffer.
  pose proof (extractUTF16Loop_outcomes (Z.to_nat nchars) [] r Hi) as H.
  destruct (extractUTF16Loop _ _ _) as [out r'|e r'|msg]; [|exact H|exact H].
  destruct H as (Hs & Hpos & Hend & u & Hu & Hlen).
  cbn [app] in Hu. subst u. repeat split; try lia. exact Hs.
Qed.

Lemma extractUTF16Buffer_well_formed_witness :
  Forall scalar [0x41; 0x1F600]
  /\ At (NewReader [x41; x00; x3d; xd8; x00; xde; x42])
        (utf16LE [0x41; 0x1F600] ++ [x42])
  /\ extractUTF16Buffer 2 (NewReader [x41; x00; x3d; xd8; x00; xde; x42])
     = Ok [0x41; 0xd83d; 0xde00] (mkReader [x41; x00; x3d; xd8; x00; xde; x42] 6).
Proof.
  assert (H1 : Forall scalar [0x41; 0x1F600])
    by (repeat constructor; unfold scalar, surr1, surr3; lia).
  assert (H2 : At (NewReader [x41; x00; x3d; xd8; x00; xde; x42])
                  (utf16LE [0x41; 0x1F600] ++ [x42]))
    by (split; [cbn; lia | reflexivity]).
  split; [exact H1|]. split; [exact H2|].
  exact (proj1 (extractUTF16Buffer_well_formed [0x41; 0x1F600] _ [x42] H1 H2)).
Defined.

Lemma extractUTF16Buffer_outcomes_witness :
  0 <= 1
  /\ 0 <= i (NewReader [x41; x00; x42]) <= Size (NewReader [x41; x00; x42])
  /\ extractUTF16Buffer 1 (NewReader [x41; x00; x42])
     = Ok [0x41] (mkReader [x41; x00; x42] 2)
  /\ match extractUTF16Buffer 1 (NewReader [x41; x00; x42]) with
     | Ok out r' =>
         s r' = s (NewReader [x41; x00; x42])
         /\ i (NewReader [x41; x00; x42]) + 2 * 1 <= i r'
            <= i (NewReader [x41; x00; x42]) + 4 * 1
         /\ i r' <= Size (NewReader [x41; x00; x42])
         /\ 1 <= Z.of_nat (length out) <= 2 * 1
     | Err e _ => e = EOF \/ e = ErrUnexpectedEOF
     | Panic _ => False
     end.
Proof.
  assert (H1 : 0 <= 1) by lia.
  assert (H2 : 0 <= i (NewReader [x41; x00; x42])
               <= Size (NewReader [x41; x00; x42])) by (cbn; lia).
  split; [exact H1|]. split; [exact H2|]. split; [reflexivity|].
  exact (extractUTF16Buffer_outcomes 1 (NewReader [x41; x00; x42]) H1 H2).
Defined.

(** ** GUIDs *)

Lemma field_field (off len o l : nat) (data : list byte) :
  (o + l <= len)%nat -> field o l (field off len data) = field (off + o) l data.
Proof.
  intros H. unfold field.
  rewrite skipn_firstn_comm, firstn_firstn, skipn_skipn.
  f_equal; [lia | f_equal; lia].
Qed.

Lemma field_0 (len : nat) (data : list byte) : field 0 len data = firstn len data.
Proof. reflexivity. Qed.

Lemma field_app (bs post : list byte) (pre : list byte) :
  field (length pre) (length bs) (pre ++ bs ++ post) = bs.
Proof.
  unfold field. rewrite skipn_app, skipn_all, Nat.sub_diag. cbn [app skipn].
  rewrite firstn_app, firstn_all, Nat.sub_diag. cbn [firstn]. apply app_nil_r.
Qed.

Lemma field_At (r : Reader) (bs post : list byte) :
  At r (bs ++ post) -> field (Z.to_nat (i r)) (length bs) (s r) = bs.
Proof.
  intros [Hi Hs]. unfold field. rewrite Hs.
  rewrite firstn_app, firstn_all, Nat.sub_diag. cbn [firstn]. apply app_nil_r.
Qed.

Lemma Size_At (r : Reader) (l : list byte) :
  At r l -> l <> [] -> i r + Z.of_nat (length l) = Size r.
Proof.
  intros [Hi Hs] Hne. apply (f_equal (@length byte)) in Hs.
  rewrite length_skipn in Hs. unfold Size.
  destruct l; [congruence|]. cbn [length] in *. lia.
Qed.

Lemma Size_At_le (r : Reader) (bs post : list byte) :
  At r (bs ++ post) -> bs <> [] -> i r + Z.of_nat (length bs) <= Size r.
Proof.
  intros HAt Hne. rewrite <- (Size_At r _ HAt).
  - rewrite length_app. lia.
  - destruct bs; [congruence | discriminate].
Qed.

(** [decodeEFIGUID] reads the next 16 bytes, and fails at the end of the
    stream when fewer are left. *)
Lemma decodeEFIGUID_outcomes (r : Reader) :
  0 <= i r ->
  match Efi.decodeEFIGUID r with
  | Ok g r' =>
      i r + 16 <= Size r
      /\ g = guidOf (field (Z.to_nat (i r)) 16 (s r))
      /\ r' = advance r 16
  | Err e _ => Size r < i r + 16 /\ endOfStream e
  | Panic _ => False
  end.
Proof.
  intros Hi. unfold Efi.decodeEFIGUID, bind.
  destruct (binaryRead_cases LittleEndian 4 r)
    as [[H1 ->]|[H1 (e & r' & -> & He)]]; [lia | lia | | split; [lia | exact He]].
  destruct (binaryRead_cases LittleEndian 2 (advance r 4))
    as [[H2 ->]|[H2 (e & r' & -> & He)]]; [lia | cbn [advance i]; lia | |];
    rewrite Size_advance in H2; cbn [advance i] in H2;
    [|split; [lia | exact He]].
  destruct (binaryRead_cases LittleEndian 2 (advance (advance r 4) 2))
    as [[H3 ->]|[H3 (e & r' & -> & He)]]; [lia | cbn [advance i]; lia | |];
    rewrite !Size_advance in H3; cbn [advance i] in H3;
    [|split; [lia | exact He]].
  destruct (binaryRead_cases BigEndian 2 (advance (advance (advance r 4) 2) 2))
    as [[H4 ->]|[H4 (e & r' & -> & He)]]; [lia | cbn [advance i]; lia | |];
    rewrite !Size_advance in H4; cbn [advance i] in H4;
    [|split; [lia | exact He]].
  destruct (ReadFull_cases 6 (advance (advance (advance (advance r 4) 2) 2) 2))
    as [[H5 ->]|[H5 (e & r' & -> & He)]]; [lia | cbn [advance i]; lia | |];
    rewrite !Size_advance in H5; cbn [advance i] in H5;
    [|split; [lia | exact He]].
  unfold ret. split; [lia|]. split; [|rewrite !advance_advance; reflexivity].
  cbn [advance i s]. unfold guidOf.
  change (firstn 4 (field ?o 16 ?d)) with (field 0 4 (field o 16 d)).
  change (firstn 2 (skipn 4 (field ?o 16 ?d))) with (field 4 2 (field o 16 d)).
  change (firstn 2 (skipn 6 (field ?o 16 ?d))) with (field 6 2 (field o 16 d)).
  change (firstn 2 (skipn 8 (field ?o 16 ?d))) with (field 8 2 (field o 16 d)).
  change (firstn 6 (skipn 10 (field ?o 16 ?d))) with (field 10 6 (field o 16 d)).
  rewrite !field_field by lia.
  replace (Z.to_nat (i r + 4)) with (Z.to_nat (i r) + 4)%nat by lia.
  replace (Z.to_nat (i r + 4 + 2)) with (Z.to_nat (i r) + 6)%nat by lia.
  replace (Z.to_nat (i r + 4 + 2 + 2)) with (Z.to_nat (i r) + 8)%nat by lia.
  replace (Z.to_nat (i r + 4 + 2 + 2 + 2)) with (Z.to_nat (i r) + 10)%nat by lia.
  rewrite Nat.add_0_r. reflexivity.
Qed.

Lemma decodeEFIGUID_cases (r : Reader) :
  0 <= i r ->
  (i r + 16 <= Size r
   /\ Efi.decodeEFIGUID r
      = Ok (guidOf (field (Z.to_nat (i r)) 16 (s r))) (advance r 16))
  \/ (Size r < i r + 16
      /\ exists e r', Efi.decodeEFIGUID r = Err e r' /\ endOfStream e).
Proof.
  intros Hi. pose proof (decodeEFIGUID_outcomes r Hi) as H.
  destruct (Efi.decodeEFIGUID r) as [g r'|e r'|msg]; [| |contradiction].
  - destruct H as (Hsz & -> & ->). left. now split.
  - right. destruct H as [Hsz He]. split; [exact Hsz|]. eauto.
Qed.

Lemma decodeEFIGUID_At (r : Reader) (gb post : list byte) :
  length gb = 16%nat -> At r (gb ++ post) ->
  Efi.decodeEFIGUID r = Ok (guidOf gb) (advance r 16)
  /\ At (advance r 16) post.
Proof.
  intros Hlen HAt.
  assert (Hne : gb <> []) by (intros ->; discriminate Hlen).
  pose proof (Size_At_le r gb post HAt Hne) as Hsz. rewrite Hlen in Hsz.
  pose proof (field_At r gb post HAt) as Hf. rewrite Hlen in Hf.
  destruct (decodeEFIGUID_cases r (proj1 HAt)) as [[_ HR]|[Hlt _]]; [|lia].
  rewrite Hf in HR. split; [exact HR|].
  change 16 with (Z.of_nat 16). rewrite <- Hlen. now apply At_advance.
Qed.

(** A read of the bytes that are at the cursor, of any number. *)
Lemma ReadFull_any_advance (r : Reader) (bs post : list byte) :
  At r (bs ++ post) ->
  ReadFull (Z.of_nat (length bs)) r = Ok bs (advance r (Z.of_nat (length bs)))
  /\ At (advance r (Z.of_nat (length bs))) post.
Proof.
  intros HAt. destruct bs as [|b bs].
  - cbn [length Z.of_nat]. rewrite advance_0. split; [reflexivity | exact HAt].
  - apply ReadFull_step; [exact HAt | discriminate | reflexivity].
Qed.

Lemma read_uint64 (v : Z) (r : Reader) (post : list byte) :
  0 <= v < 2 ^ 64 ->
  At r (encodeUint LittleEndian 8 v ++ post) ->
  binaryRead LittleEndian 8 r = Ok v (advance r 8) /\ At (advance r 8) post.
Proof.
  intros Hv HAt.
  destruct (binaryRead_step LittleEndian 8 r _ _ HAt) as [HR HA];
    [apply nonempty_of_length with 7%nat; apply length_encodeUint
    | now rewrite length_encodeUint |].
  rewrite Uint_encodeUint in HR by (change (256 ^ Z.of_nat 8) with (2 ^ 64); lia).
  now split.
Qed.

(** The number of bytes read, for a cursor inside the data. *)
Lemma bytesRead_inside (r : Reader) : 0 <= i r <= Size r -> bytesRead r = i r.
Proof.
  intros Hi. unfold bytesRead, Len.
  destruct (Z.geb_spec (i r) (Size r)); lia.
Qed.

Lemma bytesRead_At (r : Reader) (post : list byte) :
  At r post -> bytesRead r = Size r - Z.of_nat (length post).
Proof.
  intros HAt. unfold bytesRead. now rewrite (Len_At r post HAt).
Qed.

(** ** UEFI variable events in efi.go *)

(** X3.  A well-formed [UEFI_VARIABLE_DATA].  Event data made of a GUID
    of 16 bytes, the number of characters of the name and the length of
    the variable data as little-endian 64-bit integers, the name as
    UTF-16 of scalar values, the variable data, and any trailing bytes,
    is decoded into exactly these parts; the number of bytes read counts
    the structure and not the trailing bytes. *)
Theorem decodeEventDataEFIVariableImpl_well_formed :
  forall (gb : list byte) (rs : list Z) (v trailing : list byte)
         (eventType : EventType),
    length gb = 16%nat ->
    Forall scalar rs ->
    Z.of_nat (length rs) < 2 ^ 64 ->
    Z.of_nat (length v) <= maxAlloc ->
    let data :=
      gb ++ encodeUint LittleEndian 8 (Z.of_nat (length rs))
      ++ encodeUint LittleEndian 8 (Z.of_nat (length v))
      ++ utf16LE rs ++ v ++ trailing in
    EfiEvents.decodeEventDataEFIVariableImpl data eventType
    = Returns (Some (EfiEvents.mkEFIVariable data (guidOf gb)
                       (runesToString rs) v),
               32 + Z.of_nat (length (utf16LE rs)) + Z.of_nat (length v),
               None).
Proof.
  intros gb rs v trailing eventType Hgb Hrs Hlen Hv data.
  pose proof (At_NewReader data) as A0. unfold data at 2 in A0.
  destruct (decodeEFIGUID_At _ _ _ Hgb A0) as [R1 A1].
  destruct (read_uint64 (Z.of_nat (length rs)) _ _ ltac:(lia) A1) as [R2 A2].
  destruct (read_uint64 (Z.of_nat (length v)) _ _
              ltac:(unfold maxAlloc in Hv; lia) A2) as [R3 A3].
  destruct (extractUTF16Buffer_well_formed rs _ _ Hrs A3) as (R4 & A4 & HD).
  destruct (ReadFull_any_advance _ _ _ A4) as [R5 A5].
  unfold EfiEvents.decodeEventDataEFIVariableImpl.
  unfold bind at 1. rewrite R1. unfold bind at 1. rewrite R2.
  unfold bind at 1. rewrite R3. unfold bind at 1. rewrite R4.
  unfold bind at 1. rewrite make_ok by (unfold maxAlloc in *; lia).
  unfold bind at 1. rewrite R5. unfold ret. rewrite HD.
  rewrite (bytesRead_At _ _ A5). rewrite !Size_advance.
  replace (Size (NewReader data) - Z.of_nat (length trailing))
    with (32 + Z.of_nat (length (utf16LE rs)) + Z.of_nat (length v));
    [reflexivity|].
  unfold Size, NewReader. cbn [s]. unfold data.
  rewrite !length_app, !length_encodeUint, Hgb. lia.
Qed.

Lemma decodeEventDataEFIVariableImpl_well_formed_witness :
  length (repeat x00 16) = 16%nat
  /\ Forall scalar [0x41; 0x1F600]
  /\ Z.of_nat (length [0x41; 0x1F600]) < 2 ^ 64
  /\ Z.of_nat (length [x01; x02; x03]) <= maxAlloc
  /\ EfiEvents.decodeEventDataEFIVariableImpl
       (repeat x00 16 ++ [x02; x00; x00; x00; x00; x00; x00; x00]
        ++ [x03; x00; x00; x00; x00; x00; x00; x00]
        ++ [x41; x00; x3d; xd8; x00; xde] ++ [x01; x02; x03] ++ [xff])
       EventTypeEFIVariableBoot
     = Returns (Some (EfiEvents.mkEFIVariable
                        (repeat x00 16 ++ [x02; x00; x00; x00; x00; x00; x00; x00]
                         ++ [x03; x00; x00; x00; x00; x00; x00; x00]
                         ++ [x41; x00; x3d; xd8; x00; xde] ++ [x01; x02; x03]
                         ++ [xff])
                        (Efi.mkEFIGUID 0 0 0 0 (repeat x00 6))
                        (string_of_list_byte [x41; xf0; x9f; x98; x80])
                        [x01; x02; x03]),
                41, None).
Proof.
  assert (H1 : length (repeat x00 16) = 16%nat) by reflexivity.
  assert (H2 : Forall scalar [0x41; 0x1F600])
    by (repeat constructor; unfold scalar, surr1, surr3; lia).
  assert (H3 : Z.of_nat (length [0x41; 0x1F600]) < 2 ^ 64) by reflexivity.
  assert (H4 : Z.of_nat (length [x01; x02; x03]) <= maxAlloc) by discriminate.
  split; [exact H1|]. split; [exact H2|]. split; [exact H3|]. split; [exact H4|].
  exact (decodeEventDataEFIVariableImpl_well_formed (repeat x00 16)
           [0x41; 0x1F600] [x01; x02; x03] [xff] EventTypeEFIVariableBoot
           H1 H2 H3 H4).
Defined.

(** The cases of [decodeEventDataEFIVariableImpl], with [nameLength] and
    [dataLength] the two 64-bit fields at the offsets 16 and 24.  The
    last case is the one in which [make] refuses the length; an
    allocation that [make] accepts is taken to succeed. *)
Lemma decodeEventDataEFIVariableImpl_cases :
  forall (data : list byte) (eventType : EventType),
    let nameLength := leUint (field 16 8 data) in
    let dataLength := leUint (field 24 8 data) in
    match EfiEvents.decodeEventDataEFIVariableImpl data eventType with
    | Returns (Some d, n, None) =>
        EfiEvents.EFIVariableEventData_Bytes d = data
        /\ EfiEvents.VariableName d = guidOf (field 0 16 data)
        /\ EfiEvents.VariableData d
           = field (Z.to_nat (n - dataLength)) (Z.to_nat dataLength) data
        /\ Z.of_nat (length (EfiEvents.VariableData d)) = dataLength
        /\ 32 + 2 * nameLength + dataLength <= n
           <= 32 + 4 * nameLength + dataLength
        /\ n <= Z.of_nat (length data)
    | Returns (None, n, Some e) => n = 0 /\ (e = EOF \/ e = ErrUnexpectedEOF)
    | Returns _ => False
    | Panics _ => 32 <= Z.of_nat (length data) /\ maxAlloc < dataLength
    end.
Proof.
  intros data eventType nameLength dataLength.
  unfold EfiEvents.decodeEventDataEFIVariableImpl, bind.
  destruct (decodeEFIGUID_cases (NewReader data))
    as [[H1 ->]|[H1 (e & r' & -> & He)]]; [cbn; lia | | now split].
  destruct (binaryRead_cases LittleEndian 8 (advance (NewReader data) 16))
    as [[H2 ->]|[H2 (e & r' & -> & He)]]; [lia | cbn; lia | | now split].
  destruct (binaryRead_cases LittleEndian 8
              (advance (advance (NewReader data) 16) 8))
    as [[H3 ->]|[H3 (e & r' & -> & He)]]; [lia | cbn; lia | | now split].
  rewrite !Size_advance in *. unfold Size in H1, H2, H3.
  cbn [advance NewReader i s] in H1, H2, H3 |- *.
  change (Z.to_nat (0 + 16)) with 16%nat.
  change (Z.to_nat (0 + 16 + 8)) with 24%nat.
  change (Z.to_nat 8) with 8%nat. change (Z.to_nat 0) with 0%nat.
  change (Uint LittleEndian (field 16 8 data)) with nameLength.
  change (Uint LittleEndian (field 24 8 data)) with dataLength.
  assert (Hname : 0 <= nameLength) by apply leUint_nonneg.
  assert (Hdata : 0 <= dataLength) by apply leUint_nonneg.
  pose proof (extractUTF16Buffer_outcomes nameLength
                (mkReader data (0 + 16 + 8 + 8)) Hname) as Hx.
  destruct (extractUTF16Buffer nameLength _) as [utf16Name r4|e r4|msg];
    [|split; [reflexivity | apply Hx; unfold Size; cbn [s i]; lia]
     |exfalso; apply Hx; unfold Size; cbn [s i]; lia].
  destruct Hx as (Hs & Hpos & Hend & _); [unfold Size; cbn [s i]; lia|].
  unfold Size in Hend. cbn [s i] in Hs, Hpos, Hend.
  unfold make.
  destruct ((dataLength >=? 2 ^ 63) || (1 * dataLength >? maxAlloc)) eqn:Hmake.
  { split; [lia|]. apply orb_true_iff in Hmake.
    rewrite Z.geb_leb, Z.gtb_ltb in Hmake. unfold maxAlloc.
    destruct Hmake as [H|H]; [apply Z.leb_le in H | apply Z.ltb_lt in H];
      unfold maxAlloc in *; lia. }
  destruct (ReadFull_cases_any dataLength r4)
    as [[H5 (bs & -> & Hlen & Hbs)]|[H5 (e & r' & -> & He)]];
    [lia | lia | unfold Size; rewrite Hs; lia | | now split].
  unfold Size in H5. rewrite Hs in H5. unfold ret.
  rewrite bytesRead_inside
    by (rewrite Size_advance; unfold Size; rewrite Hs; cbn [advance i]; lia).
  cbn [advance i EfiEvents.EFIVariableEventData_Bytes EfiEvents.variableData_
       EfiEvents.VariableName EfiEvents.VariableData].
  split; [reflexivity|]. split; [reflexivity|].
  split; [|split; [exact Hlen | split; lia]].
  rewrite Hbs, Hs. f_equal. lia.
Qed.

(** Event data that stops short of its name gives an error, and no
    event. *)
Example decodeEventDataEFIVariableImpl_truncated :
  EfiEvents.decodeEventDataEFIVariableImpl
    (repeat x00 16 ++ [x02; x00; x00; x00; x00; x00; x00; x00]
     ++ [x03; x00; x00; x00; x00; x00; x00; x00] ++ [x41; x00; x3d])
    EventTypeEFIVariableBoot
  = Returns (None, 0, Some ErrUnexpectedEOF).
Proof. reflexivity. Qed.

(** ** Device paths that end with the End-of-Hardware node *)

Lemma Efi_readDevicePathLoop_terminated (nodes : list rawNode) (eoh : rawNode)
    (post : list byte) :
  Forall pathNode nodes -> endNode eoh ->
  forall (stream : Reader) (root : list efiDevicePathNode),
    At stream (concat (map (encodeNode LittleEndian) nodes)
               ++ encodeNode LittleEndian eoh ++ post) ->
    Efi.readDevicePathLoop stream root = Returns (root ++ map decodedNode nodes).
Proof.
  intros Hnodes [Heoh Hlen0].
  induction Hnodes as [|n nodes [Ht Hlen] _ IH]; intros stream root HAt;
    rewrite Efi_readDevicePathLoop_unfold.
  - cbn [map concat app] in HAt.
    destruct (Efi_readDevicePathNode_encoded stream eoh _ HAt Hlen0)
      as [r' [-> HAt']].
    cbn [decodedNode t]. rewrite Heoh, Z.eqb_refl. now rewrite app_nil_r.
  - cbn [map concat] in HAt. rewrite <- app_assoc in HAt.
    destruct (Efi_readDevicePathNode_encoded stream n _ HAt Hlen)
      as [r' [-> HAt']].
    cbn [decodedNode t].
    destruct (Z.eqb_spec (byteZ (rawType n)) efiDevicePathNodeEoH);
      [contradiction|].
    rewrite (IH _ _ HAt'). cbn [map]. now rewrite <- app_assoc.
Qed.

Lemma EventData_readDevicePathLoop_terminated (order : ByteOrder)
    (nodes : list rawNode) (eoh : rawNode) (post : list byte) :
  Forall pathNode nodes -> endNode eoh ->
  forall (stream : Reader) (rootNode : list efiDevicePathNode),
    At stream (concat (map (encodeNode order) nodes)
               ++ encodeNode order eoh ++ post) ->
    EventData.readDevicePathLoop order stream rootNode
    = Returns (Some (rootNode ++ map decodedNode nodes)).
Proof.
  intros Hnodes [Heoh Hlen0].
  induction Hnodes as [|n nodes [Ht Hlen] _ IH]; intros stream root HAt;
    rewrite EventData_readDevicePathLoop_unfold.
  - cbn [map concat app] in HAt.
    destruct (EventData_readDevicePathNode_encoded order stream eoh _ HAt Hlen0)
      as [r' [-> HAt']].
    cbn [decodedNode t]. rewrite Heoh, Z.eqb_refl. now rewrite app_nil_r.
  - cbn [map concat] in HAt. rewrite <- app_assoc in HAt.
    destruct (EventData_readDevicePathNode_encoded order stream n _ HAt Hlen)
      as [r' [-> HAt']].
    cbn [decodedNode t].
    destruct (Z.eqb_spec (byteZ (rawType n)) efiDevicePathNodeEoH);
      [contradiction|].
    rewrite (IH _ _ HAt'). cbn [map]. now rewrite <- app_assoc.
Qed.

(** X5.  A device path in efi.go.  On the stream form of nodes none of
    which is the End-of-Hardware node, followed by an End-of-Hardware
    node and by anything, [readDevicePath] returns exactly these nodes,
    in their order, with their types, sub-types and data; what follows
    the End-of-Hardware node is not looked at. *)
Theorem Efi_readDevicePath_terminated :
  forall (nodes : list rawNode) (eoh : rawNode) (post : list byte),
    Forall pathNode nodes ->
    endNode eoh ->
    Efi.readDevicePath (concat (map (encodeNode LittleEndian) nodes)
                        ++ encodeNode LittleEndian eoh ++ post)
    = Returns (map decodedNode nodes).
Proof.
  intros nodes eoh post Hnodes Heoh. unfold Efi.readDevicePath.
  now rewrite (Efi_readDevicePathLoop_terminated nodes eoh post Hnodes Heoh
                 _ [] (At_NewReader _)).
Qed.

(** X6.  A device path in eventdata.go.  In either byte order, on the
    stream form of nodes none of which is the End-of-Hardware node,
    followed by an End-of-Hardware node and by anything, [readDevicePath]
    returns a path with exactly these nodes, in their order. *)
Theorem EventData_readDevicePath_terminated :
  forall (order : ByteOrder) (nodes : list rawNode) (eoh : rawNode)
         (post : list byte),
    Forall pathNode nodes ->
    endNode eoh ->
    EventData.readDevicePath
      (concat (map (encodeNode order) nodes) ++ encodeNode order eoh ++ post)
      order
    = Returns (Some (map decodedNode nodes)).
Proof.
  intros order nodes eoh post Hnodes Heoh. unfold EventData.readDevicePath.
  now rewrite (EventData_readDevicePathLoop_terminated order nodes eoh post
                 Hnodes Heoh _ [] (At_NewReader _)).
Qed.

(** A PCI node and a file-path node, then the End-of-Hardware node and
    two more bytes. *)
Lemma Efi_readDevicePath_terminated_witness :
  Forall pathNode [mkRawNode x01 x01 [x00; x1f]; mkRawNode x04 x04 [x41; x00]]
  /\ endNode (mkRawNode x7f xff [])
  /\ Efi.readDevicePath
       [x01; x01; x06; x00; x00; x1f; x04; x04; x06; x00; x41; x00;
        x7f; xff; x04; x00; xaa; xbb]
     = Returns [mkNode 1 1 [x00; x1f]; mkNode 4 4 [x41; x00]].
Proof.
  assert (H1 : Forall pathNode
                 [mkRawNode x01 x01 [x00; x1f]; mkRawNode x04 x04 [x41; x00]])
    by (repeat constructor; discriminate).
  assert (H2 : endNode (mkRawNode x7f xff [])) by (split; reflexivity).
  split; [exact H1|]. split; [exact H2|].
  exact (Efi_readDevicePath_terminated _ _ [xaa; xbb] H1 H2).
Defined.

Lemma EventData_readDevicePath_terminated_witness :
  Forall pathNode [mkRawNode x01 x01 [x00; x1f]; mkRawNode x04 x04 [x41; x00]]
  /\ endNode (mkRawNode x7f xff [])
  /\ EventData.readDevicePath
       [x01; x01; x00; x06; x00; x1f; x04; x04; x00; x06; x41; x00;
        x7f; xff; x00; x04; xaa; xbb] BigEndian
     = Returns (Some [mkNode 1 1 [x00; x1f]; mkNode 4 4 [x41; x00]]).
Proof.
  assert (H1 : Forall pathNode
                 [mkRawNode x01 x01 [x00; x1f]; mkRawNode x04 x04 [x41; x00]])
    by (repeat constructor; discriminate).
  assert (H2 : endNode (mkRawNode x7f xff [])) by (split; reflexivity).
  split; [exact H1|]. split; [exact H2|].
  exact (EventData_readDevicePath_terminated BigEndian _ _ [xaa; xbb] H1 H2).
Defined.

(** ** The node readers on any stream *)

Lemma make_small (elemSize n : Z) (r : Reader) :
  0 <= n < 65536 -> 0 <= elemSize <= 65536 -> make elemSize n r = Ok tt r.
Proof.
  intros Hn He. apply make_ok; [lia | unfold maxAlloc; nia | lia].
Qed.

(** What the node reader of efi.go does on any stream: a node that it
    returns took at least four bytes, all inside the data; it does not
    panic. *)
Lemma Efi_readDevicePathNode_outcomes (r : Reader) :
  0 <= i r ->
  match Efi.readDevicePathNode r with
  | Returns (Some n, r') =>
      s r' = s r /\ i r + 4 <= i r' <= Size r
      /\ 4 <= Uint LittleEndian (field (Z.to_nat (i r) + 2) 2 (s r))
      /\ i r' = i r + Uint LittleEndian (field (Z.to_nat (i r) + 2) 2 (s r))
  | Returns (None, _) => True
  | Panics _ => False
  end.
Proof.
  intros Hi. unfold Efi.readDevicePathNode, bindNil.
  destruct (binaryRead_cases LittleEndian 1 r)
    as [[H1 ->]|[H1 (e & r' & -> & He)]]; [lia | lia | | exact I].
  destruct (binaryRead_cases LittleEndian 1 (advance r 1))
    as [[H2 ->]|[H2 (e & r' & -> & He)]]; [lia | cbn; lia | | exact I].
  destruct (binaryRead_cases LittleEndian 2 (advance (advance r 1) 1))
    as [[H3 ->]|[H3 (e & r' & -> & He)]]; [lia | cbn; lia | | exact I].
  rewrite !Size_advance in *. cbn [advance i s] in *.
  replace (Z.to_nat (i r + 1 + 1)) with (Z.to_nat (i r) + 2)%nat by lia.
  change (Z.to_nat 2) with 2%nat.
  pose proof (Uint_field_range LittleEndian (Z.to_nat (i r) + 2) 2 (s r)) as Hl.
  change (256 ^ Z.of_nat 2) with 65536 in Hl.
  set (len := Uint LittleEndian (field (Z.to_nat (i r) + 2) 2 (s r))) in *.
  destruct (Z.ltb_spec len 4); [exact I|].
  rewrite make_small by lia.
  destruct (ReadFull_cases_any (len - 4) (advance (advance (advance r 1) 1) 2))
    as [[H5 (bs & -> & Hlen & Hbs)]|[H5 (e & r' & -> & He)]];
    [lia | cbn; lia | rewrite !Size_advance; cbn [advance i]; lia | | exact I].
  rewrite !Size_advance in H5. cbn [advance i] in H5.
  unfold retG. cbn [advance s i]. repeat split; lia.
Qed.

(** The same for the node reader of eventdata.go, which takes the
    length field less 4 in 16 bits. *)
Lemma EventData_readDevicePathNode_outcomes (order : ByteOrder) (r : Reader) :
  0 <= i r ->
  match EventData.readDevicePathNode order r with
  | Returns (Some n, r') => s r' = s r /\ i r + 4 <= i r' <= Size r
  | Returns (None, _) => True
  | Panics _ => False
  end.
Proof.
  intros Hi. unfold EventData.readDevicePathNode, bindNil.
  destruct (binaryRead_cases order 1 r)
    as [[H1 ->]|[H1 (e & r' & -> & He)]]; [lia | lia | | exact I].
  destruct (binaryRead_cases order 1 (advance r 1))
    as [[H2 ->]|[H2 (e & r' & -> & He)]]; [lia | cbn; lia | | exact I].
  destruct (binaryRead_cases order 2 (advance (advance r 1) 1))
    as [[H3 ->]|[H3 (e & r' & -> & He)]]; [lia | cbn; lia | | exact I].
  rewrite !Size_advance in *. cbn [advance i s] in *.
  set (len := uint16 (_ - 4)).
  assert (Hl : 0 <= len < 65536)
    by (apply (Z.mod_pos_bound _ (2 ^ 16)); reflexivity).
  destruct (Z.gtb_spec len 0).
  - rewrite make_small by lia.
    destruct (ReadFull_cases_any len (advance (advance (advance r 1) 1) 2))
      as [[H5 (bs & -> & Hlen & Hbs)]|[H5 (e & r' & -> & He)]];
      [lia | cbn; lia | rewrite !Size_advance; cbn [advance i]; lia | | exact I].
    rewrite !Size_advance in H5. cbn [advance i] in H5.
    unfold retG. cbn [advance s i]. repeat split; lia.
  - unfold retG. cbn [advance s i]. repeat split; lia.
Qed.

Lemma Efi_readDevicePathLoop_returns (k : nat) :
  forall (stream : Reader) (root : list efiDevicePathNode),
    0 <= i stream -> Size stream - i stream < Z.of_nat k ->
    exists path, Efi.readDevicePathLoop stream root = Returns path.
Proof.
  induction k as [|k IH]; intros stream root Hi Hk.
  - rewrite Efi_readDevicePathLoop_unfold.
    pose proof (Efi_readDevicePathNode_outcomes stream Hi) as H.
    destruct (Efi.readDevicePathNode stream) as [[[n|] r']|msg];
      [lia | eauto | contradiction].
  - rewrite Efi_readDevicePathLoop_unfold.
    pose proof (Efi_readDevicePathNode_outcomes stream Hi) as H.
    destruct (Efi.readDevicePathNode stream) as [[[n|] r']|msg];
      [| eauto | contradiction].
    destruct H as (Hs & Hpos & _).
    destruct (t n =? efiDevicePathNodeEoH); [eauto|].
    apply IH; [lia|]. unfold Size in *. rewrite Hs. lia.
Qed.

Lemma EventData_readDevicePathLoop_returns (order : ByteOrder) (k : nat) :
  forall (stream : Reader) (rootNode : list efiDevicePathNode),
    0 <= i stream -> Size stream - i stream < Z.of_nat k ->
    exists path,
      EventData.readDevicePathLoop order stream rootNode = Returns path.
Proof.
  induction k as [|k IH]; intros stream root Hi Hk.
  - rewrite EventData_readDevicePathLoop_unfold.
    pose proof (EventData_readDevicePathNode_outcomes order stream Hi) as H.
    destruct (EventData.readDevicePathNode order stream) as [[[n|] r']|msg];
      [lia | eauto | contradiction].
  - rewrite EventData_readDevicePathLoop_unfold.
    pose proof (EventData_readDevicePathNode_outcomes order stream Hi) as H.
    destruct (EventData.readDevicePathNode order stream) as [[[n|] r']|msg];
      [| eauto | contradiction].
    destruct H as (Hs & Hpos).
    destruct (t n =? efiDevicePathNodeEoH); [eauto|].
    apply IH; [lia|]. unfold Size in *. rewrite Hs. lia.
Qed.

(** X7.  The device-path readers never panic.  Whatever the bytes, and
    in either byte order, [readDevicePath] of efi.go and of eventdata.go
    return: the buffer of a node is allocated with a length below 65536,
    and every round of the loop consumes at least four bytes. *)
Theorem readDevicePath_returns :
  forall (data : list byte) (order : ByteOrder),
    (exists path, Efi.readDevicePath data = Returns path)
    /\ (exists path, EventData.readDevicePath data order = Returns path).
Proof.
  intros data order. split.
  - apply (Efi_readDevicePathLoop_returns (S (length data))).
    + cbn. lia.
    + unfold Size. cbn [NewReader s i]. lia.
  - apply (EventData_readDevicePathLoop_returns order (S (length data))).
    + cbn. lia.
    + unfold Size. cbn [NewReader s i]. lia.
Qed.

(** ** The two node readers side by side *)

(** A node that the reader of efi.go returns is returned by the reader
    of eventdata.go too, reading little-endian, from the same bytes. *)
Lemma readDevicePathNode_siblings (r r' : Reader) (n : efiDevicePathNode) :
  0 <= i r ->
  Efi.readDevicePathNode r = Returns (Some n, r') ->
  EventData.readDevicePathNode LittleEndian r = Returns (Some n, r').
Proof.
  intros Hi. unfold Efi.readDevicePathNode, EventData.readDevicePathNode, bindNil.
  destruct (binaryRead_cases LittleEndian 1 r)
    as [[H1 ->]|[H1 (e & r1 & -> & He)]]; [lia | lia | | discriminate].
  destruct (binaryRead_cases LittleEndian 1 (advance r 1))
    as [[H2 ->]|[H2 (e & r1 & -> & He)]]; [lia | cbn; lia | | discriminate].
  destruct (binaryRead_cases LittleEndian 2 (advance (advance r 1) 1))
    as [[H3 ->]|[H3 (e & r1 & -> & He)]]; [lia | cbn; lia | | discriminate].
  pose proof (Uint_field_range LittleEndian
                (Z.to_nat (i (advance (advance r 1) 1))) (Z.to_nat 2)
                (s (advance (advance r 1) 1))) as Hl.
  change (256 ^ Z.of_nat (Z.to_nat 2)) with 65536 in Hl.
  set (len := Uint LittleEndian _) in *.
  destruct (Z.ltb_spec len 4); [discriminate|].
  replace (uint16 (len - 4)) with (len - 4)
    by (unfold uint16, uintN; rewrite Z.mod_small; [reflexivity|];
        change (2 ^ 16) with 65536; lia).
  rewrite make_small by lia.
  destruct (Z.gtb_spec (len - 4) 0) as [Hpos|Hzero].
  - rewrite make_small by lia. tauto.
  - replace (len - 4) with 0 by lia.
    change (ReadFull 0) with (fun r0 : Reader => Ok (@nil byte) r0).
    cbv beta. tauto.
Qed.

Lemma readDevicePathLoop_siblings (k : nat) :
  forall (stream : Reader) (root path : list efiDevicePathNode),
    0 <= i stream -> Size stream - i stream < Z.of_nat k ->
    Efi.readDevicePathLoop stream root = Returns path ->
    path <> [] ->
    EventData.readDevicePathLoop LittleEndian stream root = Returns (Some path).
Proof.
  induction k as [|k IH]; intros stream root path Hi Hk;
    rewrite Efi_readDevicePathLoop_unfold, EventData_readDevicePathLoop_unfold;
    pose proof (Efi_readDevicePathNode_outcomes stream Hi) as H;
    pose proof (readDevicePathNode_siblings stream) as Hsib;
    destruct (Efi.readDevicePathNode stream) as [[[n|] r']|msg];
    try contradiction; try (intros Hp; inversion Hp; congruence).
  - lia.
  - rewrite (Hsib r' n Hi eq_refl). destruct H as (Hs & Hpos & _).
    destruct (t n =? efiDevicePathNodeEoH).
    + intros Hp _. now inversion Hp.
    + apply IH; [lia|]. unfold Size in *. rewrite Hs. lia.
Qed.

(** X8.  The two device-path readers agree on what efi.go accepts.  A
    path that [readDevicePath] of efi.go returns with at least one node
    is the path that [readDevicePath] of eventdata.go returns from the
    same bytes, reading little-endian. *)
Theorem readDevicePath_siblings :
  forall (data : list byte) (path : list efiDevicePathNode),
    Efi.readDevicePath data = Returns path ->
    path <> [] ->
    EventData.readDevicePath data LittleEndian = Returns (Some path).
Proof.
  intros data path. unfold Efi.readDevicePath, EventData.readDevicePath.
  apply (readDevicePathLoop_siblings (S (length data))).
  - cbn. lia.
  - unfold Size. cbn [NewReader s i]. lia.
Qed.

Lemma readDevicePath_siblings_witness :
  Efi.readDevicePath [x01; x01; x06; x00; x00; x1f; x7f; xff; x04; x00]
  = Returns [mkNode 1 1 [x00; x1f]]
  /\ [mkNode 1 1 [x00; x1f]] <> []
  /\ EventData.readDevicePath
       [x01; x01; x06; x00; x00; x1f; x7f; xff; x04; x00] LittleEndian
     = Returns (Some [mkNode 1 1 [x00; x1f]]).
Proof.
  assert (H1 : Efi.readDevicePath
                 [x01; x01; x06; x00; x00; x1f; x7f; xff; x04; x00]
               = Returns [mkNode 1 1 [x00; x1f]]) by (vm_compute; reflexivity).
  assert (H2 : [mkNode 1 1 [x00; x1f]] <> []) by discriminate.
  split; [exact H1|]. split; [exact H2|].
  exact (readDevicePath_siblings _ _ H1 H2).
Defined.

(** ** Image-load events that are well formed *)

(** The fields of an image-load event and its device path, with the
    stream behind them. *)
Lemma read_image_load (order : ByteOrder) (loc len link : Z)
    (path trailing : list byte) :
  0 <= loc < 2 ^ 64 -> 0 <= len < 2 ^ 64 -> 0 <= link < 2 ^ 64 ->
  Z.of_nat (length path) <= maxAlloc ->
  let data := encodeImageLoad order loc len link path ++ trailing in
  let r1 := advance (NewReader data) 8 in
  let r2 := advance r1 8 in
  let r3 := advance r2 8 in
  let r4 := advance r3 8 in
  let r5 := advance r4 (Z.of_nat (length path)) in
  binaryRead order 8 (NewReader data) = Ok loc r1
  /\ binaryRead order 8 r1 = Ok len r2
  /\ binaryRead order 8 r2 = Ok link r3
  /\ binaryRead order 8 r3 = Ok (Z.of_nat (length path)) r4
  /\ make 1 (Z.of_nat (length path)) r4 = Ok tt r4
  /\ ReadFull (Z.of_nat (length path)) r4 = Ok path r5
  /\ bytesRead r5 = 32 + Z.of_nat (length path).
Proof.
  intros Hloc Hlen Hlink Hmax data r1 r2 r3 r4 r5.
  assert (H8 : forall v, encodeUint order 8 v <> [])
    by (intros v; apply nonempty_of_length with 7%nat; apply length_encodeUint).
  assert (L8 : forall v, 8 = Z.of_nat (length (encodeUint order 8 v)))
    by (intros v; now rewrite length_encodeUint).
  pose proof (At_NewReader data) as A0. unfold data at 2 in A0.
  unfold encodeImageLoad in A0. rewrite <- !app_assoc in A0.
  destruct (binaryRead_step order 8 _ _ _ A0 (H8 _) (L8 _)) as [R1 A1].
  destruct (binaryRead_step order 8 _ _ _ A1 (H8 _) (L8 _)) as [R2 A2].
  destruct (binaryRead_step order 8 _ _ _ A2 (H8 _) (L8 _)) as [R3 A3].
  destruct (binaryRead_step order 8 _ _ _ A3 (H8 _) (L8 _)) as [R4 A4].
  rewrite Uint_encodeUint in R1, R2, R3, R4
    by (change (256 ^ Z.of_nat 8) with (2 ^ 64); unfold maxAlloc in Hmax; lia).
  destruct (ReadFull_any_advance _ _ _ A4) as [R5 A5].
  repeat (split; [eassumption|]).
  split; [apply make_ok; unfold maxAlloc in *; lia|].
  split; [exact R5|].
  subst r5 r4 r3 r2 r1. rewrite (bytesRead_At _ _ A5), !Size_advance.
  unfold Size, NewReader. cbn [s]. unfold data, encodeImageLoad.
  rewrite !length_app, !length_encodeUint. lia.
Qed.

(** X9.  A well-formed image-load event in efi.go.  Event data made of
    the three 64-bit addresses, the length of the device path, a device
    path that ends with an End-of-Hardware node, and any trailing bytes,
    is decoded with these addresses and the nodes of the path; the error
    is [nil], and the number of bytes read is 32 and the length of the
    device path, without the trailing bytes. *)
Theorem Efi_decodeEventDataEFIImageLoadImpl_well_formed :
  forall (loc len link : Z) (nodes : list rawNode) (eoh : rawNode)
         (post trailing : list byte),
    0 <= loc < 2 ^ 64 -> 0 <= len < 2 ^ 64 -> 0 <= link < 2 ^ 64 ->
    Forall pathNode nodes ->
    endNode eoh ->
    let path :=
      concat (map (encodeNode LittleEndian) nodes)
      ++ encodeNode LittleEndian eoh ++ post in
    Z.of_nat (length path) <= maxAlloc ->
    let data := encodeImageLoad LittleEndian loc len link path ++ trailing in
    Efi.decodeEventDataEFIImageLoadImpl data
    = Returns (Some (mkImageLoad data loc len link (map decodedNode nodes)),
               32 + Z.of_nat (length path), None).
Proof.
  intros loc len link nodes eoh post trailing Hloc Hlen Hlink Hnodes Heoh path
    Hmax data.
  destruct (read_image_load LittleEndian loc len link path trailing
              Hloc Hlen Hlink Hmax)
    as (R1 & R2 & R3 & R4 & Rm & R5 & Hn).
  fold data in R1, R2, R3, R4, Rm, R5, Hn.
  unfold Efi.decodeEventDataEFIImageLoadImpl, bind.
  rewrite R1, R2, R3, R4, Rm, R5. unfold Efi.readDevicePath, path at 1.
  rewrite (Efi_readDevicePathLoop_terminated nodes eoh post Hnodes Heoh
             _ [] (At_NewReader _)).
  now rewrite Hn.
Qed.

Lemma Efi_decodeEventDataEFIImageLoadImpl_well_formed_witness :
  0 <= 0x1000 < 2 ^ 64 /\ 0 <= 0x200 < 2 ^ 64 /\ 0 <= 0 < 2 ^ 64
  /\ Forall pathNode [mkRawNode x01 x01 [x00; x1f]]
  /\ endNode (mkRawNode x7f xff [])
  /\ Z.of_nat (length (concat (map (encodeNode LittleEndian)
                                  [mkRawNode x01 x01 [x00; x1f]])
                       ++ encodeNode LittleEndian (mkRawNode x7f xff []) ++ []))
     <= maxAlloc
  /\ Efi.decodeEventDataEFIImageLoadImpl
       ([x00; x10; x00; x00; x00; x00; x00; x00;
         x00; x02; x00; x00; x00; x00; x00; x00;
         x00; x00; x00; x00; x00; x00; x00; x00;
         x0a; x00; x00; x00; x00; x00; x00; x00;
         x01; x01; x06; x00; x00; x1f; x7f; xff; x04; x00] ++ [xee])
     = Returns (Some (mkImageLoad
                        ([x00; x10; x00; x00; x00; x00; x00; x00;
                          x00; x02; x00; x00; x00; x00; x00; x00;
                          x00; x00; x00; x00; x00; x00; x00; x00;
                          x0a; x00; x00; x00; x00; x00; x00; x00;
                          x01; x01; x06; x00; x00; x1f; x7f; xff; x04; x00]
                         ++ [xee])
                        0x1000 0x200 0 [mkNode 1 1 [x00; x1f]]),
                42, None).
Proof.
  assert (H1 : 0 <= 0x1000 < 2 ^ 64) by lia.
  assert (H2 : 0 <= 0x200 < 2 ^ 64) by lia.
  assert (H3 : 0 <= 0 < 2 ^ 64) by lia.
  assert (H4 : Forall pathNode [mkRawNode x01 x01 [x00; x1f]])
    by (repeat constructor; discriminate).
  assert (H5 : endNode (mkRawNode x7f xff [])) by (split; reflexivity).
  assert (H6 : Z.of_nat (length (concat (map (encodeNode LittleEndian)
                                           [mkRawNode x01 x01 [x00; x1f]])
                                 ++ encodeNode LittleEndian (mkRawNode x7f xff [])
                                 ++ []))
               <= maxAlloc) by discriminate.
  repeat (split; [assumption|]).
  exact (Efi_decodeEventDataEFIImageLoadImpl_well_formed 0x1000 0x200 0
           [mkRawNode x01 x01 [x00; x1f]] (mkRawNode x7f xff []) [] [xee]
           H1 H2 H3 H4 H5 H6).
Defined.

(** The cases of [decodeEventDataEFIImageLoadImpl] of efi.go, with
    [devicePathLength] the 64-bit field at the offset 24.  The last case
    is the one in which [make] refuses the length; an allocation that
    [make] accepts is taken to succeed. *)
Lemma Efi_decodeEventDataEFIImageLoadImpl_cases :
  forall data : list byte,
    let devicePathLength := leUint (field 24 8 data) in
    match Efi.decodeEventDataEFIImageLoadImpl data with
    | Returns (Some d, n, None) =>
        imageLoadData d = data
        /\ LocationInMemory d = leUint (field 0 8 data)
        /\ LengthInMemory d = leUint (field 8 8 data)
        /\ LinkTimeAddress d = leUint (field 16 8 data)
        /\ Efi.readDevicePath (field 32 (Z.to_nat devicePathLength) data)
           = Returns (Path d)
        /\ n = 32 + devicePathLength
        /\ n <= Z.of_nat (length data)
    | Returns (None, n, Some e) => n = 0 /\ (e = EOF \/ e = ErrUnexpectedEOF)
    | Returns _ => False
    | Panics _ => 32 <= Z.of_nat (length data) /\ maxAlloc < devicePathLength
    end.
Proof.
  intros data devicePathLength.
  unfold Efi.decodeEventDataEFIImageLoadImpl, bind.
  destruct (binaryRead_cases LittleEndian 8 (NewReader data))
    as [[H1 ->]|[H1 (e & r' & -> & He)]]; [lia | cbn; lia | | now split].
  destruct (binaryRead_cases LittleEndian 8 (advance (NewReader data) 8))
    as [[H2 ->]|[H2 (e & r' & -> & He)]]; [lia | cbn; lia | | now split].
  destruct (binaryRead_cases LittleEndian 8
              (advance (advance (NewReader data) 8) 8))
    as [[H3 ->]|[H3 (e & r' & -> & He)]]; [lia | cbn; lia | | now split].
  destruct (binaryRead_cases LittleEndian 8
              (advance (advance (advance (NewReader data) 8) 8) 8))
    as [[H4 ->]|[H4 (e & r' & -> & He)]]; [lia | cbn; lia | | now split].
  rewrite !Size_advance in *. unfold Size in H1, H2, H3, H4.
  cbn [advance NewReader i s] in H1, H2, H3, H4 |- *.
  change (Z.to_nat (0 + 8)) with 8%nat.
  change (Z.to_nat (0 + 8 + 8)) with 16%nat.
  change (Z.to_nat (0 + 8 + 8 + 8)) with 24%nat.
  change (Z.to_nat 8) with 8%nat. change (Z.to_nat 0) with 0%nat.
  change (Uint LittleEndian (field 24 8 data)) with devicePathLength.
  assert (Hlen : 0 <= devicePathLength) by apply leUint_nonneg.
  unfold make.
  destruct ((devicePathLength >=? 2 ^ 63) || (1 * devicePathLength >? maxAlloc))
    eqn:Hmake.
  { split; [lia|]. apply orb_true_iff in Hmake.
    rewrite Z.geb_leb, Z.gtb_ltb in Hmake.
    destruct Hmake as [H|H]; [apply Z.leb_le in H | apply Z.ltb_lt in H];
      unfold maxAlloc in *; lia. }
  match goal with
  | |- context [ReadFull devicePathLength ?r] =>
      destruct (ReadFull_cases_any devicePathLength r)
        as [[H5 (bs & -> & Hbl & Hbs)]|[H5 (e & r' & -> & He)]];
        [lia | cbn; lia | unfold Size; cbn [advance NewReader s i]; lia |
        | now split]
  end.
  unfold Size in H5. cbn [advance NewReader s i] in H5, Hbs.
  change (Z.to_nat (0 + 8 + 8 + 8 + 8)) with 32%nat in Hbs.
  destruct (Efi_readDevicePathLoop_returns (S (length bs)) (NewReader bs) [])
    as [path Hpath]; [cbn; lia | unfold Size; cbn [NewReader s i]; lia |].
  unfold Efi.readDevicePath at 1. rewrite Hpath.
  rewrite bytesRead_inside
    by (rewrite !Size_advance; unfold Size; cbn [advance NewReader s i]; lia).
  cbn [advance NewReader i imageLoadData LocationInMemory LengthInMemory LinkTimeAddress
       Path].
  repeat (split; [reflexivity|]).
  split; [rewrite <- Hbs; exact Hpath|]. split; lia.
Qed.

(** ** What [makeEventData] returns *)

(** One more step of a decoder of eventdata.go whose result is known:
    the next read is told apart. *)
Ltac decoded_step H :=
  match type of H with
  | context [match binaryRead ?o ?n ?r with _ => _ end] =>
      destruct (binaryRead o n r) eqn:?
  | context [match ReadFull ?n ?r with _ => _ end] =>
      destruct (ReadFull n r) eqn:?
  | context [match make ?k ?n ?r with _ => _ end] =>
      destruct (make k n r) eqn:?
  | context [match EventData.readEFIGUID ?o ?r with _ => _ end] =>
      destruct (EventData.readEFIGUID o r) eqn:?
  | context [match decodeUTF16ToString ?n ?o ?r with _ => _ end] =>
      destruct (decodeUTF16ToString n o r) eqn:?
  | context [match EventData.readDevicePath ?b ?o with _ => _ end] =>
      destruct (EventData.readDevicePath b o) as [[?|]|] eqn:?
  | context [match EventData.readDigestSizes ?o ?n ?a ?r with _ => _ end] =>
      destruct (EventData.readDigestSizes o n a r) as [[[?|] ?]|] eqn:?
  end; cbv beta iota in H; try discriminate H.

Ltac decoded H :=
  unfold EventData.runNil, bindNil, bindSome, retG in H; repeat decoded_step H.

Section Events.

Context {X : Externals}.

(** An event that has measured bytes measures its raw bytes, unless it
    is a kernel command line or a GRUB command. *)
Lemma MeasuredBytes_raw (e : EventData.EventData) (m : list byte) :
  EventData.MeasuredBytes e = Some m ->
  m = EventData.RawBytes e
  \/ (exists k, e = EventData.KernelCmdline k)
  \/ (exists g, e = EventData.GrubCmd g).
Proof.
  destruct e as [e|e|e|e|e|e|e|e]; cbn; try discriminate; eauto.
  - unfold EventData.SeparatorEventData.MeasuredBytes.
    destruct (EventData.SeparatorEventData.Type_ e); [|discriminate].
    intros H. inversion H. now left.
  - unfold EventData.AsciiStringEventData.MeasuredBytes.
    destruct (negb _); [|discriminate]. intros H. inversion H. now left.
  - unfold EventData.opaqueEventData.MeasuredBytes.
    destruct (negb _); [|discriminate]. intros H. inversion H. now left.
  - unfold EventData.EFIVariableEventData.MeasuredBytes.
    intros H. inversion H. now left.
Qed.

(** The command that [makeEventDataIPL] keeps, in the bytes of the
    event. *)
Lemma trimmed_command (p : string) (data : list byte) :
  String.prefix p (string_of_list_byte data) = true ->
  let m := list_byte_of_string
             (TrimSuffix (TrimPrefix (string_of_list_byte data) p) NUL) in
  data = list_byte_of_string p ++ m
  \/ data = list_byte_of_string p ++ m ++ [x00].
Proof.
  intros Hp. destruct (bytes_of_prefixed p data Hp) as [rest ->].
  rewrite string_of_prefixed, TrimPrefix_app. cbv zeta.
  unfold TrimSuffix. destruct (HasSuffix (string_of_list_byte rest) NUL) eqn:E.
  - right. destruct (HasSuffix_elim _ _ E) as [a Ha].
    assert (Hrest : rest = list_byte_of_string a ++ [x00]).
    { rewrite <- (list_byte_of_string_of_list_byte rest), Ha.
      now rewrite list_byte_of_string_app. }
    f_equal. rewrite Hrest at 1. f_equal.
    rewrite Ha, string_length_app.
    change (String.length NUL) with 1%nat.
    replace (String.length a + 1 - 1)%nat with (String.length a) by lia.
    now rewrite substring_0_app.
  - left. now rewrite list_byte_of_string_of_list_byte.
Qed.

(** What [makeEventDataIPL] returns. *)
Lemma makeEventDataIPL_measured (pcrIndex : PCRIndex) (data : list byte)
    (e : EventData.EventData) (m : list byte) :
  EventData.makeEventDataIPL pcrIndex data = Some e ->
  EventData.MeasuredBytes e = Some m ->
  pcrIndex = 8
  /\ exists p, (p = EventData.kernelCmdlinePrefix \/ p = EventData.grubCmdPrefix)
               /\ (data = list_byte_of_string p ++ m
                   \/ data = list_byte_of_string p ++ m ++ [x00]).
Proof.
  unfold EventData.makeEventDataIPL.
  destruct (Z.eqb_spec pcrIndex 8) as [->|_].
  - rewrite !strings_Index_0.
    destruct (String.prefix EventData.kernelCmdlinePrefix _) eqn:Ek.
    { intros H Hm. inversion H. subst e. cbn in Hm. inversion Hm.
      split; [reflexivity|]. exists EventData.kernelCmdlinePrefix.
      split; [now left|]. now apply trimmed_command. }
    destruct (String.prefix EventData.grubCmdPrefix _) eqn:Eg; [|discriminate].
    intros H Hm. inversion H. subst e. cbn in Hm. inversion Hm.
    split; [reflexivity|]. exists EventData.grubCmdPrefix.
    split; [now right|]. now apply trimmed_command.
  - destruct (pcrIndex =? 9); [|discriminate].
    intros H Hm. inversion H. subst e. discriminate Hm.
Qed.

Lemma parseSpecIdEvent_kind (data : list byte) (order : ByteOrder)
    (e : EventData.EventData) :
  EventData.parseSpecIdEvent data order = Returns (Some e) ->
  exists sd, e = EventData.SpecId sd.
Proof.
  unfold EventData.parseSpecIdEvent.
  destruct (EventData.runNil _ _) as [[sd|]|]; try discriminate.
  intros H. inversion H. eauto.
Qed.

Lemma makeEventDataEFIVariable_kind (data : list byte) (order : ByteOrder)
    (e : EventData.EventData) :
  EventData.makeEventDataEFIVariable data order = Returns (Some e) ->
  exists v, e = EventData.EFIVariable v.
Proof.
  unfold EventData.makeEventDataEFIVariable. intros H. decoded H.
  inversion H. eauto.
Qed.

Lemma makeEventDataImageLoad_kind (data : list byte) (order : ByteOrder)
    (e : EventData.EventData) :
  EventData.makeEventDataImageLoad data order = Returns (Some e) ->
  exists v, e = EventData.EFIImageLoad v.
Proof.
  unfold EventData.makeEventDataImageLoad. intros H. decoded H.
  inversion H. eauto.
Qed.

(** The events of [makeEventData] that measure something else than
    their raw bytes are the IPL events on PCR 8 that begin with one of
    the two prefixes. *)
Lemma makeEventData_measured_cases :
  forall (pcrIndex : PCRIndex) (eventType : EventType) (data : list byte)
         (order : ByteOrder) (e : EventData.EventData) (m : list byte),
    EventData.makeEventData pcrIndex eventType data order = Returns (Some e) ->
    EventData.MeasuredBytes e = Some m ->
    m = data
    \/ (eventType = EventTypeIPL /\ pcrIndex = 8
        /\ exists p,
             (p = EventData.kernelCmdlinePrefix \/ p = EventData.grubCmdPrefix)
             /\ (data = list_byte_of_string p ++ m
                 \/ data = list_byte_of_string p ++ m ++ [x00])).
Proof.
  intros pcrIndex eventType data order e m He Hm.
  destruct (makeEventData_returns pcrIndex eventType data order)
    as [(msg & _ & Hp)|(e' & He' & Hraw & _)]; [congruence|].
  rewrite He in He'. inversion He'. subst e'. clear He'.
  destruct (MeasuredBytes_raw e m Hm) as [->|Hcmd]; [now left|].
  right. unfold EventData.makeEventData in He.
  destruct (EventData.makeEventDataImpl pcrIndex eventType data order)
    as [[e0|]|] eqn:Himpl; try discriminate.
  2:{ unfold EventData.makeOpaqueEventData in He.
      destruct Hcmd as [[k ->]|[g ->]];
        match type of He with
        | context [if ?b then _ else _] => destruct b
        end; discriminate. }
  inversion He. subst e0. clear He.
  unfold EventData.makeEventDataImpl, EventData.makeEventDataNoAction,
    EventData.makeEventDataSeparator, EventData.makeEventDataAction in Himpl.
  destruct (eventType =? EventTypeNoAction).
  { destruct (pcrIndex =? 0); [|discriminate].
    apply parseSpecIdEvent_kind in Himpl. destruct Himpl as [sd ->].
    destruct Hcmd as [[k H]|[g H]]; discriminate. }
  destruct (eventType =? EventTypeSeparator).
  { destruct (negb _); [discriminate|]. inversion Himpl. subst e.
    destruct Hcmd as [[k H]|[g H]]; discriminate. }
  destruct ((eventType =? EventTypeAction) || (eventType =? EventTypeEFIAction)).
  { inversion Himpl. subst e. destruct Hcmd as [[k H]|[g H]]; discriminate. }
  destruct (Z.eqb_spec eventType EventTypeIPL) as [->|_].
  { inversion Himpl as [Hipl].
    destruct (makeEventDataIPL_measured pcrIndex data e m Hipl Hm) as [-> Hp].
    now repeat split. }
  destruct ((eventType =? EventTypeEFIVariableDriverConfig)
            || (eventType =? EventTypeEFIVariableBoot)
            || (eventType =? EventTypeEFIVariableAuthority)).
  { apply makeEventDataEFIVariable_kind in Himpl. destruct Himpl as [v ->].
    destruct Hcmd as [[k H]|[g H]]; discriminate. }
  destruct ((eventType =? EventTypeEFIBootServicesApplication)
            || (eventType =? EventTypeEFIBootServicesDriver)
            || (eventType =? EventTypeEFIRuntimeServicesDriver));
    [|discriminate].
  apply makeEventDataImageLoad_kind in Himpl. destruct Himpl as [v ->].
  destruct Hcmd as [[k H]|[g H]]; discriminate.
Qed.

(** X13.  [makeEventData] never returns [nil].  Whenever it returns,
    the result is an event, and the raw bytes of the event are the event
    data, whatever the PCR, the event type and the byte order. *)
Theorem makeEventData_keeps_data :
  forall (pcrIndex : PCRIndex) (eventType : EventType) (data : list byte)
         (order : ByteOrder) (v : option EventData.EventData),
    EventData.makeEventData pcrIndex eventType data order = Returns v ->
    exists e, v = Some e /\ EventData.RawBytes e = data.
Proof.
  intros pcrIndex eventType data order v Hv.
  destruct (makeEventData_returns pcrIndex eventType data order)
    as [(msg & _ & Hp)|(e & He & Hraw & _)]; [congruence|].
  exists e. split; [congruence | exact Hraw].
Qed.

(** X11.  A well-formed image-load event in eventdata.go.  For the three
    event types of image loads and in either byte order, event data made
    of the three 64-bit addresses, the length of the device path, a
    device path that ends with an End-of-Hardware node, and any trailing
    bytes, is returned by [makeEventData] as an image-load event with
    these addresses and the nodes of the path. *)
Theorem makeEventData_image_load_well_formed :
  forall (pcrIndex : PCRIndex) (eventType : EventType) (order : ByteOrder)
         (loc len link : Z) (nodes : list rawNode) (eoh : rawNode)
         (post trailing : list byte),
    In eventType [EventTypeEFIBootServicesApplication;
                  EventTypeEFIBootServicesDriver;
                  EventTypeEFIRuntimeServicesDriver] ->
    0 <= loc < 2 ^ 64 -> 0 <= len < 2 ^ 64 -> 0 <= link < 2 ^ 64 ->
    Forall pathNode nodes ->
    endNode eoh ->
    let path :=
      concat (map (encodeNode order) nodes) ++ encodeNode order eoh ++ post in
    Z.of_nat (length path) <= maxAlloc ->
    let data := encodeImageLoad order loc len link path ++ trailing in
    EventData.makeEventData pcrIndex eventType data order
    = Returns (Some (EventData.EFIImageLoad
                       (mkImageLoad data loc len link (map decodedNode nodes)))).
Proof.
  intros pcrIndex eventType order loc len link nodes eoh post trailing Hty
    Hloc Hlen Hlink Hnodes Heoh path Hmax data.
  destruct (read_image_load order loc len link path trailing
              Hloc Hlen Hlink Hmax)
    as (R1 & R2 & R3 & R4 & Rm & R5 & _).
  fold data in R1, R2, R3, R4, Rm, R5.
  unfold EventData.makeEventData.
  rewrite makeEventDataImpl_image_load by exact Hty.
  unfold EventData.makeEventDataImageLoad, EventData.runNil, bindNil, bindSome.
  rewrite R1, R2, R3, R4, Rm, R5. unfold EventData.readDevicePath, path at 1.
  now rewrite (EventData_readDevicePathLoop_terminated order nodes eoh post
                 Hnodes Heoh _ [] (At_NewReader _)).
Qed.

End Events.

Lemma makeEventData_keeps_data_witness :
  EventData.makeEventData (X := TCG) 0 EventTypeSeparator [x00] LittleEndian
  = Returns (Some (EventData.Opaque (EventData.opaqueEventData.mk [x00] true)))
  /\ exists e,
       Some (EventData.Opaque (EventData.opaqueEventData.mk [x00] true)) = Some e
       /\ EventData.RawBytes e = [x00].
Proof.
  assert (H1 : EventData.makeEventData (X := TCG) 0 EventTypeSeparator [x00]
                 LittleEndian
               = Returns (Some (EventData.Opaque
                                  (EventData.opaqueEventData.mk [x00] true))))
    by reflexivity.
  split; [exact H1|].
  exact (makeEventData_keeps_data (X := TCG) 0 EventTypeSeparator [x00]
           LittleEndian _ H1).
Defined.

Lemma makeEventData_image_load_well_formed_witness :
  In EventTypeEFIBootServicesDriver
    [EventTypeEFIBootServicesApplication; EventTypeEFIBootServicesDriver;
     EventTypeEFIRuntimeServicesDriver]
  /\ 0 <= 0x1000 < 2 ^ 64 /\ 0 <= 0x200 < 2 ^ 64 /\ 0 <= 0 < 2 ^ 64
  /\ Forall pathNode [mkRawNode x01 x01 [x00; x1f]]
  /\ endNode (mkRawNode x7f xff [])
  /\ Z.of_nat (length (concat (map (encodeNode BigEndian)
                                  [mkRawNode x01 x01 [x00; x1f]])
                       ++ encodeNode BigEndian (mkRawNode x7f xff []) ++ []))
     <= maxAlloc
  /\ EventData.makeEventData (X := TCG) 2 EventTypeEFIBootServicesDriver
       ([x00; x00; x00; x00; x00; x00; x10; x00;
         x00; x00; x00; x00; x00; x00; x02; x00;
         x00; x00; x00; x00; x00; x00; x00; x00;
         x00; x00; x00; x00; x00; x00; x00; x0a;
         x01; x01; x00; x06; x00; x1f; x7f; xff; x00; x04] ++ [xee]) BigEndian
     = Returns (Some (EventData.EFIImageLoad
                        (mkImageLoad
                           ([x00; x00; x00; x00; x00; x00; x10; x00;
                             x00; x00; x00; x00; x00; x00; x02; x00;
                             x00; x00; x00; x00; x00; x00; x00; x00;
                             x00; x00; x00; x00; x00; x00; x00; x0a;
                             x01; x01; x00; x06; x00; x1f; x7f; xff; x00; x04]
                            ++ [xee])
                           0x1000 0x200 0 [mkNode 1 1 [x00; x1f]]))).
Proof.
  assert (H0 : In EventTypeEFIBootServicesDriver
                 [EventTypeEFIBootServicesApplication;
                  EventTypeEFIBootServicesDriver;
                  EventTypeEFIRuntimeServicesDriver])
    by (right; left; reflexivity).
  assert (H1 : 0 <= 0x1000 < 2 ^ 64) by lia.
  assert (H2 : 0 <= 0x200 < 2 ^ 64) by lia.
  assert (H3 : 0 <= 0 < 2 ^ 64) by lia.
  assert (H4 : Forall pathNode [mkRawNode x01 x01 [x00; x1f]])
    by (repeat constructor; discriminate).
  assert (H5 : endNode (mkRawNode x7f xff [])) by (split; reflexivity).
  assert (H6 : Z.of_nat (length (concat (map (encodeNode BigEndian)
                                           [mkRawNode x01 x01 [x00; x1f]])
                                 ++ encodeNode BigEndian (mkRawNode x7f xff [])
                                 ++ []))
               <= maxAlloc) by discriminate.
  repeat (split; [assumption|]).
  exact (makeEventData_image_load_well_formed (X := TCG) 2
           EventTypeEFIBootServicesDriver BigEndian 0x1000 0x200 0
           [mkRawNode x01 x01 [x00; x1f]] (mkRawNode x7f xff []) [] [xee]
           H0 H1 H2 H3 H4 H5 H6).
Defined.

(** ** Spec-id events in eventdata.go *)

Lemma EventData_readVendorInfo_outcomes (order : ByteOrder)
    (e : SpecIdEventData) (r : Reader) :
  0 <= i r ->
  match EventData.readVendorInfo order e r with
  | Returns (Some e', _) =>
      e' = setVendorInfo (vendorInfoAt order (s r) (Z.to_nat (i r))) e
  | Returns (None, _) => True
  | Panics _ => False
  end.
Proof.
  intros Hi. unfold EventData.readVendorInfo, bindNil.
  destruct (binaryRead_cases order 1 r)
    as [[H1 ->]|[H1 (err & r' & -> & He)]]; [lia | lia | | exact I].
  pose proof (Uint_field_range order (Z.to_nat (i r)) (Z.to_nat 1) (s r)) as Hv.
  change (256 ^ Z.of_nat (Z.to_nat 1)) with 256 in Hv.
  set (size := Uint order _) in *.
  rewrite make_small by lia.
  destruct (ReadFull_cases_any size (advance r 1))
    as [[H2 (bs & -> & Hlen & Hbs)]|[H2 (err & r' & -> & He)]];
    [lia | cbn; lia | rewrite Size_advance; cbn [advance i]; lia | | exact I].
  unfold retG. f_equal. rewrite Hbs. unfold vendorInfoAt. cbn [advance s i].
  fold size. f_equal. lia.
Qed.

Lemma EventData_readDigestSizes_outcomes (order : ByteOrder) (n : nat) :
  forall (acc : list EFISpecIdEventAlgorithmSize) (r : Reader),
    0 <= i r ->
    match EventData.readDigestSizes order n acc r with
    | Returns (Some ds, r') =>
        s r' = s r /\ i r' = i r + 4 * Z.of_nat n
        /\ ds = acc ++ digestSizesAt order (s r) (Z.to_nat (i r)) n
    | Returns (None, _) => True
    | Panics _ => False
    end.
Proof.
  induction n as [|n IH]; intros acc r Hi.
  - cbn. rewrite app_nil_r. repeat split. lia.
  - cbn [EventData.readDigestSizes]. unfold bindNil at 1.
    destruct (binaryRead_cases order 2 r)
      as [[H1 ->]|[H1 (err & r' & -> & He)]]; [lia | lia | | exact I].
    unfold bindNil at 1.
    destruct (binaryRead_cases order 2 (advance r 2))
      as [[H2 ->]|[H2 (err & r' & -> & He)]]; [lia | cbn; lia | | exact I].
    match goal with
    | |- context [EventData.readDigestSizes order n ?a ?r0] =>
        specialize (IH a r0); destruct (EventData.readDigestSizes order n a r0)
          as [[[ds|] r']|msg]
    end; [|exact I|apply IH; cbn; lia].
    destruct IH as (Hs & Hpos & Hds); [cbn; lia|].
    cbn [advance s i] in Hs, Hpos, Hds.
    split; [exact Hs|]. split; [lia|].
    rewrite Hds, <- app_assoc. cbn [app digestSizesAt advance s i]. f_equal.
    change (Z.to_nat 2) with 2%nat.
    replace (Z.to_nat (i r + 2)) with (Z.to_nat (i r) + 2)%nat by lia.
    replace (Z.to_nat (i r + 2 + 2)) with (Z.to_nat (i r) + 4)%nat by lia.
    reflexivity.
Qed.

(** What [parseSpecIdEvent] returns: [nil], or the spec-id event that
    the data describes; it does not panic. *)
Lemma parseSpecIdEvent_cases (data : list byte) (order : ByteOrder) :
  match EventData.parseSpecIdEvent data order with
  | Returns (Some (EventData.SpecId e)) => specIdDescribed order data e
  | Returns (Some _) => False
  | Returns None => True
  | Panics _ => False
  end.
Proof.
  unfold EventData.parseSpecIdEvent, EventData.runNil, bindNil.
  destruct (ReadFull_cases 16 (NewReader data))
    as [[H1 ->]|[H1 (err & r' & -> & He)]]; [lia | cbn; lia | | exact I].
  destruct (binaryRead_cases order 4 (advance (NewReader data) 16))
    as [[H2 ->]|[H2 (err & r' & -> & He)]]; [lia | cbn; lia | | exact I].
  destruct (binaryRead_cases order 1 (advance (advance (NewReader data) 16) 4))
    as [[H3 ->]|[H3 (err & r' & -> & He)]]; [lia | cbn; lia | | exact I].
  destruct (binaryRead_cases order 1
              (advance (advance (advance (NewReader data) 16) 4) 1))
    as [[H4 ->]|[H4 (err & r' & -> & He)]]; [lia | cbn; lia | | exact I].
  destruct (binaryRead_cases order 1
              (advance (advance (advance (advance (NewReader data) 16) 4) 1) 1))
    as [[H5 ->]|[H5 (err & r' & -> & He)]]; [lia | cbn; lia | | exact I].
  set (r5 := advance (advance (advance (advance (advance (NewReader data) 16) 4)
                                 1) 1) 1).
  assert (Hs5 : s r5 = data) by reflexivity.
  assert (Hi5 : i r5 = 23) by reflexivity.
  cbn [advance NewReader s i].
  change (Z.to_nat 0) with 0%nat. change (Z.to_nat 16) with 16%nat.
  change (Z.to_nat (0 + 16)) with 16%nat. change (Z.to_nat 4) with 4%nat.
  change (Z.to_nat (0 + 16 + 4)) with 20%nat. change (Z.to_nat 1) with 1%nat.
  change (Z.to_nat (0 + 16 + 4 + 1)) with 21%nat.
  change (Z.to_nat (0 + 16 + 4 + 1 + 1)) with 22%nat.
  set (eventData := mkSpecIdEventData data SpecUnknown _ _ _ _ 0 [] []).
  assert (Hsig : forall str,
             string_of_list_byte (field 0 16 data) = str ->
             field 0 16 data = list_byte_of_string str).
  { intros str <-. now rewrite list_byte_of_string_of_list_byte. }
  destruct (String.eqb_spec (string_of_list_byte (field 0 16 data))
              ("Spec ID Event00" ++ NUL)) as [E0|_].
  { unfold EventData.parsePCClientSpecIdEvent, bindNil.
    destruct (binaryRead_cases order 1 r5)
      as [[H6 ->]|[H6 (err & r' & -> & He)]]; [lia | cbn; lia | | exact I].
    pose proof (EventData_readVendorInfo_outcomes order
                  (setSpec SpecPCClient eventData) (advance r5 1)) as Hv.
    destruct (EventData.readVendorInfo order _ _) as [[[e'|] r']|msg];
      [|exact I|apply Hv; cbn; lia].
    rewrite Hv by (cbn; lia). left. split; [now apply Hsig | reflexivity]. }
  destruct (String.eqb_spec (string_of_list_byte (field 0 16 data))
              ("Spec ID Event02" ++ NUL)) as [E2|_].
  { unfold EventData.parseEFI_1_2_SpecIdEvent, bindNil.
    destruct (binaryRead_cases order 1 r5)
      as [[H6 ->]|[H6 (err & r' & -> & He)]]; [lia | cbn; lia | | exact I].
    match goal with
    | |- context [EventData.readVendorInfo order ?e0 ?r0] =>
        pose proof (EventData_readVendorInfo_outcomes order e0 r0) as Hv;
        destruct (EventData.readVendorInfo order e0 r0) as [[[e'|] r']|msg]
    end; [|exact I|apply Hv; cbn; lia].
    rewrite Hv by (cbn; lia). right. left.
    split; [now apply Hsig | reflexivity]. }
  destruct (String.eqb_spec (string_of_list_byte (field 0 16 data))
              ("Spec ID Event03" ++ NUL)) as [E3|_]; [|exact I].
  unfold EventData.parseEFI_2_SpecIdEvent, bindNil, bindSome.
  destruct (binaryRead_cases order 1 r5)
    as [[H6 ->]|[H6 (err & r' & -> & He)]]; [lia | cbn; lia | | exact I].
  destruct (binaryRead_cases order 4 (advance r5 1))
    as [[H7 ->]|[H7 (err & r' & -> & He)]]; [lia | cbn; lia | | exact I].
  pose proof (Uint_field_range order (Z.to_nat (i (advance r5 1))) (Z.to_nat 4)
                (s (advance r5 1))) as Hn.
  change (256 ^ Z.of_nat (Z.to_nat 4)) with (2 ^ 32) in Hn.
  set (n := Uint order (field (Z.to_nat (i (advance r5 1))) (Z.to_nat 4)
                          (s (advance r5 1)))) in *.
  rewrite make_ok by (unfold maxAlloc; lia).
  pose proof (EventData_readDigestSizes_outcomes order (Z.to_nat n) []
                (advance (advance r5 1) 4)) as Hd.
  destruct (EventData.readDigestSizes order _ _ _) as [[[ds|] r']|msg];
    [|exact I|apply Hd; cbn; lia].
  destruct Hd as (Hs & Hpos & Hds); [cbn; lia|].
  cbn [advance s i NewReader app] in Hs, Hpos, Hds.
  match goal with
  | |- context [EventData.readVendorInfo order ?e0 ?r0] =>
      pose proof (EventData_readVendorInfo_outcomes order e0 r0) as Hv;
      destruct (EventData.readVendorInfo order e0 r0) as [[[e'|] r'']|msg]
  end; [|exact I|apply Hv; lia].
  rewrite Hv by lia. right. right. split; [now apply Hsig|].
  rewrite Hs, Hpos, Hds. change (s r5) with data. change (i r5) with 23.
  replace (Z.to_nat (23 + 1 + 4 + 4 * Z.of_nat (Z.to_nat n)))
    with (28 + 4 * Z.to_nat n)%nat by lia.
  reflexivity.
Qed.

(** ** Where [makeEventData] panics *)

Lemma EventData_readEFIGUID_outcomes (order : ByteOrder) (r : Reader) :
  0 <= i r ->
  match EventData.readEFIGUID order r with
  | Ok g r' => i r + 16 <= Size r /\ r' = advance r 16
  | Err _ _ => True
  | Panic _ => False
  end.
Proof.
  intros Hi. unfold EventData.readEFIGUID, bind.
  destruct (binaryRead_cases order 4 r)
    as [[H1 ->]|[H1 (e & r' & -> & He)]]; [lia | lia | | exact I].
  destruct (binaryRead_cases order 2 (advance r 4))
    as [[H2 ->]|[H2 (e & r' & -> & He)]]; [lia | cbn; lia | | exact I].
  destruct (binaryRead_cases order 2 (advance (advance r 4) 2))
    as [[H3 ->]|[H3 (e & r' & -> & He)]]; [lia | cbn; lia | | exact I].
  destruct (ReadFull_cases 8 (advance (advance (advance r 4) 2) 2))
    as [[H4 ->]|[H4 (e & r' & -> & He)]]; [lia | cbn; lia | | exact I].
  rewrite !Size_advance in H4. cbn [advance i] in H4.
  unfold ret. split; [lia|]. rewrite !advance_advance. reflexivity.
Qed.

Lemma makeEventDataImageLoad_cases (data : list byte) (order : ByteOrder) :
  match EventData.makeEventDataImageLoad data order with
  | Returns _ => True
  | Panics _ =>
      32 <= Z.of_nat (length data) /\ maxAlloc < Uint order (field 24 8 data)
  end.
Proof.
  unfold EventData.makeEventDataImageLoad, EventData.runNil, bindNil, bindSome.
  destruct (binaryRead_cases order 8 (NewReader data))
    as [[H1 ->]|[H1 (e & r' & -> & He)]]; [lia | cbn; lia | | exact I].
  destruct (binaryRead_cases order 8 (advance (NewReader data) 8))
    as [[H2 ->]|[H2 (e & r' & -> & He)]]; [lia | cbn; lia | | exact I].
  destruct (binaryRead_cases order 8 (advance (advance (NewReader data) 8) 8))
    as [[H3 ->]|[H3 (e & r' & -> & He)]]; [lia | cbn; lia | | exact I].
  destruct (binaryRead_cases order 8
              (advance (advance (advance (NewReader data) 8) 8) 8))
    as [[H4 ->]|[H4 (e & r' & -> & He)]]; [lia | cbn; lia | | exact I].
  rewrite !Size_advance in H4. unfold Size in H4.
  cbn [advance NewReader s i] in H4 |- *.
  change (Z.to_nat (0 + 8 + 8 + 8)) with 24%nat. change (Z.to_nat 8) with 8%nat.
  set (len := Uint order (field 24 8 data)).
  assert (Hlen : 0 <= len) by apply Uint_range.
  unfold make.
  destruct ((len >=? 2 ^ 63) || (1 * len >? maxAlloc)) eqn:Hmake.
  { split; [lia|]. apply orb_true_iff in Hmake.
    rewrite Z.geb_leb, Z.gtb_ltb in Hmake.
    destruct Hmake as [H|H]; [apply Z.leb_le in H | apply Z.ltb_lt in H];
      unfold maxAlloc in *; lia. }
  match goal with
  | |- context [ReadFull len ?r] =>
      destruct (ReadFull_cases_any len r)
        as [[H5 (bs & -> & Hbl & Hbs)]|[H5 (e & r' & -> & He)]];
        [lia | cbn; lia | unfold Size; cbn [advance NewReader s i]; lia | | exact I]
  end.
  destruct (EventData_readDevicePathLoop_returns order (S (length bs))
              (NewReader bs) [])
    as [path Hpath]; [cbn; lia | unfold Size; cbn [NewReader s i]; lia |].
  unfold EventData.readDevicePath. rewrite Hpath.
  destruct path; exact I.
Qed.

Section Panics.

Context {X : Externals}.

Lemma makeEventDataEFIVariable_cases (data : list byte) (order : ByteOrder) :
  match EventData.makeEventDataEFIVariable data order with
  | Returns _ => True
  | Panics _ => 32 <= Z.of_nat (length data)
  end.
Proof.
  unfold EventData.makeEventDataEFIVariable, EventData.runNil, bindNil.
  pose proof (EventData_readEFIGUID_outcomes order (NewReader data)) as Hg.
  destruct (EventData.readEFIGUID order (NewReader data)) as [g r1|e r1|msg];
    [|exact I|exfalso; apply Hg; cbn; lia].
  destruct Hg as [_ ->]; [cbn; lia|].
  destruct (binaryRead_cases order 8 (advance (NewReader data) 16))
    as [[H2 ->]|[H2 (e & r' & -> & He)]]; [lia | cbn; lia | | exact I].
  destruct (binaryRead_cases order 8 (advance (advance (NewReader data) 16) 8))
    as [[H3 ->]|[H3 (e & r' & -> & He)]]; [lia | cbn; lia | | exact I].
  rewrite !Size_advance in H3. unfold Size in H3.
  cbn [advance NewReader s i] in H3.
  repeat match goal with
    | |- match match ?m with _ => _ end with _ => _ end =>
        destruct m; try exact I; try lia
    end.
Qed.

(** The cases of [makeEventData] for an event of type [EV_NO_ACTION];
    the allocations of the spec-id parsers, which [make] accepts, are
    taken to succeed. *)
Lemma makeEventData_no_action_cases :
  forall (pcrIndex : PCRIndex) (data : list byte) (order : ByteOrder),
    match EventData.makeEventData pcrIndex EventTypeNoAction data order with
    | Returns (Some (EventData.SpecId e)) =>
        pcrIndex = 0 /\ specIdDescribed order data e
    | Returns (Some (EventData.Opaque e)) =>
        EventData.opaqueEventData.data e = data
    | Returns _ => False
    | Panics _ => False
    end.
Proof.
  intros pcrIndex data order.
  assert (Hopaque :
            exists informational,
              EventData.makeOpaqueEventData EventTypeNoAction data
              = Some (EventData.Opaque
                        (EventData.opaqueEventData.mk data informational))).
  { unfold EventData.makeOpaqueEventData.
    match goal with |- context [if ?b then _ else _] => destruct b end;
      eexists; reflexivity. }
  destruct Hopaque as [informational Hopaque].
  unfold EventData.makeEventData, EventData.makeEventDataImpl.
  change (EventTypeNoAction =? EventTypeNoAction) with true. cbv iota.
  unfold EventData.makeEventDataNoAction.
  destruct (Z.eqb_spec pcrIndex 0) as [->|Hne].
  - pose proof (parseSpecIdEvent_cases data order) as H.
    destruct (EventData.parseSpecIdEvent data order) as [[e|]|msg];
      [|rewrite Hopaque; reflexivity|exact H].
    destruct e; try contradiction. now split.
  - rewrite Hopaque. reflexivity.
Qed.

(** Where [make] refuses a length in [makeEventData]: for the three
    event types of image loads, by the device-path length, and for the
    three event types of UEFI variables. *)
Lemma makeEventData_panic_cases :
  forall (pcrIndex : PCRIndex) (eventType : EventType) (data : list byte)
         (order : ByteOrder) (msg : string),
    EventData.makeEventData pcrIndex eventType data order = Panics msg ->
    32 <= Z.of_nat (length data)
    /\ ((In eventType [EventTypeEFIBootServicesApplication;
                       EventTypeEFIBootServicesDriver;
                       EventTypeEFIRuntimeServicesDriver]
         /\ maxAlloc < Uint order (field 24 8 data))
        \/ In eventType [EventTypeEFIVariableDriverConfig;
                         EventTypeEFIVariableBoot;
                         EventTypeEFIVariableAuthority]).
Proof.
  intros pcrIndex eventType data order msg.
  unfold EventData.makeEventData.
  destruct (EventData.makeEventDataImpl pcrIndex eventType data order)
    as [[e|]|msg'] eqn:Himpl; try discriminate.
  intros _. unfold EventData.makeEventDataImpl in Himpl.
  destruct (eventType =? EventTypeNoAction).
  { unfold EventData.makeEventDataNoAction in Himpl.
    destruct (pcrIndex =? 0); [|discriminate].
    pose proof (parseSpecIdEvent_cases data order) as H.
    rewrite Himpl in H. contradiction. }
  destruct (eventType =? EventTypeSeparator); [discriminate|].
  destruct ((eventType =? EventTypeAction) || (eventType =? EventTypeEFIAction));
    [discriminate|].
  destruct (eventType =? EventTypeIPL); [discriminate|].
  destruct ((eventType =? EventTypeEFIVariableDriverConfig)
            || (eventType =? EventTypeEFIVariableBoot)
            || (eventType =? EventTypeEFIVariableAuthority)) eqn:Hvar.
  { pose proof (makeEventDataEFIVariable_cases data order) as H.
    rewrite Himpl in H. split; [exact H|]. right.
    apply orb_true_iff in Hvar. destruct Hvar as [Hvar|Hvar];
      [apply orb_true_iff in Hvar; destruct Hvar as [Hvar|Hvar]|];
      apply Z.eqb_eq in Hvar; subst eventType; cbn [In]; tauto. }
  destruct ((eventType =? EventTypeEFIBootServicesApplication)
            || (eventType =? EventTypeEFIBootServicesDriver)
            || (eventType =? EventTypeEFIRuntimeServicesDriver)) eqn:Himg;
    [|discriminate].
  pose proof (makeEventDataImageLoad_cases data order) as H.
  rewrite Himpl in H. destruct H as [H32 Hlen]. split; [exact H32|]. left.
  split; [|exact Hlen].
  apply orb_true_iff in Himg. destruct Himg as [Himg|Himg];
    [apply orb_true_iff in Himg; destruct Himg as [Himg|Himg]|];
    apply Z.eqb_eq in Himg; subst eventType; cbn [In]; tauto.
Qed.

End Panics.

(** ** The spec-id parsers of efi.go *)

(** One more step of a parser of efi.go whose result is known. *)
Ltac parsed_step H :=
  match type of H with
  | context [match binaryRead ?o ?n ?r with _ => _ end] =>
      destruct (binaryRead o n r) eqn:?
  | context [match ReadFull ?n ?r with _ => _ end] =>
      destruct (ReadFull n r) eqn:?
  | context [match make ?k ?n ?r with _ => _ end] =>
      destruct (make k n r) eqn:?
  end; cbv beta iota in H; try discriminate H.

Section EfiSpecIdParsers.

Variable knownAlgorithms : AlgorithmId -> option Z.
Variable wrapSpecIdEventReadError : error -> error.
Variable fmtAlgorithmId : AlgorithmId -> string.

Let readDigestSizes :=
  Efi.readDigestSizes knownAlgorithms wrapSpecIdEventReadError fmtAlgorithmId.
Let parseEFI_2_SpecIdEvent :=
  Efi.parseEFI_2_SpecIdEvent knownAlgorithms wrapSpecIdEventReadError
    fmtAlgorithmId.

(** The entries that the loop of efi.go collects agree with the
    registry, and the loop of eventdata.go collects the same entries. *)
Lemma Efi_readDigestSizes_validated (n : nat) :
  forall (acc ds : list EFISpecIdEventAlgorithmSize) (r r' : Reader),
    readDigestSizes n acc r = Ok ds r' ->
    (exists es, ds = acc ++ es /\ length es = n
                /\ Forall (agrees knownAlgorithms) es)
    /\ EventData.readDigestSizes LittleEndian n acc r = Returns (Some ds, r').
Proof.
  induction n as [|n IH]; intros acc ds r r' H.
  - cbn in H. inversion H. subst. split; [|reflexivity].
    exists []. now rewrite app_nil_r.
  - unfold readDigestSizes in H. cbn [Efi.readDigestSizes] in H.
    cbn [EventData.readDigestSizes].
    unfold bind, bindNil, Efi.wrapErr in H |- *.
    do 2 parsed_step H.
    match type of H with
    | context [knownAlgorithms ?a] =>
        destruct (knownAlgorithms a) as [knownSize|] eqn:Hknown
    end.
    + match type of H with
      | context [negb (knownSize =? ?d)] =>
          destruct (Z.eqb_spec knownSize d) as [Heq|Hne]; cbn [negb] in H;
          [|discriminate H]
      end.
      fold readDigestSizes in H. destruct (IH _ _ _ _ H) as [(es & -> & Hlen & Hag) Hsib].
      split; [|exact Hsib].
      eexists (_ :: es). rewrite <- app_assoc. split; [reflexivity|].
      split; [cbn; lia|]. constructor; [|exact Hag].
      intros size Hsize. cbn [AlgorithmId_ DigestSize] in *. congruence.
    + fold readDigestSizes in H. destruct (IH _ _ _ _ H) as [(es & -> & Hlen & Hag) Hsib].
      split; [|exact Hsib].
      eexists (_ :: es). rewrite <- app_assoc. split; [reflexivity|].
      split; [cbn; lia|]. constructor; [|exact Hag].
      intros size Hsize. cbn [AlgorithmId_ DigestSize] in *. congruence.
Qed.

(** X16.  What the spec-id parser of efi.go accepts.  An event that
    [parseEFI_2_SpecIdEvent] of efi.go returns without an error is marked
    as an EFI 2 event, keeps the event data, and has a table of digest
    sizes that is not empty and in which every entry of an algorithm in
    the registry has the size of the registry. *)
Theorem Efi_parseEFI_2_SpecIdEvent_validated :
  forall (eventData e' : SpecIdEventData) (r r' : Reader),
    parseEFI_2_SpecIdEvent eventData r = Ok e' r' ->
    Spec_ e' = SpecEFI_2
    /\ specIdData e' = specIdData eventData
    /\ DigestSizes e' <> []
    /\ Forall (agrees knownAlgorithms) (DigestSizes e').
Proof.
  intros eventData e' r r' H.
  unfold parseEFI_2_SpecIdEvent, Efi.parseEFI_2_SpecIdEvent in H.
  unfold bind, Efi.wrapErr in H. do 2 parsed_step H.
  match type of H with
  | context [if ?n <? 1 then _ else _] => destruct (Z.ltb_spec n 1) as [|Hn]
  end; [discriminate H|].
  parsed_step H. fold readDigestSizes in H.
  match type of H with
  | context [readDigestSizes ?n ?a ?r0] =>
      destruct (readDigestSizes n a r0) as [ds rds|e rds|msg] eqn:Hds
  end; try discriminate H.
  repeat parsed_step H. inversion H. subst e'. clear H.
  destruct (Efi_readDigestSizes_validated _ _ _ _ _ Hds)
    as [(es & -> & Hlen & Hag) _].
  cbn [app Spec_ specIdData DigestSizes setVendorInfo setDigestSizes
       setUintnSize setSpec].
  repeat split; try exact Hag.
  intros Hnil. rewrite Hnil in Hlen. cbn in Hlen. lia.
Qed.

(** X17.  The spec-id parser of eventdata.go accepts what the one of
    efi.go accepts.  When [parseEFI_2_SpecIdEvent] of efi.go returns an
    event, [parseEFI_2_SpecIdEvent] of eventdata.go, reading
    little-endian from the same stream, returns the same event and
    leaves the stream at the same place. *)
Theorem parseEFI_2_SpecIdEvent_siblings :
  forall (eventData e' : SpecIdEventData) (r r' : Reader),
    parseEFI_2_SpecIdEvent eventData r = Ok e' r' ->
    EventData.parseEFI_2_SpecIdEvent eventData LittleEndian r
    = Returns (Some e', r').
Proof.
  intros eventData e' r r' H.
  unfold parseEFI_2_SpecIdEvent, Efi.parseEFI_2_SpecIdEvent in H.
  unfold EventData.parseEFI_2_SpecIdEvent, EventData.readVendorInfo.
  unfold bind, bindNil, bindSome, Efi.wrapErr in H |- *. do 2 parsed_step H.
  match type of H with
  | context [if ?n <? 1 then _ else _] => destruct (Z.ltb_spec n 1) as [|Hn]
  end; [discriminate H|].
  parsed_step H. fold readDigestSizes in H.
  match type of H with
  | context [readDigestSizes ?n ?a ?r0] =>
      destruct (readDigestSizes n a r0) as [ds rds|e rds|msg] eqn:Hds
  end; try discriminate H.
  destruct (Efi_readDigestSizes_validated _ _ _ _ _ Hds) as [_ ->].
  repeat parsed_step H. inversion H. reflexivity.
Qed.

(** X18.  The two parsers of the EFI 1.2 spec-id event do the same.  On
    every stream, [parseEFI_1_2_SpecIdEvent] of eventdata.go, reading
    little-endian, returns the event that the one of efi.go returns, and
    [nil] where the one of efi.go returns an error. *)
Theorem parseEFI_1_2_SpecIdEvent_siblings :
  forall (eventData : SpecIdEventData) (r : Reader),
    EventData.parseEFI_1_2_SpecIdEvent eventData LittleEndian r
    = match EfiEvents.parseEFI_1_2_SpecIdEvent wrapSpecIdEventReadError
              eventData r with
      | Ok e r' => Returns (Some e, r')
      | Err _ r' => Returns (None, r')
      | Panic msg => Panics msg
      end.
Proof.
  intros eventData r.
  unfold EventData.parseEFI_1_2_SpecIdEvent, EventData.readVendorInfo,
    EfiEvents.parseEFI_1_2_SpecIdEvent.
  unfold bind, bindNil, Efi.wrapErr.
  repeat match goal with
    | |- context [match binaryRead ?o ?n ?r0 with _ => _ end] =>
        destruct (binaryRead o n r0); try reflexivity
    | |- context [match ReadFull ?n ?r0 with _ => _ end] =>
        destruct (ReadFull n r0); try reflexivity
    | |- context [match make ?k ?n ?r0 with _ => _ end] =>
        destruct (make k n r0); try reflexivity
    end.
Qed.

(** X19.  A well-formed EFI 2 spec-id event in efi.go.  From the field
    [uintnSize] on: the number of algorithms, at least one, a table of
    that many entries each of which is unknown to the registry or has
    the size of the registry, the size of the vendor information and the
    vendor information.  The parser returns the event with this table
    and this vendor information and stops behind them. *)
Theorem Efi_parseEFI_2_SpecIdEvent_well_formed :
  forall (eventData : SpecIdEventData) (r : Reader) (u : byte)
         (es : list EFISpecIdEventAlgorithmSize) (vendor post : list byte),
    es <> [] ->
    Z.of_nat (length es) < 2 ^ 32 ->
    Forall (fun e => wellSized e /\ agrees knownAlgorithms e) es ->
    Z.of_nat (length vendor) < 256 ->
    At r ([u] ++ encodeUint LittleEndian 4 (Z.of_nat (length es))
          ++ concat (map encodeAlgorithmSize es)
          ++ [byteOfZ (Z.of_nat (length vendor))] ++ vendor ++ post) ->
    exists r',
      parseEFI_2_SpecIdEvent eventData r
      = Ok (setVendorInfo vendor
              (setDigestSizes es
                 (setUintnSize (byteZ u) (setSpec SpecEFI_2 eventData)))) r'
      /\ At r' post.
Proof.
  intros eventData r u es vendor post Hne Hlen Hes Hvend HAt.
  destruct (read_algorithm_count wrapSpecIdEventReadError r u
              (Z.of_nat (length es)) _ ltac:(lia) HAt)
    as (r1 & r2 & R1 & R2 & A2).
  destruct (Efi_readDigestSizes_accepts knownAlgorithms wrapSpecIdEventReadError
              fmtAlgorithmId es Hes [] r2 _ A2) as (r3 & R3 & A3).
  destruct (wrapErr_binaryRead_step wrapSpecIdEventReadError 1 r3
              [byteOfZ (Z.of_nat (length vendor))] _ A3)
    as [R4 A4]; [discriminate | reflexivity |].
  change (leUint [byteOfZ (Z.of_nat (length vendor))])
    with (Uint LittleEndian [byteOfZ (Z.of_nat (length vendor))]) in R4.
  rewrite Uint_single, byteZ_byteOfZ, Z.mod_small in R4 by lia.
  destruct (ReadFull_any_advance _ _ _ A4) as [R5 A5].
  eexists. split; [|exact A5].
  unfold parseEFI_2_SpecIdEvent, Efi.parseEFI_2_SpecIdEvent.
  unfold bind at 1. rewrite R1. unfold bind at 1. rewrite R2.
  destruct (Z.ltb_spec (Z.of_nat (length es)) 1) as [Hlt|_].
  { destruct es; [congruence | cbn in Hlt; lia]. }
  unfold bind at 1. rewrite make_ok by (unfold maxAlloc; lia).
  unfold bind at 1. rewrite Nat2Z.id. rewrite R3.
  unfold bind at 1. rewrite R4.
  unfold bind at 1. rewrite make_ok by (unfold maxAlloc; lia).
  unfold bind at 1, Efi.wrapErr. rewrite R5. reflexivity.
Qed.

End EfiSpecIdParsers.

(** The spec-id event of a SHA-256 log, from the field [uintnSize] on. *)
Lemma Efi_parseEFI_2_SpecIdEvent_validated_witness :
  Efi.parseEFI_2_SpecIdEvent knownAlgorithmsTCG (fun e => e) (fmtInteger 16 4)
    (mkSpecIdEventData [] SpecUnknown 0 0 2 0 0 [] [])
    (NewReader [x02; x01; x00; x00; x00; x0b; x00; x20; x00; x00])
  = Ok (mkSpecIdEventData [] SpecEFI_2 0 0 2 0 2 [mkAlgorithmSize 0x000B 32] [])
       (mkReader [x02; x01; x00; x00; x00; x0b; x00; x20; x00; x00] 10)
  /\ Spec_ (mkSpecIdEventData [] SpecEFI_2 0 0 2 0 2
              [mkAlgorithmSize 0x000B 32] []) = SpecEFI_2
  /\ specIdData (mkSpecIdEventData [] SpecEFI_2 0 0 2 0 2
                   [mkAlgorithmSize 0x000B 32] [])
     = specIdData (mkSpecIdEventData [] SpecUnknown 0 0 2 0 0 [] [])
  /\ DigestSizes (mkSpecIdEventData [] SpecEFI_2 0 0 2 0 2
                    [mkAlgorithmSize 0x000B 32] []) <> []
  /\ Forall (agrees knownAlgorithmsTCG)
       (DigestSizes (mkSpecIdEventData [] SpecEFI_2 0 0 2 0 2
                       [mkAlgorithmSize 0x000B 32] [])).
Proof.
  assert (H : Efi.parseEFI_2_SpecIdEvent knownAlgorithmsTCG (fun e => e)
                (fmtInteger 16 4)
                (mkSpecIdEventData [] SpecUnknown 0 0 2 0 0 [] [])
                (NewReader [x02; x01; x00; x00; x00; x0b; x00; x20; x00; x00])
              = Ok (mkSpecIdEventData [] SpecEFI_2 0 0 2 0 2
                      [mkAlgorithmSize 0x000B 32] [])
                   (mkReader [x02; x01; x00; x00; x00; x0b; x00; x20; x00; x00]
                      10)) by (vm_compute; reflexivity).
  split; [exact H|].
  exact (Efi_parseEFI_2_SpecIdEvent_validated knownAlgorithmsTCG (fun e => e)
           (fmtInteger 16 4) _ _ _ _ H).
Defined.

Lemma parseEFI_2_SpecIdEvent_siblings_witness :
  Efi.parseEFI_2_SpecIdEvent knownAlgorithmsTCG (fun e => e) (fmtInteger 16 4)
    (mkSpecIdEventData [] SpecUnknown 0 0 2 0 0 [] [])
    (NewReader [x02; x01; x00; x00; x00; x0b; x00; x20; x00; x00])
  = Ok (mkSpecIdEventData [] SpecEFI_2 0 0 2 0 2 [mkAlgorithmSize 0x000B 32] [])
       (mkReader [x02; x01; x00; x00; x00; x0b; x00; x20; x00; x00] 10)
  /\ EventData.parseEFI_2_SpecIdEvent
       (mkSpecIdEventData [] SpecUnknown 0 0 2 0 0 [] []) LittleEndian
       (NewReader [x02; x01; x00; x00; x00; x0b; x00; x20; x00; x00])
     = Returns (Some (mkSpecIdEventData [] SpecEFI_2 0 0 2 0 2
                        [mkAlgorithmSize 0x000B 32] []),
                mkReader [x02; x01; x00; x00; x00; x0b; x00; x20; x00; x00] 10).
Proof.
  assert (H : Efi.parseEFI_2_SpecIdEvent knownAlgorithmsTCG (fun e => e)
                (fmtInteger 16 4)
                (mkSpecIdEventData [] SpecUnknown 0 0 2 0 0 [] [])
                (NewReader [x02; x01; x00; x00; x00; x0b; x00; x20; x00; x00])
              = Ok (mkSpecIdEventData [] SpecEFI_2 0 0 2 0 2
                      [mkAlgorithmSize 0x000B 32] [])
                   (mkReader [x02; x01; x00; x00; x00; x0b; x00; x20; x00; x00]
                      10)) by (vm_compute; reflexivity).
  split; [exact H|].
  exact (parseEFI_2_SpecIdEvent_siblings knownAlgorithmsTCG (fun e => e)
           (fmtInteger 16 4) _ _ _ _ H).
Defined.

Lemma Efi_parseEFI_2_SpecIdEvent_well_formed_witness :
  [mkAlgorithmSize 0x000B 32; mkAlgorithmSize 0x0099 7] <> []
  /\ Z.of_nat (length [mkAlgorithmSize 0x000B 32; mkAlgorithmSize 0x0099 7])
     < 2 ^ 32
  /\ Forall (fun e => wellSized e /\ agrees knownAlgorithmsTCG e)
       [mkAlgorithmSize 0x000B 32; mkAlgorithmSize 0x0099 7]
  /\ Z.of_nat (length [xaa]) < 256
  /\ At (NewReader [x02; x02; x00; x00; x00; x0b; x00; x20; x00;
                    x99; x00; x07; x00; x01; xaa])
        ([x02] ++ encodeUint LittleEndian 4
                    (Z.of_nat (length [mkAlgorithmSize 0x000B 32;
                                       mkAlgorithmSize 0x0099 7]))
         ++ concat (map encodeAlgorithmSize
                      [mkAlgorithmSize 0x000B 32; mkAlgorithmSize 0x0099 7])
         ++ [byteOfZ (Z.of_nat (length [xaa]))] ++ [xaa] ++ [])
  /\ exists r',
       Efi.parseEFI_2_SpecIdEvent knownAlgorithmsTCG (fun e => e)
         (fmtInteger 16 4) (mkSpecIdEventData [] SpecUnknown 0 0 2 0 0 [] [])
         (NewReader [x02; x02; x00; x00; x00; x0b; x00; x20; x00;
                     x99; x00; x07; x00; x01; xaa])
       = Ok (mkSpecIdEventData [] SpecEFI_2 0 0 2 0 2
               [mkAlgorithmSize 0x000B 32; mkAlgorithmSize 0x0099 7] [xaa]) r'
       /\ At r' [].
Proof.
  assert (H1 : [mkAlgorithmSize 0x000B 32; mkAlgorithmSize 0x0099 7] <> [])
    by discriminate.
  assert (H2 : Z.of_nat (length [mkAlgorithmSize 0x000B 32;
                                 mkAlgorithmSize 0x0099 7]) < 2 ^ 32)
    by reflexivity.
  assert (H3 : Forall (fun e => wellSized e /\ agrees knownAlgorithmsTCG e)
                 [mkAlgorithmSize 0x000B 32; mkAlgorithmSize 0x0099 7]).
  { constructor; [split|constructor; [split|constructor]].
    - unfold wellSized. cbn. lia.
    - intros size Hs. vm_compute in Hs. inversion Hs. reflexivity.
    - unfold wellSized. cbn. lia.
    - intros size Hs. vm_compute in Hs. discriminate Hs. }
  assert (H4 : Z.of_nat (length [xaa]) < 256) by reflexivity.
  assert (H5 : At (NewReader [x02; x02; x00; x00; x00; x0b; x00; x20; x00;
                              x99; x00; x07; x00; x01; xaa])
                  ([x02] ++ encodeUint LittleEndian 4
                              (Z.of_nat (length [mkAlgorithmSize 0x000B 32;
                                                 mkAlgorithmSize 0x0099 7]))
                   ++ concat (map encodeAlgorithmSize
                                [mkAlgorithmSize 0x000B 32;
                                 mkAlgorithmSize 0x0099 7])
                   ++ [byteOfZ (Z.of_nat (length [xaa]))] ++ [xaa] ++ []))
    by (split; [cbn; lia | reflexivity]).
  repeat (split; [assumption|]).
  exact (Efi_parseEFI_2_SpecIdEvent_well_formed knownAlgorithmsTCG (fun e => e)
           (fmtInteger 16 4) (mkSpecIdEventData [] SpecUnknown 0 0 2 0 0 [] [])
           _ x02 _ [xaa] [] H1 H2 H3 H4 H5).
Defined.

(** ** The payloads of no-action events in efi.go *)

(** X20.  The startup-locality and the reference-manifest events.  The
    decoder of the startup locality takes one byte from the stream, the
    decoder of the reference manifest twenty: the vendor id in four
    bytes, little-endian, and a GUID.  Each fails, with [io.EOF] or
    [io.ErrUnexpectedEOF], exactly when the stream has fewer bytes left;
    the event keeps the event data it was given. *)
Theorem decode_no_action_payloads :
  forall (data : list byte) (r : Reader),
    0 <= i r ->
    match EfiEvents.decodeStartupLocalityEvent data r with
    | Ok e r' =>
        i r + 1 <= Size r /\ r' = advance r 1
        /\ EfiEvents.StartupLocalityEventData_Bytes e = data
        /\ EfiEvents.Locality e = leUint (field (Z.to_nat (i r)) 1 (s r))
    | Err e _ => Size r < i r + 1 /\ (e = EOF \/ e = ErrUnexpectedEOF)
    | Panic _ => False
    end
    /\
    match EfiEvents.decodeBIMReferenceManifestEvent data r with
    | Ok e r' =>
        i r + 20 <= Size r /\ r' = advance r 20
        /\ EfiEvents.BIMReferenceManifestEventData_Bytes e = data
        /\ EfiEvents.VendorId e = leUint (field (Z.to_nat (i r)) 4 (s r))
        /\ EfiEvents.Guid e = guidOf (field (Z.to_nat (i r) + 4) 16 (s r))
    | Err e _ => Size r < i r + 20 /\ (e = EOF \/ e = ErrUnexpectedEOF)
    | Panic _ => False
    end.
Proof.
  intros data r Hi. split.
  - unfold EfiEvents.decodeStartupLocalityEvent, bind.
    destruct (binaryRead_cases LittleEndian 1 r)
      as [[H1 ->]|[H1 (e & r' & -> & He)]]; [lia | lia | | now split].
    unfold ret. repeat split. exact H1.
  - unfold EfiEvents.decodeBIMReferenceManifestEvent, bind.
    destruct (binaryRead_cases LittleEndian 4 r)
      as [[H1 ->]|[H1 (e & r' & -> & He)]];
      [lia | lia | | split; [lia | exact He]].
    destruct (decodeEFIGUID_cases (advance r 4))
      as [[H2 ->]|[H2 (e & r' & -> & He)]]; [cbn; lia | |];
      rewrite Size_advance in H2; cbn [advance i] in H2;
      [|split; [lia | exact He]].
    unfold ret. split; [lia|]. split; [now rewrite advance_advance|].
    cbn [EfiEvents.BIMReferenceManifestEventData_Bytes EfiEvents.bimData
         EfiEvents.VendorId EfiEvents.Guid advance s i].
    repeat split. do 2 f_equal. lia.
Qed.

Lemma decode_no_action_payloads_witness :
  0 <= i (NewReader [x03])
  /\ EfiEvents.decodeStartupLocalityEvent [xaa; x03] (NewReader [x03])
     = Ok (EfiEvents.mkStartupLocality [xaa; x03] 3) (mkReader [x03] 1)
  /\ EfiEvents.decodeBIMReferenceManifestEvent [xaa; x03] (NewReader [x03])
     = Err ErrUnexpectedEOF (mkReader [x03] 1)
  /\ Size (NewReader [x03]) < i (NewReader [x03]) + 20.
Proof.
  assert (H : 0 <= i (NewReader [x03])) by (cbn; lia).
  split; [exact H|]. split; [reflexivity|]. split; [reflexivity|].
  exact (proj1 (proj2 (decode_no_action_payloads [xaa; x03] (NewReader [x03]) H))).
Defined.

(** ** GPT events in efi.go *)

Lemma uint16s_field_At (r : Reader) (k : Z) :
  0 <= i r -> 0 <= k -> i r + 2 * k <= Size r ->
  binaryReadUint16s LittleEndian k r
  = Ok (uint16s LittleEndian (field (Z.to_nat (i r)) (Z.to_nat (2 * k)) (s r)))
       (advance r (2 * k)).
Proof.
  intros Hi Hk Hsz. unfold binaryReadUint16s, bind.
  destruct (ReadFull_cases_any (2 * k) r)
    as [[_ (bs & -> & _ & ->)]|[Hlt _]]; [lia | lia | | reflexivity | lia].
  unfold Size in *. lia.
Qed.

(** An entry of the partition table: the decoder needs its first 56
    bytes. *)
Lemma decodePartitionEntry_outcomes (entryData : list byte) :
  Z.of_nat (length entryData) < 2 ^ 32 ->
  match EfiEvents.decodePartitionEntry (NewReader entryData) with
  | Ok entry _ =>
      56 <= Z.of_nat (length entryData) /\ entry = partitionEntryOf entryData
  | Err e _ => Z.of_nat (length entryData) < 56 /\ endOfStream e
  | Panic _ => False
  end.
Proof.
  intros Hlen. unfold EfiEvents.decodePartitionEntry, bind.
  destruct (decodeEFIGUID_cases (NewReader entryData))
    as [[H1 ->]|[H1 (e & r' & -> & He)]]; [cbn; lia | |];
    unfold Size in H1; cbn [NewReader s i] in H1; [|split; [lia | exact He]].
  destruct (decodeEFIGUID_cases (advance (NewReader entryData) 16))
    as [[H2 ->]|[H2 (e & r' & -> & He)]]; [cbn; lia | |];
    rewrite Size_advance in H2; unfold Size in H2;
    cbn [advance NewReader s i] in H2; [|split; [lia | exact He]].
  rewrite SeekCurrent_forward by (cbn; lia).
  destruct (binaryRead_cases LittleEndian 8
              (advance (advance (advance (NewReader entryData) 16) 16) 16))
    as [[H3 ->]|[H3 (e & r' & -> & He)]]; [lia | cbn; lia | |];
    rewrite !Size_advance in H3; unfold Size in H3;
    cbn [advance NewReader s i] in H3; [|split; [lia | exact He]].
  set (r4 := advance (advance (advance (advance (NewReader entryData) 16) 16)
                        16) 8).
  assert (Hs4 : s r4 = entryData) by reflexivity.
  assert (Hi4 : i r4 = 56) by reflexivity.
  assert (HL : Len r4 = Z.of_nat (length entryData) - 56).
  { unfold Len, Size. rewrite Hs4, Hi4.
    destruct (Z.geb_spec 56 (Z.of_nat (length entryData))); lia. }
  rewrite HL.
  set (k := (Z.of_nat (length entryData) - 56) / 2).
  assert (Hk : 0 <= k /\ 2 * k <= Z.of_nat (length entryData) - 56).
  { subst k. split; [apply Z.div_pos; lia|].
    apply Z.mul_div_le. lia. }
  rewrite make_ok by (unfold maxAlloc; lia).
  rewrite uint16s_field_At
    by (try lia; unfold Size; rewrite ?Hs4, ?Hi4; lia).
  unfold ret. split; [lia|]. rewrite Hs4, Hi4.
  cbn [advance NewReader s i].
  change (Z.to_nat 0) with 0%nat. change (Z.to_nat (0 + 16)) with 16%nat.
  change (Z.to_nat (0 + 16 + 16 + 16)) with 48%nat.
  change (Z.to_nat 8) with 8%nat. change (Z.to_nat 56) with 56%nat.
  reflexivity.
Qed.

Lemma readPartitions_outcomes (size : Z) (n : nat) :
  0 <= size < 2 ^ 32 ->
  forall (acc : list EfiEvents.EFIGPTPartitionEntry) (r : Reader),
    0 <= i r <= Size r ->
    match EfiEvents.readPartitions size n acc r with
    | Ok partitions r' =>
        s r' = s r /\ i r' = i r + Z.of_nat n * size /\ i r' <= Size r
        /\ partitions
           = acc ++ partitionsAt (s r) (Z.to_nat (i r)) (Z.to_nat size) n
        /\ (0 < Z.of_nat n -> 56 <= size)
    | Err e _ => endOfStream e
    | Panic _ => False
    end.
Proof.
  intros Hsize. induction n as [|n IH]; intros acc r Hi.
  - cbn. rewrite app_nil_r. repeat split; lia.
  - cbn [EfiEvents.readPartitions]. unfold bind at 1.
    rewrite make_ok by (unfold maxAlloc; lia).
    unfold bind at 1.
    destruct (ReadFull_cases_any size r)
      as [[H1 (bs & -> & Hbl & Hbs)]|[H1 (e & r' & -> & He)]];
      [lia | lia | lia | | exact He].
    unfold bind at 1, onStream.
    pose proof (decodePartitionEntry_outcomes bs ltac:(lia)) as He.
    destruct (EfiEvents.decodePartitionEntry (NewReader bs))
      as [entry r1|e r1|msg]; [|apply He|exact He].
    destruct He as [H56 ->].
    specialize (IH (acc ++ [partitionEntryOf bs]) (advance r size)).
    rewrite Size_advance in IH. cbn [advance s i] in IH.
    destruct (EfiEvents.readPartitions size n _ _) as [ps r2|e r2|msg];
      [|apply IH; lia|apply IH; lia].
    destruct IH as (Hs & Hpos & Hend & Hps & _); [lia|].
    split; [exact Hs|]. split; [lia|]. split; [exact Hend|]. split; [|lia].
    rewrite Hps, <- app_assoc. cbn [app partitionsAt]. rewrite Hbs.
    do 3 f_equal. lia.
Qed.

(** The cases of [decodeEventDataEFIGPTImpl], with [partEntrySize] the
    32-bit field at the offset 84 and [numberOfParts] the 64-bit field at
    the offset 92.  The last case is the one in which [make] refuses the
    length; an allocation that [make] accepts is taken to succeed. *)
Lemma decodeEventDataEFIGPTImpl_cases :
  forall data : list byte,
    let partEntrySize := leUint (field 84 4 data) in
    let numberOfParts := leUint (field 92 8 data) in
    match EfiEvents.decodeEventDataEFIGPTImpl data with
    | Returns (Some d, n, None) =>
        EfiEvents.EFIGPTEventData_Bytes d = []
        /\ EfiEvents.DiskGUID d = guidOf (field 56 16 data)
        /\ EfiEvents.Partitions d
           = partitionsAt data 100 (Z.to_nat partEntrySize)
               (Z.to_nat numberOfParts)
        /\ (0 < numberOfParts -> 56 <= partEntrySize)
        /\ n = 100 + numberOfParts * partEntrySize
        /\ n <= Z.of_nat (length data)
    | Returns (None, n, Some e) => n = 0 /\ (e = EOF \/ e = ErrUnexpectedEOF)
    | Returns _ => False
    | Panics _ =>
        100 <= Z.of_nat (length data)
        /\ maxAlloc < EfiEvents.sizeofPartitionEntry * numberOfParts
    end.
Proof.
  intros data partEntrySize numberOfParts.
  unfold EfiEvents.decodeEventDataEFIGPTImpl, bind.
  rewrite SeekCurrent_forward by (cbn; lia).
  destruct (decodeEFIGUID_cases (advance (NewReader data) 56))
    as [[H1 ->]|[H1 (e & r' & -> & He)]]; [cbn; lia | | now split].
  rewrite SeekCurrent_forward by (cbn; lia).
  destruct (binaryRead_cases LittleEndian 4
              (advance (advance (advance (NewReader data) 56) 16) 12))
    as [[H2 ->]|[H2 (e & r' & -> & He)]]; [lia | cbn; lia | | now split].
  rewrite SeekCurrent_forward by (cbn; lia).
  destruct (binaryRead_cases LittleEndian 8
              (advance (advance (advance (advance (advance (NewReader data)
                                                      56) 16) 12) 4) 4))
    as [[H3 ->]|[H3 (e & r' & -> & He)]]; [lia | cbn; lia | | now split].
  rewrite !Size_advance in *. unfold Size in H1, H2, H3.
  cbn [advance NewReader s i] in H1, H2, H3.
  set (r6 := advance (advance (advance (advance (advance (advance
               (NewReader data) 56) 16) 12) 4) 4) 8).
  assert (Hs6 : s r6 = data) by reflexivity.
  assert (Hi6 : i r6 = 100) by reflexivity.
  cbn [advance NewReader s i].
  change (Z.to_nat (0 + 56)) with 56%nat.
  change (Z.to_nat (0 + 56 + 16 + 12)) with 84%nat.
  change (Z.to_nat (0 + 56 + 16 + 12 + 4 + 4)) with 92%nat.
  change (Z.to_nat 4) with 4%nat. change (Z.to_nat 8) with 8%nat.
  change (Uint LittleEndian (field 84 4 data)) with partEntrySize.
  change (Uint LittleEndian (field 92 8 data)) with numberOfParts.
  assert (Hsize : 0 <= partEntrySize < 2 ^ 32)
    by (apply (Uint_field_range LittleEndian 84 4 data)).
  assert (Hparts : 0 <= numberOfParts) by apply leUint_nonneg.
  unfold make.
  destruct ((numberOfParts >=? 2 ^ 63)
            || (EfiEvents.sizeofPartitionEntry * numberOfParts >? maxAlloc))
    eqn:Hmake.
  { split; [lia|]. apply orb_true_iff in Hmake.
    rewrite Z.geb_leb, Z.gtb_ltb in Hmake.
    unfold EfiEvents.sizeofPartitionEntry in *.
    destruct Hmake as [H|H]; [apply Z.leb_le in H | apply Z.ltb_lt in H];
      unfold maxAlloc in *; lia. }
  pose proof (readPartitions_outcomes partEntrySize (Z.to_nat numberOfParts)
                Hsize [] r6) as Hp.
  destruct (EfiEvents.readPartitions partEntrySize _ _ _) as [ps r7|e r7|msg];
    [|split; [reflexivity | apply Hp; unfold Size; rewrite Hs6, Hi6; lia]
     |exfalso; apply Hp; unfold Size; rewrite Hs6, Hi6; lia].
  destruct Hp as (Hs & Hpos & Hend & Hps & H56);
    [unfold Size; rewrite Hs6, Hi6; lia|].
  unfold Size in Hend. rewrite Hs6 in Hs, Hend, Hps. rewrite Hi6 in Hpos, Hps.
  unfold ret. rewrite bytesRead_inside by (unfold Size; rewrite Hs; lia).
  cbn [EfiEvents.EFIGPTEventData_Bytes EfiEvents.gptData EfiEvents.DiskGUID
       EfiEvents.Partitions].
  split; [reflexivity|]. split; [reflexivity|].
  split; [exact Hps|]. split; [intros; apply H56; lia|]. split; lia.
Qed.

(** A GPT event with one partition of 60 bytes whose name is ["AB"]. *)
Example decodeEventDataEFIGPTImpl_example :
  EfiEvents.decodeEventDataEFIGPTImpl
    (repeat x00 56 ++ repeat x11 16 ++ repeat x00 12 ++ [x3c; x00; x00; x00]
     ++ repeat x00 4 ++ [x01; x00; x00; x00; x00; x00; x00; x00]
     ++ repeat x22 16 ++ repeat x33 16 ++ repeat x00 16
     ++ [x05; x00; x00; x00; x00; x00; x00; x00] ++ [x41; x00; x42; x00]
     ++ [xee])
  = Returns
      (Some (EfiEvents.mkGPT []
               (Efi.mkEFIGUID 0x11111111 0x1111 0x1111 0x1111 (repeat x11 6))
               [EfiEvents.mkPartitionEntry
                  (Efi.mkEFIGUID 0x22222222 0x2222 0x2222 0x2222 (repeat x22 6))
                  (Efi.mkEFIGUID 0x33333333 0x3333 0x3333 0x3333 (repeat x33 6))
                  5 "AB"]),
       160, None).
Proof. vm_compute. reflexivity. Qed.

(** ** The renderings *)

(** [%x] with a width: the number of digits. *)
Lemma fmtDigits_length (k : nat) :
  forall (fuel : nat) (u : Z) (acc : string),
    (1 <= k <= fuel)%nat -> 0 <= u < 16 ^ Z.of_nat k ->
    (String.length acc + 1 <= String.length (fmtDigits fuel 16 u acc)
     <= String.length acc + k)%nat.
Proof.
  induction k as [|k IH]; intros fuel u acc Hk Hu; [lia|].
  destruct fuel as [|fuel]; [lia|]. cbn [fmtDigits].
  destruct (Z.geb_spec u 16) as [Hge|Hlt].
  - destruct k as [|k]; [cbn in Hu; lia|].
    assert (Hq : 0 <= u / 16 < 16 ^ Z.of_nat (S k)).
    { rewrite (Nat2Z.inj_succ (S k)), Z.pow_succ_r in Hu by lia.
      split; [apply Z.div_pos; lia | apply Z.div_lt_upper_bound; lia]. }
    specialize (IH fuel (u / 16) (String (digit (u mod 16)) acc) ltac:(lia) Hq).
    cbn [String.length] in IH. lia.
  - cbn [String.length]. lia.
Qed.

Lemma padZeros_length (fuel : nat) :
  forall (prec : nat) (str : string),
    (prec - String.length str <= fuel)%nat ->
    String.length (padZeros fuel prec str) = Nat.max prec (String.length str).
Proof.
  induction fuel as [|fuel IH]; intros prec str H; cbn [padZeros].
  - lia.
  - destruct (Nat.ltb_spec (String.length str) prec).
    + rewrite IH by (cbn [String.length]; lia). cbn [String.length]. lia.
    + lia.
Qed.

Lemma fmtInteger_hex_length (w : nat) (u : Z) :
  (1 <= w <= 68)%nat -> 0 <= u < 16 ^ Z.of_nat w ->
  String.length (fmtInteger 16 w u) = w.
Proof.
  intros Hw Hu. unfold fmtInteger.
  pose proof (fmtDigits_length w 68 u "" ltac:(lia) Hu) as H.
  cbn [String.length] in H. rewrite padZeros_length by lia. lia.
Qed.

Lemma hexBytes_length (b : list byte) :
  String.length (hexBytes b) = (2 * length b)%nat.
Proof.
  induction b as [|c b IH]; [reflexivity|].
  cbn [hexBytes String.length length]. lia.
Qed.

Lemma fmtSbx_length (w : nat) (b : list byte) :
  (2 * length b = w)%nat -> String.length (fmtSbx w b) = w.
Proof.
  intros H. unfold fmtSbx. rewrite padZeros_length; rewrite hexBytes_length; lia.
Qed.

Lemma Uint_hex_range (order : ByteOrder) (off len : nat) (data : list byte) :
  0 <= Uint order (field off len data) < 16 ^ Z.of_nat (2 * len).
Proof.
  pose proof (Uint_field_range order off len data) as H.
  replace (16 ^ Z.of_nat (2 * len)) with (256 ^ Z.of_nat len); [exact H|].
  rewrite Nat2Z.inj_mul, Z.pow_mul_r by lia. reflexivity.
Qed.

(** The GUID that [readEFIGUID] reads from the next 16 bytes. *)
Lemma EventData_readEFIGUID_value (order : ByteOrder) (r : Reader) :
  0 <= i r ->
  match EventData.readEFIGUID order r with
  | Ok g _ =>
      i r + 16 <= Size r
      /\ g = EventData.mkEFIGUID
               (Uint order (field (Z.to_nat (i r)) 4 (s r)))
               (Uint order (field (Z.to_nat (i r) + 4) 2 (s r)))
               (Uint order (field (Z.to_nat (i r) + 6) 2 (s r)))
               (field (Z.to_nat (i r) + 8) 8 (s r))
  | Err _ _ => True
  | Panic _ => False
  end.
Proof.
  intros Hi. unfold EventData.readEFIGUID, bind.
  destruct (binaryRead_cases order 4 r)
    as [[H1 ->]|[H1 (e & r' & -> & He)]]; [lia | lia | | exact I].
  destruct (binaryRead_cases order 2 (advance r 4))
    as [[H2 ->]|[H2 (e & r' & -> & He)]]; [lia | cbn; lia | | exact I].
  destruct (binaryRead_cases order 2 (advance (advance r 4) 2))
    as [[H3 ->]|[H3 (e & r' & -> & He)]]; [lia | cbn; lia | | exact I].
  destruct (ReadFull_cases 8 (advance (advance (advance r 4) 2) 2))
    as [[H4 ->]|[H4 (e & r' & -> & He)]]; [lia | cbn; lia | | exact I].
  rewrite !Size_advance in H4. cbn [advance i s] in H4 |- *.
  unfold ret. split; [lia|].
  replace (Z.to_nat (i r + 4)) with (Z.to_nat (i r) + 4)%nat by lia.
  replace (Z.to_nat (i r + 4 + 2)) with (Z.to_nat (i r) + 6)%nat by lia.
  replace (Z.to_nat (i r + 4 + 2 + 2)) with (Z.to_nat (i r) + 8)%nat by lia.
  reflexivity.
Qed.

(** X22.  The rendering of a GUID has a fixed width.  The string that
    [String] gives for a GUID read by [decodeEFIGUID] of efi.go, and the
    one for a GUID read by [readEFIGUID] of eventdata.go in either byte
    order, has exactly 38 characters: the braces, the four dashes and 32
    hexadecimal digits, no group shorter or longer than its width. *)
Theorem EFIGUID_String_length :
  forall (order : ByteOrder) (r : Reader),
    0 <= i r ->
    (forall g r', Efi.decodeEFIGUID r = Ok g r' ->
                  String.length (Efi.EFIGUID_String g) = 38%nat)
    /\ (forall h r', EventData.readEFIGUID order r = Ok h r' ->
                     String.length (EventData.EFIGUID_String h) = 38%nat).
Proof.
  intros order r Hi. split.
  - intros g r' H. pose proof (decodeEFIGUID_outcomes r Hi) as Hg.
    rewrite H in Hg. destruct Hg as (Hsz & -> & _).
    unfold Efi.EFIGUID_String, guidOf.
    cbn [Efi.A Efi.B Efi.C Efi.D Efi.E].
    change (firstn 4 (field ?o 16 ?d)) with (field 0 4 (field o 16 d)).
    change (firstn 2 (skipn 4 (field ?o 16 ?d))) with (field 4 2 (field o 16 d)).
    change (firstn 2 (skipn 6 (field ?o 16 ?d))) with (field 6 2 (field o 16 d)).
    change (firstn 2 (skipn 8 (field ?o 16 ?d))) with (field 8 2 (field o 16 d)).
    change (firstn 6 (skipn 10 (field ?o 16 ?d)))
      with (field 10 6 (field o 16 d)).
    rewrite !field_field by lia.
    change leUint with (Uint LittleEndian). change beUint with (Uint BigEndian).
    rewrite !string_length_app.
    rewrite (fmtInteger_hex_length 8) by (try lia; apply (Uint_hex_range _ _ 4)).
    rewrite !(fmtInteger_hex_length 4)
      by (try lia; apply (Uint_hex_range _ _ 2)).
    rewrite (fmtSbx_length 12)
      by (rewrite length_field; unfold Size in Hsz; lia).
    reflexivity.
  - intros h r' H. pose proof (EventData_readEFIGUID_value order r Hi) as Hg.
    rewrite H in Hg. destruct Hg as (Hsz & ->).
    unfold EventData.EFIGUID_String.
    cbn [EventData.Data1 EventData.Data2 EventData.Data3 EventData.Data4].
    change (EventData.slice 0 2 ?b) with (field 0 2 b).
    change (EventData.slice 2 8 ?b) with (field 2 6 b).
    rewrite !field_field by lia.
    rewrite !string_length_app.
    rewrite (fmtInteger_hex_length 8) by (try lia; apply (Uint_hex_range _ _ 4)).
    rewrite !(fmtInteger_hex_length 4)
      by (try lia; apply (Uint_hex_range _ _ 2)).
    rewrite (fmtSbx_length 4)
      by (rewrite length_field; unfold Size in Hsz; lia).
    rewrite (fmtSbx_length 12)
      by (rewrite length_field; unfold Size in Hsz; lia).
    reflexivity.
Qed.

Lemma EFIGUID_String_length_witness :
  0 <= i (NewReader [x61; xdf; xe4; x8b; xca; x93; xd2; x11;
                     xaa; x0d; x00; xe0; x98; x03; x2b; x8c])
  /\ Efi.decodeEFIGUID (NewReader [x61; xdf; xe4; x8b; xca; x93; xd2; x11;
                                  xaa; x0d; x00; xe0; x98; x03; x2b; x8c])
     = Ok (Efi.mkEFIGUID 0x8be4df61 0x93ca 0x11d2 0xaa0d
             [x00; xe0; x98; x03; x2b; x8c])
          (mkReader [x61; xdf; xe4; x8b; xca; x93; xd2; x11;
                     xaa; x0d; x00; xe0; x98; x03; x2b; x8c] 16)
  /\ String.length
       (Efi.EFIGUID_String
          (Efi.mkEFIGUID 0x8be4df61 0x93ca 0x11d2 0xaa0d
             [x00; xe0; x98; x03; x2b; x8c])) = 38%nat.
Proof.
  assert (H0 : 0 <= i (NewReader [x61; xdf; xe4; x8b; xca; x93; xd2; x11;
                                  xaa; x0d; x00; xe0; x98; x03; x2b; x8c]))
    by (cbn; lia).
  assert (H1 : Efi.decodeEFIGUID
                 (NewReader [x61; xdf; xe4; x8b; xca; x93; xd2; x11;
                             xaa; x0d; x00; xe0; x98; x03; x2b; x8c])
               = Ok (Efi.mkEFIGUID 0x8be4df61 0x93ca 0x11d2 0xaa0d
                       [x00; xe0; x98; x03; x2b; x8c])
                    (mkReader [x61; xdf; xe4; x8b; xca; x93; xd2; x11;
                               xaa; x0d; x00; xe0; x98; x03; x2b; x8c] 16))
    by (vm_compute; reflexivity).
  split; [exact H0|]. split; [exact H1|].
  exact (proj1 (EFIGUID_String_length LittleEndian _ H0) _ _ H1).
Defined.

(** X23.  The names of the node types are told apart.  Two types of
    device-path nodes have the same name under [String] exactly when
    they are the same type: the names of the five known types and the
    form [Path[xx]] of every other one never coincide. *)
Theorem efiDevicePathNodeType_String_injective :
  forall a b : byte,
    String.eqb (EfiPaths.efiDevicePathNodeType_String (byteZ a))
               (EfiPaths.efiDevicePathNodeType_String (byteZ b))
    = Byte.eqb a b.
Proof.
  intros a b.
  assert (H : forallb (fun x => forallb (fun y =>
                Bool.eqb
                  (String.eqb (EfiPaths.efiDevicePathNodeType_String (byteZ x))
                              (EfiPaths.efiDevicePathNodeType_String (byteZ y)))
                  (Byte.eqb x y)) all_bytes) all_bytes = true)
    by (vm_compute; reflexivity).
  rewrite forallb_forall in H. specialize (H a (all_bytes_complete a)).
  rewrite forallb_forall in H. specialize (H b (all_bytes_complete b)).
  now apply Bool.eqb_prop.
Qed.

Lemma append_nonempty (a b : string) : b <> ""%string -> (a ++ b)%string <> ""%string.
Proof.
  intros Hb. destruct a; [exact Hb | discriminate].
Qed.

(** Every node has a rendering: a node for which no special form
    applies, or whose data is too short for its special form, is shown in
    the generic form. *)
Lemma efiDevicePathNode_String_nonempty :
  forall n : efiDevicePathNode,
    EfiPaths.efiDevicePathNode_String n <> ""%string.
Proof.
  intros n. unfold EfiPaths.efiDevicePathNode_String.
  destruct (String.eqb_spec (EfiPaths.toString n) "") as [E|E]; cbn [negb].
  - unfold EfiPaths.genericString.
    repeat apply append_nonempty. discriminate.
  - exact E.
Qed.

(** ** File-path nodes *)

Lemma encodeUTF16_range (r : Z) :
  scalar r -> Forall (fun c => 0 <= c < 65536) (encodeUTF16 r).
Proof.
  unfold scalar, encodeUTF16, surr1, surr3. intros Hr.
  destruct (Z.ltb_spec r 0x10000).
  - repeat constructor; lia.
  - destruct (surrogate_halves r) as [Hh Hl]; [lia|].
    unfold surr2. repeat constructor; lia.
Qed.

Lemma units_range (rs : list Z) :
  Forall scalar rs ->
  Forall (fun c => 0 <= c < 65536) (concat (map encodeUTF16 rs)).
Proof.
  induction 1 as [|r rs Hr _ IH]; [constructor|].
  cbn [map concat]. apply Forall_app. split; [now apply encodeUTF16_range|exact IH].
Qed.

Lemma uint16s_unitsLE (u : list Z) (odd : list byte) :
  Forall (fun c => 0 <= c < 65536) u -> (length odd <= 1)%nat ->
  uint16s LittleEndian (unitsLE u ++ odd) = u.
Proof.
  intros Hu Hodd. induction Hu as [|c u Hc _ IH].
  - destruct odd as [|b [|b' odd]]; [reflexivity | reflexivity | cbn in Hodd; lia].
  - change (unitsLE (c :: u)) with (encodeUint LittleEndian 2 c ++ unitsLE u).
    rewrite <- app_assoc.
    change (encodeUint LittleEndian 2 c)
      with [byteOfZ c; byteOfZ (c / 256)].
    cbn [app uint16s]. rewrite IH. f_equal.
    change [byteOfZ c; byteOfZ (c / 256)] with (encodeUint LittleEndian 2 c).
    apply Uint_encodeUint. change (256 ^ Z.of_nat 2) with 65536. exact Hc.
Qed.

Lemma EncodeRune_nonempty (r : Z) : EncodeRune r <> [].
Proof.
  unfold EncodeRune, encodeRune3.
  repeat match goal with
    | |- context [if ?b then _ else _] => destruct b
    end; discriminate.
Qed.

Lemma runesToString_nonempty (rs : list Z) :
  rs <> [] -> runesToString rs <> ""%string.
Proof.
  destruct rs as [|r rs]; [congruence|]. intros _.
  unfold runesToString. cbn [map concat].
  pose proof (EncodeRune_nonempty r) as H.
  destruct (EncodeRune r); [congruence | discriminate].
Qed.

(** X24.  The rendering of a file-path node.  A media node of sub-type
    file path whose data is the little-endian UTF-16 form of scalar
    values, at least one, with or without one odd byte at the end, is
    rendered as these values in UTF-8; the odd byte is not shown. *)
Theorem file_path_node_String :
  forall (rs : list Z) (odd : list byte),
    Forall scalar rs ->
    rs <> [] ->
    (length odd <= 1)%nat ->
    EfiPaths.efiDevicePathNode_String
      (mkNode EfiPaths.efiDevicePathNodeMedia
         EfiPaths.efiMediaDevicePathNodeFilePath (utf16LE rs ++ odd))
    = runesToString rs.
Proof.
  intros rs odd Hrs Hne Hodd.
  assert (Hto : EfiPaths.toString
                  (mkNode EfiPaths.efiDevicePathNodeMedia
                     EfiPaths.efiMediaDevicePathNodeFilePath (utf16LE rs ++ odd))
                = runesToString rs).
  { unfold EfiPaths.toString. cbn [t subType].
    change (EfiPaths.efiDevicePathNodeMedia =? EfiPaths.efiDevicePathNodeMedia)
      with true.
    change (EfiPaths.efiMediaDevicePathNodeFilePath
            =? EfiPaths.efiMediaDevicePathNodeFvFile) with false.
    change (EfiPaths.efiMediaDevicePathNodeFilePath
            =? EfiPaths.efiMediaDevicePathNodeFv) with false.
    change (EfiPaths.efiMediaDevicePathNodeFilePath
            =? EfiPaths.efiMediaDevicePathNodeHardDrive) with false.
    change (EfiPaths.efiMediaDevicePathNodeFilePath
            =? EfiPaths.efiMediaDevicePathNodeFilePath) with true.
    cbn [andb orb]. unfold EfiPaths.filePathDevicePathNodeToString.
    cbn [data].
    set (u := concat (map encodeUTF16 rs)).
    assert (Hlen : Z.of_nat (length (utf16LE rs ++ odd))
                   = 2 * Z.of_nat (length u) + Z.of_nat (length odd)).
    { rewrite length_app, Nat2Z.inj_add. unfold utf16LE. fold u.
      now rewrite length_unitsLE. }
    assert (Hcount : Z.of_nat (length (utf16LE rs ++ odd)) / 2
                     = Z.of_nat (length u)).
    { rewrite Hlen. symmetry. apply (Z.div_unique _ 2 _ (Z.of_nat (length odd)));
        lia. }
    rewrite Hcount.
    rewrite uint16s_field_At
      by (try (cbn; lia); unfold Size; cbn [NewReader s i]; lia).
    cbn [NewReader s i]. change (Z.to_nat 0) with 0%nat.
    assert (Hfield : field 0 (Z.to_nat (2 * Z.of_nat (length u)))
                       (utf16LE rs ++ odd)
                     = utf16LE rs).
    { unfold field. cbn [skipn].
      replace (Z.to_nat (2 * Z.of_nat (length u))) with (length (utf16LE rs))
        by (unfold utf16LE; fold u; pose proof (length_unitsLE u); lia).
      rewrite firstn_app, firstn_all, Nat.sub_diag. cbn [firstn].
      apply app_nil_r. }
    rewrite Hfield. unfold utf16LE. fold u.
    rewrite <- (app_nil_r (unitsLE u)).
    rewrite uint16s_unitsLE by (try apply units_range; auto; cbn; lia).
    unfold u. now rewrite Decode_encoded. }
  unfold EfiPaths.efiDevicePathNode_String. rewrite Hto.
  destruct (String.eqb_spec (runesToString rs) "") as [E|_]; [|reflexivity].
  now apply runesToString_nonempty in E.
Qed.

Lemma file_path_node_String_witness :
  Forall scalar [0x5c; 0x45; 0x46; 0x49]
  /\ [0x5c; 0x45; 0x46; 0x49] <> []
  /\ (length [xff] <= 1)%nat
  /\ EfiPaths.efiDevicePathNode_String
       (mkNode 4 4 [x5c; x00; x45; x00; x46; x00; x49; x00; xff])
     = "\EFI"%string.
Proof.
  assert (H1 : Forall scalar [0x5c; 0x45; 0x46; 0x49])
    by (repeat constructor; unfold scalar, surr1, surr3; lia).
  assert (H2 : [0x5c; 0x45; 0x46; 0x49] <> []) by discriminate.
  assert (H3 : (length [xff] <= 1)%nat) by (cbn; lia).
  split; [exact H1|]. split; [exact H2|]. split; [exact H3|].
  exact (file_path_node_String [0x5c; 0x45; 0x46; 0x49] [xff] H1 H2 H3).
Defined.

(** ** Device paths *)

Lemma string_app_assoc (a b c : string) :
  ((a ++ b) ++ c)%string = (a ++ (b ++ c))%string.
Proof.
  induction a as [|x a IH]; [reflexivity|]. cbn [append]. now rewrite IH.
Qed.

Lemma writeNodes_app (nodes : list efiDevicePathNode) :
  forall (isRoot : bool) (builder : string) (n : efiDevicePathNode),
    EfiPaths.writeNodes isRoot (nodes ++ [n]) builder
    = ((if isRoot && match nodes with [] => true | _ => false end
        then EfiPaths.writeNodes isRoot nodes builder
        else EfiPaths.writeNodes isRoot nodes builder ++ "/")
       ++ EfiPaths.efiDevicePathNode_String n)%string.
Proof.
  induction nodes as [|m nodes IH]; intros isRoot builder n.
  - cbn. destruct isRoot; reflexivity.
  - cbn [app EfiPaths.writeNodes]. rewrite IH. cbn [andb].
    now rewrite andb_false_r.
Qed.

(** X25.  The rendering of a device path.  [String] of a path writes its
    nodes in their order with one ["/"] between two nodes and none
    before the first: one more node at the end of a path that is not
    empty adds ["/"] and the rendering of that node. *)
Theorem EFIDevicePath_String_app :
  forall (root : efiDevicePathNode) (rest : list efiDevicePathNode)
         (n : efiDevicePathNode),
    EfiPaths.EFIDevicePath_String [root] = EfiPaths.efiDevicePathNode_String root
    /\ EfiPaths.EFIDevicePath_String ((root :: rest) ++ [n])
       = (EfiPaths.EFIDevicePath_String (root :: rest) ++ "/"
          ++ EfiPaths.efiDevicePathNode_String n)%string.
Proof.
  intros root rest n. split; [reflexivity|].
  unfold EfiPaths.EFIDevicePath_String. rewrite writeNodes_app.
  cbn [andb]. now rewrite string_app_assoc.
Qed.

(** Nodes in their special and in their generic form. *)
Example efiDevicePathNode_String_examples :
  EfiPaths.EFIDevicePath_String
    [mkNode 2 1 [xd0; x41; x03; x0a; x00; x00; x00; x00];
     mkNode 1 1 [x00; x1f];
     mkNode 3 18 [x01; x00; xff; xff; x00; x00];
     mkNode 4 4 [x5c; x00; x45; x00; x46; x00; x49; x00]]
  = "PciRoot(0x0)/Pci(0x1f,0x0)/Sata(0x1,0xffff,0x0)/\EFI"%string
  /\ EfiPaths.efiDevicePathNode_String (mkNode 1 1 [x00])
     = "HardwarePath(1, 0x00)"%string
  /\ EfiPaths.efiDevicePathNode_String (mkNode 0x7e 2 [])
     = "Path[7e](2)"%string
  /\ EfiPaths.efiDevicePathNode_String
       (mkNode 4 1
          ([x01; x00; x00; x00] ++ [x00; x08; x00; x00; x00; x00; x00; x00]
           ++ [x00; x00; x10; x00; x00; x00; x00; x00]
           ++ [x61; xdf; xe4; x8b; xca; x93; xd2; x11;
               xaa; x0d; x00; xe0; x98; x03; x2b; x8c] ++ [x02; x02]))
     = "HD(1,GPT,{8be4df61-93ca-11d2-aa0d-00e098032b8c},0x0000000000000800, 0x0000000000100000)"%string.
Proof. repeat split; vm_compute; reflexivity. Qed.

(* ================================================================== *)
(** * What the decoders have returned *)

(** The theorems of this part are about the results that a decoder
    returns: whether an allocation from a length field of the event
    succeeds is the run time's matter and is not decided here. *)

(** X4.  What [decodeEventDataEFIVariableImpl] returns.  With
    [nameLength] and [dataLength] the two 64-bit fields at the offsets
    16 and 24: whenever the decoder returns, it returns an event and a
    [nil] error, or no event and an error.  The event keeps the event
    data, its GUID is read from the first 16 bytes, its variable data is
    the [dataLength] bytes that end where reading stopped, and the
    number of bytes read is at least [32 + 2 * nameLength + dataLength],
    at most [32 + 4 * nameLength + dataLength], and never more than the
    length of the event data.  The error comes with a count of 0 and is
    [io.EOF] or [io.ErrUnexpectedEOF]. *)
Theorem decodeEventDataEFIVariableImpl_returned :
  forall (data : list byte) (eventType : EventType)
         (d : option EfiEvents.EFIVariableEventData) (n : Z)
         (err : option error),
    EfiEvents.decodeEventDataEFIVariableImpl data eventType
    = Returns (d, n, err) ->
    let nameLength := leUint (field 16 8 data) in
    let dataLength := leUint (field 24 8 data) in
    match d, err with
    | Some d, None =>
        EfiEvents.EFIVariableEventData_Bytes d = data
        /\ EfiEvents.VariableName d = guidOf (field 0 16 data)
        /\ EfiEvents.VariableData d
           = field (Z.to_nat (n - dataLength)) (Z.to_nat dataLength) data
        /\ Z.of_nat (length (EfiEvents.VariableData d)) = dataLength
        /\ 32 + 2 * nameLength + dataLength <= n
           <= 32 + 4 * nameLength + dataLength
        /\ n <= Z.of_nat (length data)
    | None, Some e => n = 0 /\ (e = EOF \/ e = ErrUnexpectedEOF)
    | _, _ => False
    end.
Proof.
  intros data eventType d n err H nameLength dataLength.
  pose proof (decodeEventDataEFIVariableImpl_cases data eventType) as Hc.
  cbv zeta in Hc. rewrite H in Hc.
  destruct d as [d|], err as [e|]; exact Hc.
Qed.

Lemma decodeEventDataEFIVariableImpl_returned_witness :
  EfiEvents.decodeEventDataEFIVariableImpl
    (repeat x00 16 ++ [x02; x00; x00; x00; x00; x00; x00; x00]
     ++ [x03; x00; x00; x00; x00; x00; x00; x00]
     ++ [x41; x00; x3d; xd8; x00; xde] ++ [x01; x02; x03] ++ [xff])
    EventTypeEFIVariableBoot
  = Returns (Some (EfiEvents.mkEFIVariable
                     (repeat x00 16 ++ [x02; x00; x00; x00; x00; x00; x00; x00]
                      ++ [x03; x00; x00; x00; x00; x00; x00; x00]
                      ++ [x41; x00; x3d; xd8; x00; xde] ++ [x01; x02; x03]
                      ++ [xff])
                     (Efi.mkEFIGUID 0 0 0 0 (repeat x00 6))
                     (string_of_list_byte [x41; xf0; x9f; x98; x80])
                     [x01; x02; x03]),
             41, None)
  /\ [x01; x02; x03]
     = field 38 3
         (repeat x00 16 ++ [x02; x00; x00; x00; x00; x00; x00; x00]
          ++ [x03; x00; x00; x00; x00; x00; x00; x00]
          ++ [x41; x00; x3d; xd8; x00; xde] ++ [x01; x02; x03] ++ [xff])
  /\ 32 + 2 * 2 + 3 <= 41 <= 32 + 4 * 2 + 3
  /\ 41 <= 42.
Proof.
  assert (H : EfiEvents.decodeEventDataEFIVariableImpl
                (repeat x00 16 ++ [x02; x00; x00; x00; x00; x00; x00; x00]
                 ++ [x03; x00; x00; x00; x00; x00; x00; x00]
                 ++ [x41; x00; x3d; xd8; x00; xde] ++ [x01; x02; x03] ++ [xff])
                EventTypeEFIVariableBoot
              = Returns (Some (EfiEvents.mkEFIVariable
                                 (repeat x00 16
                                  ++ [x02; x00; x00; x00; x00; x00; x00; x00]
                                  ++ [x03; x00; x00; x00; x00; x00; x00; x00]
                                  ++ [x41; x00; x3d; xd8; x00; xde]
                                  ++ [x01; x02; x03] ++ [xff])
                                 (Efi.mkEFIGUID 0 0 0 0 (repeat x00 6))
                                 (string_of_list_byte [x41; xf0; x9f; x98; x80])
                                 [x01; x02; x03]),
                         41, None)) by reflexivity.
  split; [exact H|].
  destruct (decodeEventDataEFIVariableImpl_returned _ _ _ _ _ H)
    as (_ & _ & Hv & _ & Hn & Hlen).
  split; [exact Hv|]. split; [exact Hn | exact Hlen].
Defined.

(** X10.  What [decodeEventDataEFIImageLoadImpl] of efi.go returns.  With
    [devicePathLength] the 64-bit field at the offset 24: whenever the
    decoder returns, it returns an event and a [nil] error, or no event
    and an error.  The event keeps the event data, its three addresses
    are the 64-bit fields at the offsets 0, 8 and 16, its path is what
    [readDevicePath] makes of the [devicePathLength] bytes from the
    offset 32 on, and the number of bytes read is
    [32 + devicePathLength], never more than the length of the event
    data.  The error comes with a count of 0 and is [io.EOF] or
    [io.ErrUnexpectedEOF]. *)
Theorem Efi_decodeEventDataEFIImageLoadImpl_returned :
  forall (data : list byte) (d : option EFIImageLoadEventData) (n : Z)
         (err : option error),
    Efi.decodeEventDataEFIImageLoadImpl data = Returns (d, n, err) ->
    let devicePathLength := leUint (field 24 8 data) in
    match d, err with
    | Some d, None =>
        imageLoadData d = data
        /\ LocationInMemory d = leUint (field 0 8 data)
        /\ LengthInMemory d = leUint (field 8 8 data)
        /\ LinkTimeAddress d = leUint (field 16 8 data)
        /\ Efi.readDevicePath (field 32 (Z.to_nat devicePathLength) data)
           = Returns (Path d)
        /\ n = 32 + devicePathLength
        /\ n <= Z.of_nat (length data)
    | None, Some e => n = 0 /\ (e = EOF \/ e = ErrUnexpectedEOF)
    | _, _ => False
    end.
Proof.
  intros data d n err H devicePathLength.
  pose proof (Efi_decodeEventDataEFIImageLoadImpl_cases data) as Hc.
  cbv zeta in Hc. rewrite H in Hc.
  destruct d as [d|], err as [e|]; exact Hc.
Qed.

Lemma Efi_decodeEventDataEFIImageLoadImpl_returned_witness :
  Efi.decodeEventDataEFIImageLoadImpl (imageLoadTerminated ++ [xee])
  = Returns (Some (mkImageLoad (imageLoadTerminated ++ [xee]) 0 0 0
                     [mkNode 1 1 []]),
             40, None)
  /\ Efi.readDevicePath [x01; x01; x04; x00; x7f; xff; x04; x00]
     = Returns [mkNode 1 1 []]
  /\ 40 = 32 + 8
  /\ 40 <= 41.
Proof.
  assert (H : Efi.decodeEventDataEFIImageLoadImpl (imageLoadTerminated ++ [xee])
              = Returns (Some (mkImageLoad (imageLoadTerminated ++ [xee]) 0 0 0
                                 [mkNode 1 1 []]),
                         40, None)) by (vm_compute; reflexivity).
  split; [exact H|].
  destruct (Efi_decodeEventDataEFIImageLoadImpl_returned _ _ _ _ H)
    as (_ & _ & _ & _ & Hp & Hn & Hlen).
  split; [exact Hp|]. split; [exact Hn | exact Hlen].
Defined.

(** X21.  What [decodeEventDataEFIGPTImpl] returns.  With [partEntrySize]
    the 32-bit field at the offset 84 and [numberOfParts] the 64-bit
    field at the offset 92: whenever the decoder returns, it returns an
    event and a [nil] error, or no event and an error.  The disk GUID
    of the event is read from the offset 56, its partitions are the
    [numberOfParts] entries of [partEntrySize] bytes each from the
    offset 100 on, each at least 56 bytes long, and the number of bytes
    read is [100 + numberOfParts * partEntrySize], never more than the
    length of the event data; the event does not keep the event data,
    its [Bytes] are empty.  The error comes with a count of 0 and is
    [io.EOF] or [io.ErrUnexpectedEOF]. *)
Theorem decodeEventDataEFIGPTImpl_returned :
  forall (data : list byte) (d : option EfiEvents.EFIGPTEventData) (n : Z)
         (err : option error),
    EfiEvents.decodeEventDataEFIGPTImpl data = Returns (d, n, err) ->
    let partEntrySize := leUint (field 84 4 data) in
    let numberOfParts := leUint (field 92 8 data) in
    match d, err with
    | Some d, None =>
        EfiEvents.EFIGPTEventData_Bytes d = []
        /\ EfiEvents.DiskGUID d = guidOf (field 56 16 data)
        /\ EfiEvents.Partitions d
           = partitionsAt data 100 (Z.to_nat partEntrySize)
               (Z.to_nat numberOfParts)
        /\ (0 < numberOfParts -> 56 <= partEntrySize)
        /\ n = 100 + numberOfParts * partEntrySize
        /\ n <= Z.of_nat (length data)
    | None, Some e => n = 0 /\ (e = EOF \/ e = ErrUnexpectedEOF)
    | _, _ => False
    end.
Proof.
  intros data d n err H partEntrySize numberOfParts.
  pose proof (decodeEventDataEFIGPTImpl_cases data) as Hc.
  cbv zeta in Hc. rewrite H in Hc.
  destruct d as [d|], err as [e|]; exact Hc.
Qed.

Lemma decodeEventDataEFIGPTImpl_returned_witness :
  EfiEvents.decodeEventDataEFIGPTImpl
    (repeat x00 56 ++ repeat x11 16 ++ repeat x00 12 ++ [x3c; x00; x00; x00]
     ++ repeat x00 4 ++ [x01; x00; x00; x00; x00; x00; x00; x00]
     ++ repeat x22 16 ++ repeat x33 16 ++ repeat x00 16
     ++ [x05; x00; x00; x00; x00; x00; x00; x00] ++ [x41; x00; x42; x00]
     ++ [xee])
  = Returns
      (Some (EfiEvents.mkGPT []
               (Efi.mkEFIGUID 0x11111111 0x1111 0x1111 0x1111 (repeat x11 6))
               [EfiEvents.mkPartitionEntry
                  (Efi.mkEFIGUID 0x22222222 0x2222 0x2222 0x2222 (repeat x22 6))
                  (Efi.mkEFIGUID 0x33333333 0x3333 0x3333 0x3333 (repeat x33 6))
                  5 "AB"]),
       160, None)
  /\ (0 < 1 -> 56 <= 60)
  /\ 160 = 100 + 1 * 60
  /\ 160 <= 161.
Proof.
  assert (H : EfiEvents.decodeEventDataEFIGPTImpl
                (repeat x00 56 ++ repeat x11 16 ++ repeat x00 12
                 ++ [x3c; x00; x00; x00] ++ repeat x00 4
                 ++ [x01; x00; x00; x00; x00; x00; x00; x00]
                 ++ repeat x22 16 ++ repeat x33 16 ++ repeat x00 16
                 ++ [x05; x00; x00; x00; x00; x00; x00; x00]
                 ++ [x41; x00; x42; x00] ++ [xee])
              = Returns
                  (Some (EfiEvents.mkGPT []
                           (Efi.mkEFIGUID 0x11111111 0x1111 0x1111 0x1111
                              (repeat x11 6))
                           [EfiEvents.mkPartitionEntry
                              (Efi.mkEFIGUID 0x22222222 0x2222 0x2222 0x2222
                                 (repeat x22 6))
                              (Efi.mkEFIGUID 0x33333333 0x3333 0x3333 0x3333
                                 (repeat x33 6))
                              5 "AB"]),
                   160, None)) by (vm_compute; reflexivity).
  split; [exact H|].
  destruct (decodeEventDataEFIGPTImpl_returned _ _ _ _ H)
    as (_ & _ & _ & H56 & Hn & Hlen).
  split; [exact H56|]. split; [exact Hn | exact Hlen].
Defined.

(** ** What [makeEventData] has returned *)

Lemma HasSuffix_app (a suffix : string) : HasSuffix (a ++ suffix) suffix = true.
Proof.
  unfold HasSuffix. rewrite string_length_app.
  replace (String.length a + String.length suffix - String.length suffix)%nat
    with (String.length a) by lia.
  rewrite substring_skip_app, substring_0_length, String.eqb_refl.
  replace (String.length suffix <=? String.length a + String.length suffix)%nat
    with true by (symmetry; apply Nat.leb_le; lia).
  reflexivity.
Qed.

(** What [strings.TrimSuffix(str, "\x00")] keeps of the bytes [rest]:
    all of them but one NUL at the end, and all of them when they do
    not end in NUL. *)
Lemma trimmed_suffix (rest : list byte) :
  let m := list_byte_of_string (TrimSuffix (string_of_list_byte rest) NUL) in
  rest = m ++ [x00] \/ (rest = m /\ forall m', m <> m' ++ [x00]).
Proof.
  cbv zeta. unfold TrimSuffix.
  destruct (HasSuffix (string_of_list_byte rest) NUL) eqn:E.
  - left. destruct (HasSuffix_elim _ _ E) as [a Ha].
    assert (Hrest : rest = list_byte_of_string a ++ [x00]).
    { rewrite <- (list_byte_of_string_of_list_byte rest), Ha.
      now rewrite list_byte_of_string_app. }
    rewrite Hrest at 1. f_equal.
    rewrite Ha, string_length_app.
    change (String.length NUL) with 1%nat.
    replace (String.length a + 1 - 1)%nat with (String.length a) by lia.
    now rewrite substring_0_app.
  - right. rewrite list_byte_of_string_of_list_byte.
    split; [reflexivity|]. intros m' Hm.
    rewrite Hm, string_of_list_byte_app in E.
    change (string_of_list_byte [x00]) with NUL in E.
    now rewrite HasSuffix_app in E.
Qed.

Section Returned.

Context {X : Externals}.

(** An IPL event on PCR 8 that begins with one of the two prefixes
    measures what [strings.TrimSuffix] keeps of the bytes after the
    prefix. *)
Lemma makeEventData_IPL_prefixed (p : string) (rest : list byte)
    (order : ByteOrder) :
  p = EventData.kernelCmdlinePrefix \/ p = EventData.grubCmdPrefix ->
  exists e,
    EventData.makeEventData 8 EventTypeIPL (list_byte_of_string p ++ rest) order
    = Returns (Some e)
    /\ EventData.MeasuredBytes e
       = Some (list_byte_of_string
                 (TrimSuffix (string_of_list_byte rest) NUL)).
Proof.
  intros Hp. unfold EventData.makeEventData.
  rewrite makeEventDataImpl_IPL. unfold EventData.makeEventDataIPL.
  change (8 =? 8) with true. cbv iota zeta.
  rewrite !strings_Index_0, string_of_prefixed.
  destruct Hp as [->| ->].
  - rewrite prefix_app, TrimPrefix_app. eexists. split; reflexivity.
  - replace (String.prefix EventData.kernelCmdlinePrefix
               (EventData.grubCmdPrefix ++ string_of_list_byte rest))
      with false by reflexivity.
    rewrite prefix_app, TrimPrefix_app. eexists. split; reflexivity.
Qed.

(** X12.  What [makeEventData] gives to hash.  When [makeEventData]
    returns an event that has measured bytes, these are fixed by the
    event data.  For an IPL event on PCR 8 that begins with
    ["kernel_cmdline: "] or ["grub_cmd: "] they are the bytes after the
    prefix without one NUL byte at their end, and all the bytes after
    the prefix when these do not end in NUL.  For every other event they
    are the whole event data. *)
Theorem makeEventData_measured_bytes :
  forall (pcrIndex : PCRIndex) (eventType : EventType) (data : list byte)
         (order : ByteOrder) (e : EventData.EventData) (m : list byte),
    EventData.makeEventData pcrIndex eventType data order = Returns (Some e) ->
    EventData.MeasuredBytes e = Some m ->
    (forall (p : string) (rest : list byte),
       eventType = EventTypeIPL -> pcrIndex = 8 ->
       p = EventData.kernelCmdlinePrefix \/ p = EventData.grubCmdPrefix ->
       data = list_byte_of_string p ++ rest ->
       rest = m ++ [x00] \/ (rest = m /\ forall m', m <> m' ++ [x00]))
    /\
    ((eventType <> EventTypeIPL \/ pcrIndex <> 8
      \/ (forall (p : string) (rest : list byte),
            p = EventData.kernelCmdlinePrefix \/ p = EventData.grubCmdPrefix ->
            data <> list_byte_of_string p ++ rest)) ->
     m = data).
Proof.
  intros pcrIndex eventType data order e m He Hm. split.
  - intros p rest -> -> Hp ->.
    destruct (makeEventData_IPL_prefixed p rest order Hp) as (e' & He' & Hm').
    rewrite He in He'. inversion He'. subst e'.
    rewrite Hm in Hm'. inversion Hm'. apply trimmed_suffix.
  - intros Hother.
    destruct (makeEventData_measured_cases pcrIndex eventType data order e m
                He Hm) as [->|(Hty & Hpcr & p & Hp & Hdata)]; [reflexivity|].
    exfalso. destruct Hother as [H|[H|H]]; [now apply H | now apply H |].
    destruct Hdata as [Hdata|Hdata]; exact (H p _ Hp Hdata).
Qed.

(** X14.  No-action events.  Whenever [makeEventData] returns for an
    event of type [EV_NO_ACTION], it returns a spec-id event or an
    opaque event.  It returns a spec-id event only on PCR 0, and then
    with exactly the fields that the data has at their offsets for its
    signature: the platform class, version and errata, and for
    ["Spec ID Event03"] as many digest sizes as [numberOfAlgorithms]
    says, none included, and the vendor information.  The opaque event
    keeps the event data. *)
Theorem makeEventData_no_action :
  forall (pcrIndex : PCRIndex) (data : list byte) (order : ByteOrder)
         (v : option EventData.EventData),
    EventData.makeEventData pcrIndex EventTypeNoAction data order = Returns v ->
    match v with
    | Some (EventData.SpecId e) => pcrIndex = 0 /\ specIdDescribed order data e
    | Some (EventData.Opaque e) => EventData.opaqueEventData.data e = data
    | _ => False
    end.
Proof.
  intros pcrIndex data order v H.
  pose proof (makeEventData_no_action_cases pcrIndex data order) as Hc.
  rewrite H in Hc. destruct v as [[]|]; exact Hc.
Qed.

(** X15.  Events that [makeEventData] always returns.  Take event data
    of a length that a slice can have, of any type but the three of UEFI
    variables, and such that a length field from which the decoder
    allocates does not ask for more bytes than the event data has: the
    device-path length of an image load, and four bytes for each of the
    [numberOfAlgorithms] of a no-action event.  Then [makeEventData]
    does not panic: it returns an event, whose raw bytes are the event
    data.  Events of every other type are returned whatever their
    bytes. *)
Theorem makeEventData_returns_within_data :
  forall (pcrIndex : PCRIndex) (eventType : EventType) (data : list byte)
         (order : ByteOrder),
    Z.of_nat (length data) <= maxAlloc ->
    ~ In eventType [EventTypeEFIVariableDriverConfig;
                    EventTypeEFIVariableBoot;
                    EventTypeEFIVariableAuthority] ->
    (In eventType [EventTypeEFIBootServicesApplication;
                   EventTypeEFIBootServicesDriver;
                   EventTypeEFIRuntimeServicesDriver] ->
     Uint order (field 24 8 data) <= Z.of_nat (length data)) ->
    (eventType = EventTypeNoAction ->
     4 * Uint order (field 24 4 data) <= Z.of_nat (length data)) ->
    exists e,
      EventData.makeEventData pcrIndex eventType data order = Returns (Some e)
      /\ EventData.RawBytes e = data.
Proof.
  intros pcrIndex eventType data order Hmax Hvar Himg _.
  destruct (makeEventData_returns pcrIndex eventType data order)
    as [(msg & _ & Hp)|(e & He & Hraw & _)]; [|now exists e].
  exfalso.
  destruct (makeEventData_panic_cases pcrIndex eventType data order msg Hp)
    as (_ & [[Hty Hlen]|Hty]); [|now apply Hvar].
  specialize (Himg Hty). lia.
Qed.

End Returned.

Lemma makeEventData_measured_bytes_witness :
  EventData.makeEventData (X := TCG) 8 EventTypeIPL
    (list_byte_of_string "grub_cmd: boot" ++ [x00]) LittleEndian
  = Returns (Some (EventData.GrubCmd
                     (EventData.GrubCmdEventData.mk
                        (list_byte_of_string "grub_cmd: boot" ++ [x00]) "boot")))
  /\ EventData.MeasuredBytes
       (EventData.GrubCmd
          (EventData.GrubCmdEventData.mk
             (list_byte_of_string "grub_cmd: boot" ++ [x00]) "boot"))
     = Some (list_byte_of_string "boot")
  /\ (list_byte_of_string "boot" ++ [x00]
      = list_byte_of_string "boot" ++ [x00]
      \/ (list_byte_of_string "boot" ++ [x00] = list_byte_of_string "boot"
          /\ forall m', list_byte_of_string "boot" <> m' ++ [x00])).
Proof.
  assert (H1 : EventData.makeEventData (X := TCG) 8 EventTypeIPL
                 (list_byte_of_string "grub_cmd: boot" ++ [x00]) LittleEndian
               = Returns (Some (EventData.GrubCmd
                                  (EventData.GrubCmdEventData.mk
                                     (list_byte_of_string "grub_cmd: boot"
                                      ++ [x00]) "boot"))))
    by (vm_compute; reflexivity).
  assert (H2 : EventData.MeasuredBytes
                 (EventData.GrubCmd
                    (EventData.GrubCmdEventData.mk
                       (list_byte_of_string "grub_cmd: boot" ++ [x00]) "boot"))
               = Some (list_byte_of_string "boot")) by reflexivity.
  split; [exact H1|]. split; [exact H2|].
  exact (proj1 (makeEventData_measured_bytes (X := TCG) 8 EventTypeIPL _
                  LittleEndian _ _ H1 H2)
           EventData.grubCmdPrefix (list_byte_of_string "boot" ++ [x00])
           eq_refl eq_refl (or_intror eq_refl) eq_refl).
Defined.

Lemma makeEventData_no_action_witness :
  EventData.makeEventData (X := TCG) 0 EventTypeNoAction specIdSha256Size20
    LittleEndian
  = Returns (Some (EventData.SpecId
                     (mkSpecIdEventData specIdSha256Size20 SpecEFI_2 0 0 2 0 2
                        [mkAlgorithmSize 0x000b 20] [])))
  /\ 0 = 0
  /\ specIdDescribed LittleEndian specIdSha256Size20
       (mkSpecIdEventData specIdSha256Size20 SpecEFI_2 0 0 2 0 2
          [mkAlgorithmSize 0x000b 20] []).
Proof.
  assert (H : EventData.makeEventData (X := TCG) 0 EventTypeNoAction
                specIdSha256Size20 LittleEndian
              = Returns (Some (EventData.SpecId
                                 (mkSpecIdEventData specIdSha256Size20
                                    SpecEFI_2 0 0 2 0 2
                                    [mkAlgorithmSize 0x000b 20] []))))
    by (vm_compute; reflexivity).
  split; [exact H|].
  exact (makeEventData_no_action (X := TCG) 0 specIdSha256Size20 LittleEndian
           _ H).
Defined.

Lemma makeEventData_returns_within_data_witness :
  Z.of_nat (length imageLoadTerminated) <= maxAlloc
  /\ ~ In EventTypeEFIBootServicesApplication
         [EventTypeEFIVariableDriverConfig; EventTypeEFIVariableBoot;
          EventTypeEFIVariableAuthority]
  /\ Uint LittleEndian (field 24 8 imageLoadTerminated)
     <= Z.of_nat (length imageLoadTerminated)
  /\ EventTypeEFIBootServicesApplication <> EventTypeNoAction
  /\ exists e,
       EventData.makeEventData (X := TCG) 0 EventTypeEFIBootServicesApplication
         imageLoadTerminated LittleEndian
       = Returns (Some e)
       /\ EventData.RawBytes e = imageLoadTerminated.
Proof.
  assert (H1 : Z.of_nat (length imageLoadTerminated) <= maxAlloc)
    by discriminate.
  assert (H2 : ~ In EventTypeEFIBootServicesApplication
                   [EventTypeEFIVariableDriverConfig; EventTypeEFIVariableBoot;
                    EventTypeEFIVariableAuthority]).
  { cbn [In]. intros [H|[H|[H|[]]]]; discriminate H. }
  assert (H3 : Uint LittleEndian (field 24 8 imageLoadTerminated)
               <= Z.of_nat (length imageLoadTerminated)) by discriminate.
  assert (H4 : EventTypeEFIBootServicesApplication <> EventTypeNoAction)
    by discriminate.
  split; [exact H1|]. split; [exact H2|]. split; [exact H3|].
  split; [exact H4|].
  apply (makeEventData_returns_within_data (X := TCG) 0
           EventTypeEFIBootServicesApplication imageLoadTerminated LittleEndian
           H1 H2 (fun _ => H3)).
  intros H. now elim H4.
Defined.
